(** * Ludwig hyperopt execution: a shallow embedding of
      [ludwig/hyperopt/execution.py]

    Python dictionaries are finite maps ([gmap]) with string keys, Python
    floats are finite values (rationals: only their order matters here),
    the two infinities and NaN, with the comparisons of IEEE 754, raised
    exceptions are the [Raise] branch of [result], and the file
    system, the trial table and the instance dictionary are explicit states.
    Functions of third-party libraries (pandas, json, ray) and of modules of
    the repository that the executor only imports are parameters of the
    section that uses them. *)

From Stdlib Require Import ZArith QArith Bool Ascii String List Permutation Sorted.
From stdpp Require Import gmap strings list fin_maps.

Local Open Scope string_scope.
Local Open Scope list_scope.

(** ** Exceptions and results *)

Inductive exn :=
| RuntimeError (msg : string)
| ValueError (msg : string)
| KeyError (key : string)
| TypeError
| IndexError
| AssertionError
| AttributeError (name : string)
| OSError (msg : string)
| ImportError
| NotImplementedError.

Inductive result (A : Type) :=
| Ok (a : A)
| Raise (e : exn).
Arguments Ok {A} a.
Arguments Raise {A} e.

Definition bind {A B} (r : result A) (k : A -> result B) : result B :=
  match r with
  | Ok a => k a
  | Raise e => Raise e
  end.

Notation "'let*' x ':=' c 'in' k" := (bind c (fun x => k))
  (at level 10, x name, c at level 100, k at level 200).

(** [d[k]] on a dictionary: [KeyError] when the key is absent. *)
Definition getitem {V} (d : gmap string V) (k : string) : result V :=
  match d !! k with
  | Some v => Ok v
  | None => Raise (KeyError k)
  end.

(** [k in d]. *)
Definition contains {V} (d : gmap string V) (k : string) : bool :=
  bool_decide (is_Some (d !! k)).

(** ** Constants of [ludwig.constants] *)

Definition MAXIMIZE := "maximize".
Definition MINIMIZE := "minimize".
Definition TRAINING := "training".
Definition VALIDATION := "validation".
Definition TEST := "test".

(** ** Python floats *)

(** A float: a finite value, an infinity or NaN. *)
Inductive pyfloat :=
| Finite (x : Q)
| Infinity (positive : bool)
| NaN.

(** [math.isnan(a)]. *)
Definition isnan (a : pyfloat) : bool :=
  match a with
  | NaN => true
  | _ => false
  end.

Definition Qltb (x y : Q) : bool := negb (Qle_bool y x).

(** [a < b] and [a <= b] on floats: false whenever one side is NaN. *)
Definition float_ltb (a b : pyfloat) : bool :=
  match a, b with
  | NaN, _ | _, NaN => false
  | Finite x, Finite y => Qltb x y
  | Finite _, Infinity positive => positive
  | Infinity positive, Finite _ => negb positive
  | Infinity p, Infinity q => negb p && q
  end.

Definition float_leb (a b : pyfloat) : bool :=
  match a, b with
  | NaN, _ | _, NaN => false
  | Finite x, Finite y => Qle_bool x y
  | Finite _, Infinity positive => positive
  | Infinity positive, Finite _ => negb positive
  | Infinity p, Infinity q => negb p || q
  end.

(** ** Python's [max] and [min] with a key, over a sequence of pairs *)

(** [max(it, key=...)]: the running best is replaced by an item whose key
    is greater ([key(x) > key(best)]), so the first of several largest
    items is kept, and so is a first item whose key is NaN, which nothing
    is greater than. *)
Fixpoint max_from {A} (key : A -> pyfloat) (best : A) (rest : list A) : A :=
  match rest with
  | [] => best
  | x :: r => max_from key (if float_ltb (key best) (key x) then x else best) r
  end.

(** [min(it, key=...)]: the running best is replaced by an item whose key
    is less ([key(x) < key(best)]). *)
Fixpoint min_from {A} (key : A -> pyfloat) (best : A) (rest : list A) : A :=
  match rest with
  | [] => best
  | x :: r => min_from key (if float_ltb (key x) (key best) then x else best) r
  end.

(** Both raise [ValueError] on an empty sequence. *)
Definition py_max {A} (key : A -> pyfloat) (l : list A) : result A :=
  match l with
  | [] => Raise (ValueError "max() arg is an empty sequence")
  | x :: r => Ok (max_from key x r)
  end.

Definition py_min {A} (key : A -> pyfloat) (l : list A) : result A :=
  match l with
  | [] => Raise (ValueError "min() arg is an empty sequence")
  | x :: r => Ok (min_from key x r)
  end.

(** [enumerate(l)]. *)
Fixpoint enumerate_from {A} (i : nat) (l : list A) : list (nat * A) :=
  match l with
  | [] => []
  | x :: r => (i, x) :: enumerate_from (S i) r
  end.

Definition enumerate {A} (l : list A) : list (nat * A) := enumerate_from 0 l.

(** ** Metric extractor *)

(** Training statistics: split -> output feature -> metric -> one value per
    checkpoint.  [None] is Python's [None]. *)
Abbreviation metric_table := (gmap string (list pyfloat)).
Abbreviation feature_table := (gmap string (gmap string (list pyfloat))).
Abbreviation train_stats_t :=
  (gmap string (gmap string (gmap string (list pyfloat)))).

Inductive objective := Maximize | Minimize.

(** [s or d] for an optional string: [None] and the empty string are
    false. *)
Definition or_default (s : option string) (d : string) : string :=
  match s with
  | None | Some EmptyString => d
  | Some s => s
  end.

Section MetricExtractor.

(** The executor's configured output feature and metric
    ([self.output_feature], [self.metric]). *)
Variable output_feature : string.
Variable metric : string.

(** The metric registry of [ludwig.modules.metric_modules]: the objective
    every metric declares for itself. *)
Variable get_metric_objective : string -> objective.

(** Modelled from the spec: [ludwig.modules.metric_modules.get_best_function]
    is not among the sources; the spec describes it as the per-metric
    comparator, [max] where higher is better and [min] where lower is
    better. *)
Definition get_best_function (m : string) {A} (key : A -> pyfloat) (l : list A)
  : result A :=
  match get_metric_objective m with
  | Maximize => py_max key l
  | Minimize => py_min key l
  end.

(** [_has_metric(stats, split)] with [split] not [None], as both callers
    pass it. *)
Definition _has_metric (stats : option train_stats_t) (split : string) : bool :=
  match stats with
  | None => false
  | Some stats =>
    if bool_decide (stats = ∅) then false
    else
      match stats !! split with
      | None => false
      | Some stats =>
        match stats !! output_feature with
        | None => false
        | Some stats =>
          match stats !! metric with
          | None => false
          | Some stats => bool_decide (0 < length stats)%nat
          end
        end
      end
  end.

(** [get_metric_score_from_train_stats(train_stats, select_split)]. *)
Definition get_metric_score_from_train_stats
    (train_stats : option train_stats_t) (select_split : option string)
  : result pyfloat :=
  let select_split := or_default select_split VALIDATION in
  match train_stats with
  | None => Raise TypeError
  | Some train_stats =>
    let* train_valiset_stats := getitem train_stats select_split in
    let* validation_field_result := getitem train_valiset_stats output_feature in
    let* values := getitem validation_field_result metric in
    let* best := get_best_function metric (fun pair : nat * pyfloat => snd pair)
              (enumerate values) in
    Ok (snd best)
  end.

(** [get_metric_score(train_stats)]. *)
Definition get_metric_score (train_stats : option train_stats_t)
  : result pyfloat :=
  if _has_metric train_stats VALIDATION then
    get_metric_score_from_train_stats train_stats (Some VALIDATION)
  else if _has_metric train_stats TRAINING then
    get_metric_score_from_train_stats train_stats (Some TRAINING)
  else
    Raise (RuntimeError
      "Unable to obtain metric score from missing training (validation) statistics").

End MetricExtractor.

(** ** JSON values

    What [json.loads] can return, and so what the statistics and parameter
    dictionaries hold: [bool] is a subclass of [int] in Python, hence numeric
    for [isinstance(x, (int, float))], and never a [float]. *)

#[warnings="-register-all"]
Inductive json :=
| JNull
| JBool (b : bool)
| JInt (n : Z)
| JFloat (x : pyfloat)
| JStr (s : string)
| JList (l : list json)
| JDict (d : gmap string json).

Definition isinstance_float (v : json) : bool :=
  match v with JFloat _ => true | _ => false end.

Definition isinstance_int_or_float (v : json) : bool :=
  match v with JInt _ | JFloat _ | JBool _ => true | _ => false end.

(** [s.split(sep)] for a one-character separator: the empty string gives
    one empty part. *)
Fixpoint split_on (sep : ascii) (s : string) : list string :=
  match s with
  | EmptyString => [EmptyString]
  | String c rest =>
    if Ascii.eqb c sep then EmptyString :: split_on sep rest
    else
      match split_on sep rest with
      | [] => [String c EmptyString]
      | part :: parts => String c part :: parts
      end
  end.

Definition dot : ascii := "."%char.

Section EvalStats.

Variable output_feature : string.
Variable metric : string.

(** The two [ValueError]s of [get_metric_score_from_eval_stats]; the second
    message ends, in the source, with the rendering of the value found. *)
Definition missing_metric : exn :=
  ValueError ("Evaluation statistics do not contain the metric " ++ metric).

Definition not_numerical : exn :=
  ValueError ("The metric " ++ metric ++
              " in evaluation statistics is not a numerical value").

(** The loop of [get_metric_score_from_eval_stats] over the metric parts. *)
Fixpoint walk_metric_parts (stats : json) (parts : list string) : result json :=
  match parts with
  | [] => Ok stats
  | metric_part :: rest =>
    match stats with
    | JDict d =>
      match d !! metric_part with
      | Some stats => walk_metric_parts stats rest
      | None => Raise missing_metric
      end
    | _ => Raise missing_metric
    end
  end.

(** [get_metric_score_from_eval_stats(eval_stats)]. *)
Definition get_metric_score_from_eval_stats (eval_stats : gmap string json)
  : result pyfloat :=
  let* stats := getitem eval_stats output_feature in
  let* stats := walk_metric_parts stats (split_on dot metric) in
  match stats with
  | JFloat x => Ok x
  | _ => Raise not_numerical
  end.

(** The loop of [_has_eval_metric]: [None] stands for an early
    [return False]. *)
Fixpoint has_metric_parts (stats : json) (parts : list string) : option json :=
  match parts with
  | [] => Some stats
  | metric_part :: rest =>
    match stats with
    | JDict d =>
      match d !! metric_part with
      | Some stats => has_metric_parts stats rest
      | None => None
      end
    | _ => None
    end
  end.

(** [_has_eval_metric(stats)]. *)
Definition _has_eval_metric (stats : option (gmap string json)) : bool :=
  match stats with
  | None => false
  | Some stats =>
    match stats !! output_feature with
    | None => false
    | Some stats =>
      match has_metric_parts stats (split_on dot metric) with
      | None => false
      | Some stats => isinstance_float stats
      end
    end
  end.

End EvalStats.

(** ** Search-space codec *)

(** The only decode function [encode_values] ever registers. *)
Inductive decode_fn := json_loads_fn.

Section Codec.

(** [json.dumps] and [json.loads] of the Python standard library, on
    strings. *)
Variable json_dumps : json -> string.
Variable json_loads : string -> result json.

(** [json.loads(x)] on a Python value: anything but a string is a
    [TypeError]. *)
Definition py_json_loads (x : json) : result json :=
  match x with
  | JStr s => json_loads s
  | _ => Raise TypeError
  end.

Definition one_char (c : ascii) : json := JStr (String c EmptyString).

(** The items of [for v in x], for the values a JSON document can hold
    (a dictionary iterates over its keys). *)
Definition iter_items (x : json) : result (list json) :=
  match x with
  | JList l => Ok l
  | JStr s => Ok (one_char <$> list_ascii_of_string s)
  | JDict d => Ok (JStr <$> (map_to_list d).*1)
  | _ => Raise TypeError
  end.

(** [x[0]]. *)
Definition getitem0 (x : json) : result json :=
  match x with
  | JList (v :: _) => Ok v
  | JList [] => Raise IndexError
  | JStr (String c _) => Ok (one_char c)
  | JStr EmptyString => Raise IndexError
  | JDict _ => Raise (KeyError "0")
  | _ => Raise TypeError
  end.

(** One turn of the loop of [encode_values], for [key]. *)
Definition encode_key (param : string) (key : string)
    (st : gmap string json * gmap string decode_fn)
  : result (gmap string json * gmap string decode_fn) :=
  let '(values, ctx) := st in
  match values !! key with
  | None => Ok (values, ctx)
  | Some x =>
    let* first := getitem0 x in
    if negb (isinstance_int_or_float first) then
      let* items := iter_items x in
      Ok (<[key := JList ((fun v => JStr (json_dumps v)) <$> items)]> values,
          <[param := json_loads_fn]> ctx)
    else Ok (values, ctx)
  end.

(** [encode_values(param, values, ctx)]: the encoded copy of [values] and
    the context as the call leaves it. *)
Definition encode_values (param : string) (values : gmap string json)
    (ctx : gmap string decode_fn)
  : result (gmap string json * gmap string decode_fn) :=
  let* st := encode_key param "values" (values, ctx) in
  encode_key param "categories" st.

(** [ctx.get(key, identity)(value)]. *)
Definition decode_value (ctx : gmap string decode_fn) (key : string)
    (value : json) : result json :=
  match ctx !! key with
  | Some json_loads_fn => py_json_loads value
  | None => Ok value
  end.

(** [decode_values(config, ctx)]: the dictionary comprehension, one item
    after the other. *)
Definition decode_item (ctx : gmap string decode_fn) (item : string * json)
    (acc : result (gmap string json)) : result (gmap string json) :=
  let* decoded := acc in
  let* v := decode_value ctx item.1 item.2 in
  Ok (<[item.1 := v]> decoded).

Definition decode_values (config : gmap string json)
    (ctx : gmap string decode_fn) : result (gmap string json) :=
  foldr (decode_item ctx) (Ok ∅) (map_to_list config).

End Codec.

(** ** Result aggregator *)

(** A cell of the results table under one of the columns [parameters],
    [training_stats], [eval_stats]: the JSON string a trial reported, the
    float NaN pandas puts where a trial reported nothing, or the empty
    dictionary [{}] the NaN guard of [execute] writes over a float. *)
Inductive cell :=
| CStr (s : string)
| CFloat
| CEmptyDict.

Global Instance cell_eq_dec : EqDecision cell.
Proof. solve_decision. Defined.

(** One row of [analysis.results_df] as a record ([to_dict(orient="records")]);
    [metric_score] is [None] where the column holds NaN. *)
Record trial := {
  trial_id : string;
  trial_dir : string;
  metric_score : option Q;
  parameters : cell;
  training_stats : cell;
  eval_stats : cell;
}.

Definition set_eval_stats (t : trial) (c : cell) : trial :=
  {| trial_id := trial_id t; trial_dir := trial_dir t;
     metric_score := metric_score t; parameters := parameters t;
     training_stats := training_stats t; eval_stats := c |}.

(** [analysis.results_df]: whether the column [metric_score] exists, and the
    rows in the order the trials reported. *)
Record results_df := {
  has_metric_score_column : bool;
  rows : list trial;
}.

(** What the aggregator emits besides its result. *)
Inductive event :=
| Warning (msg : string)
| EvaluateBestModel (trial_path best_model_path : string).

(** The outcome of [LudwigModel.load] followed by [best_model.evaluate] for
    one trial. *)
Inductive eval_outcome :=
| Evaluated (eval_stats_json : string)
| Unsupported
| EvalFailed (e : exn).

(** The order pandas sorts a float column in: NaN last, whatever the
    direction. *)
Definition score_le (ascending : bool) (a b : option Q) : Prop :=
  match a, b with
  | _, None => True
  | None, Some _ => False
  | Some x, Some y => if ascending then (x <= y)%Q else (y <= x)%Q
  end.

Definition score_leb (ascending : bool) (a b : option Q) : bool :=
  match a, b with
  | _, None => true
  | None, Some _ => false
  | Some x, Some y => if ascending then Qle_bool x y else Qle_bool y x
  end.

Definition by_score (ascending : bool) (t1 t2 : trial) : Prop :=
  score_le ascending (metric_score t1) (metric_score t2).

(** The documented contract of [DataFrame.sort_values(by, ascending)] with
    its default [kind="quicksort"]: the rows, reordered, sorted by the
    column. *)
Definition sort_values_contract
    (sort_values : bool -> list trial -> list trial) : Prop :=
  forall ascending df,
    Permutation df (sort_values ascending df) /\
    StronglySorted (by_score ascending) (sort_values ascending df).

(** The NaN guard over one record. *)
Definition nan_guard_cell (c : cell) : cell :=
  match c with
  | CFloat => CEmptyDict
  | _ => c
  end.

Definition nan_guard (kwargs : trial) : trial :=
  {| trial_id := trial_id kwargs; trial_dir := trial_dir kwargs;
     metric_score := metric_score kwargs;
     parameters := nan_guard_cell (parameters kwargs);
     training_stats := nan_guard_cell (training_stats kwargs);
     eval_stats := nan_guard_cell (eval_stats kwargs) |}.

(** [trial["eval_stats"] == "{}" and trial["training_stats"] != "{}"]:
    a dictionary never equals a string. *)
Definition selected_for_backfill (t : trial) : bool :=
  bool_decide (eval_stats t = CStr "{}") &&
  negb (bool_decide (training_stats t = CStr "{}")).

Section Aggregator.

(** [self.goal]. *)
Variable goal : string.

(** [DataFrame.sort_values("metric_score", ascending=...)] of pandas. *)
Variable sort_values : bool -> list trial -> list trial.

(** [validation_set]: [None], or a dataset of the given [size]. *)
Variable validation_set : option nat.

(** What [self._get_best_model_path(trial_path, analysis)] yields. *)
Variable _get_best_model_path : string -> option string.

(** Loading and evaluating the model under a checkpoint. *)
Variable load_and_evaluate : string -> string -> eval_outcome.

(** [_evaluate_best_model(trial, trial_path, best_model_path, ...)]:
    the record as the call leaves it. *)
Definition _evaluate_best_model (t : trial) (trial_path best_model_path : string)
  : result (trial * list event) :=
  match load_and_evaluate trial_path best_model_path with
  | Evaluated s => Ok (set_eval_stats t (CStr s), [])
  | Unsupported =>
    Ok (t, [Warning "Skipping evaluation as the necessary methods are not supported"])
  | EvalFailed e => Raise e
  end.

(** The body of the backfill loop for one record. *)
Definition backfill_trial (t : trial) : result (trial * list event) :=
  if selected_for_backfill t then
    match validation_set with
    | Some (S _) =>
      let trial_path := trial_dir t in
      match _get_best_model_path trial_path with
      | Some best_model_path =>
        let* r := _evaluate_best_model t trial_path best_model_path in
        Ok (fst r, EvaluateBestModel trial_path best_model_path :: snd r)
      | None =>
        Ok (t, [Warning "Skipping evaluation as no model checkpoints were available"])
      end
    | _ => Ok (t, [Warning "Skipping evaluation as no validation set was provided"])
    end
  else Ok (t, []).

(** The backfill loop: an exception leaves the loop at once. *)
Fixpoint backfill (ts : list trial) : result (list trial * list event) :=
  match ts with
  | [] => Ok ([], [])
  | t :: rest =>
    let* r := backfill_trial t in
    let* rs := backfill rest in
    Ok (fst r :: fst rs, snd r ++ snd rs)
  end.

(** The tail of [execute], from the test on the [metric_score] column:
    the ordered records (before [TrialResults.from_dict], which converts
    them one by one) and the events. *)
Definition aggregate (df : results_df) : result (list trial * list event) :=
  if has_metric_score_column df then
    let ordered_trials :=
      sort_values (negb (String.eqb goal MAXIMIZE)) (rows df) in
    let temp_ordered_trials := nan_guard <$> ordered_trials in
    backfill temp_ordered_trials
  else
    Ok ([], [Warning
      "No trials reported results; check if time budget lower than epoch latency"]).

End Aggregator.

(** A sort that meets the contract of [sort_values]: insertion after the
    records that compare equal (stable, as Python's [sorted]). *)
Fixpoint insert_by (goes_first : trial -> trial -> bool) (t : trial)
    (l : list trial) : list trial :=
  match l with
  | [] => [t]
  | h :: r => if goes_first t h then t :: h :: r else h :: insert_by goes_first t r
  end.

Definition sort_by (goes_first : trial -> trial -> bool) (l : list trial)
  : list trial :=
  foldr (insert_by goes_first) [] (rev l).

Definition stable_sort (ascending : bool) : list trial -> list trial :=
  sort_by (fun t h => negb (score_leb ascending (metric_score h) (metric_score t))).

(** ** File system

    A path names the tree rooted at it; the operations below address whole
    trees under paths that do not lie inside one another.  A state change
    survives the exception that follows it, so an operation returns the new
    state together with its result. *)

#[warnings="-register-all"]
Inductive node :=
| File (content : string)
| Dir (entries : list (string * node)).

Abbreviation filesystem := (gmap string node).

Definition os_path_exists (fs : filesystem) (p : string) : bool :=
  bool_decide (is_Some (fs !! p)).

Definition os_path_isdir (fs : filesystem) (p : string) : bool :=
  match fs !! p with
  | Some (Dir _) => true
  | _ => false
  end.

Definition os_path_join (a b : string) : string := a ++ "/" ++ b.

Definition startswith_dot (f : string) : bool :=
  match f with
  | String c _ => Ascii.eqb c dot
  | EmptyString => false
  end.

(** The [ignore] callback of [checkpoint]. *)
Definition ignore_dot_files (files : list string) : list string :=
  filter (fun f => startswith_dot f = true) files.

(** What [shutil.copytree(src, dst, ignore=ignore)] writes for the tree [n]:
    at every directory the names [ignore] returns are skipped. *)
Fixpoint copy_entries (copy : node -> node) (ignored : list string)
    (es : list (string * node)) : list (string * node) :=
  match es with
  | [] => []
  | (name, child) :: rest =>
    if bool_decide (name ∈ ignored) then copy_entries copy ignored rest
    else (name, copy child) :: copy_entries copy ignored rest
  end.

Fixpoint copytree_node (ignore : list string -> list string) (n : node) : node :=
  match n with
  | File c => File c
  | Dir entries =>
    Dir (copy_entries (copytree_node ignore) (ignore (entries.*1)) entries)
  end.


Definition dir_entries (n : node) : list (string * node) :=
  match n with
  | Dir es => es
  | File _ => []
  end.

(** [shutil.copytree(src, dst, ignore)]: the states a concurrent observer can
    see while the entries arrive under [dst] one after the other, ending with
    the complete copy. *)
Definition copytree_states (copied : node) (dst : string) (fs : filesystem)
  : list filesystem :=
  (fun k => <[dst := Dir (take k (dir_entries copied))]> fs)
    <$> seq 0 (S (length (dir_entries copied))).

Definition shutil_copytree (ignore : list string -> list string)
    (src dst : string) (fs : filesystem) : filesystem * result unit :=
  match fs !! src with
  | None => (fs, Raise (OSError "FileNotFoundError"))
  | Some (File _) => (fs, Raise (OSError "NotADirectoryError"))
  | Some (Dir es) =>
    if os_path_exists fs dst then (fs, Raise (OSError "FileExistsError"))
    else (<[dst := copytree_node ignore (Dir es)]> fs, Ok tt)
  end.

(** [os.rename(src, dst)] on POSIX; [fault] is an error forced by the
    operating system (permissions, a full or remote device). *)
Definition os_rename (fault : option exn) (src dst : string) (fs : filesystem)
  : filesystem * result unit :=
  match fault with
  | Some e => (fs, Raise e)
  | None =>
    match fs !! src with
    | None => (fs, Raise (OSError "FileNotFoundError"))
    | Some n =>
      let moved := <[dst := n]> (delete src fs) in
      match n, fs !! dst with
      | _, None => (moved, Ok tt)
      | Dir _, Some (Dir []) => (moved, Ok tt)
      | Dir _, Some (Dir (_ :: _)) => (fs, Raise (OSError "ENOTEMPTY"))
      | Dir _, Some (File _) => (fs, Raise (OSError "NotADirectoryError"))
      | File _, Some (File _) => (moved, Ok tt)
      | File _, Some (Dir _) => (fs, Raise (OSError "IsADirectoryError"))
      end
    end
  end.

(** [shutil.rmtree(path)]. *)
Definition shutil_rmtree (path : string) (fs : filesystem)
  : filesystem * result unit :=
  match fs !! path with
  | None => (fs, Raise (OSError "FileNotFoundError"))
  | Some (File _) => (fs, Raise (OSError "NotADirectoryError"))
  | Some (Dir _) => (delete path fs, Ok tt)
  end.

(** ** Checkpoint staging *)

(** The outcome of a file-system routine: the states an observer could see,
    in order (the last one is the state the routine leaves), and the
    result. *)
Record run := {
  trace : list filesystem;
  final : filesystem;
  outcome : result unit;
}.

(** [checkpoint(progress_tracker, save_path)], inside
    [tune.checkpoint_dir(step=progress_tracker.tune_checkpoint_num)], which
    yields [checkpoint_dir]; [copy_id] is the value of [uuid.uuid4()] and
    [rename_fault] the error the operating system forces on [os.rename], if
    any. *)
Definition checkpoint (checkpoint_dir copy_id : string) (rename_fault : option exn)
    (save_path : string) (fs : filesystem) : run :=
  let checkpoint_model := os_path_join checkpoint_dir "model" in
  if negb (os_path_isdir fs checkpoint_model) then
    let tmp_dst : string := (checkpoint_model ++ "." ++ copy_id ++ ".tmp")%string in
    if negb (os_path_exists fs save_path) then
      {| trace := [fs]; final := fs; outcome := Raise AssertionError |}
    else
      match shutil_copytree ignore_dot_files save_path tmp_dst fs with
      | (fs1, Raise e) => {| trace := [fs; fs1]; final := fs1; outcome := Raise e |}
      | (fs1, Ok _) =>
        let copying :=
          fs :: match fs1 !! tmp_dst with
                | Some copied => copytree_states copied tmp_dst fs
                | None => []
                end in
        match os_rename rename_fault tmp_dst checkpoint_model fs1 with
        | (fs2, Ok _) =>
          {| trace := copying ++ [fs2]; final := fs2; outcome := Ok tt |}
        | (fs2, Raise _) =>
          let '(fs3, r) := shutil_rmtree tmp_dst fs2 in
          {| trace := copying ++ [fs2; fs3]; final := fs3; outcome := r |}
        end
      end
  else {| trace := [fs]; final := fs; outcome := Ok tt |}.

(** ** Resuming a trial *)

(** How the move of the resumed checkpoint ends. *)
Inductive move_outcome :=
| Moved
| MoveFailed (e : exn) (partial : option (list (string * node))).

(** Modelled from the spec: [ludwig.utils.fs_utils.safe_move_file] is not
    among the sources; the spec has it move the checkpoint into place or
    fail partway, which leaves at the destination a directory with part of
    the content, or nothing. *)
Definition safe_move_file (how : move_outcome) (src dst : string)
    (fs : filesystem) : filesystem * result unit :=
  match how with
  | Moved =>
    match fs !! src with
    | Some n => (<[dst := n]> (delete src fs), Ok tt)
    | None => (fs, Raise (OSError "FileNotFoundError"))
    end
  | MoveFailed e (Some part) => (<[dst := Dir part]> fs, Raise e)
  | MoveFailed e None => (fs, Raise e)
  end.

(** The rollback of the [except] branch, which re-raises [e]. *)
Definition rollback (e : exn) (save_path tmp_path : string) (fs : filesystem)
  : filesystem * result unit :=
  let '(fs1, r1) :=
    if os_path_exists fs save_path then shutil_rmtree save_path fs
    else (fs, Ok tt) in
  match r1 with
  | Raise e1 => (fs1, Raise e1)
  | Ok _ =>
    let '(fs2, r2) :=
      if os_path_exists fs1 tmp_path then os_rename None tmp_path save_path fs1
      else (fs1, Ok tt) in
    match r2 with
    | Raise e2 => (fs2, Raise e2)
    | Ok _ => (fs2, Raise e)
    end
  end.

(** [RayTuneReportCallback.on_trainer_train_setup(trainer, save_path,
    is_coordinator)] up to [trainer.barrier()]: [resuming] is
    [self.resume_ckpt_ref is not None], [ckpt_path] the directory
    [trainer_ckpt.as_directory()] yields. *)
Definition on_trainer_train_setup (resuming : bool) (local_rank : Z)
    (ckpt_path : string) (how : move_outcome) (save_path : string)
    (fs : filesystem) : filesystem * result unit :=
  if resuming && (local_rank =? 0)%Z then
    let tmp_path : string := (save_path ++ ".tmp")%string in
    let '(fs1, r1) :=
      if os_path_exists fs save_path then os_rename None save_path tmp_path fs
      else (fs, Ok tt) in
    match r1 with
    | Raise e => (fs1, Raise e)
    | Ok _ =>
      match safe_move_file how (os_path_join ckpt_path "model") save_path fs1 with
      | (fs2, Raise e) => rollback e save_path tmp_path fs2
      | (fs2, Ok _) =>
        if os_path_exists fs2 tmp_path then shutil_rmtree tmp_path fs2
        else (fs2, Ok tt)
      end
    end
  else (fs, Ok tt).

(** ** Trial runner: what [_run_experiment] does before training *)

Section TrialRunner.

Variable json_loads : string -> result json.

(** [ludwig.hyperopt.utils.substitute_parameters(config, parameters)]. *)
Variable substitute_parameters : json -> gmap string json -> json.

(** [ModelConfig.from_dict(config).to_dict()]. *)
Variable model_config_to_dict : json -> result json.

(** [_run_experiment(config, checkpoint_dir, hyperopt_dict, decode_ctx, ...)]
    up to the assignment of [hyperopt_dict["config"]].  [files] maps the
    path of a JSON file to the document [json.dump] wrote to it;
    [trial_dir] is [tune.get_trial_dir()].  The result is the decoded
    sampled [config] and the updated [hyperopt_dict]. *)
Definition _run_experiment_setup
    (config : gmap string json) (hyperopt_dict : gmap string json)
    (decode_ctx : gmap string decode_fn) (trial_dir : string)
    (files : gmap string json)
  : gmap string json * result (gmap string json * gmap string json) :=
  match decode_values json_loads config decode_ctx with
  | Raise e => (files, Raise e)
  | Ok config =>
    let config :=
      if contains config "mlflow" then delete "mlflow" config else config in
    match getitem hyperopt_dict "config" with
    | Raise e => (files, Raise e)
    | Ok base_config =>
      (* [copy.deepcopy]: the merge works on a copy *)
      let modified_config := substitute_parameters base_config config in
      let files :=
        <[os_path_join trial_dir "trial_hyperparameters.json" := base_config]>
          files in
      match model_config_to_dict modified_config with
      | Raise e => (files, Raise e)
      | Ok modified_config =>
        (files, Ok (config, <["config" := modified_config]> hyperopt_dict))
      end
    end
  end.

End TrialRunner.

(** ** The executor instance *)

(** The values an attribute of the executor holds; [PyObject] is an object
    of ray or of another module of ludwig. *)
Inductive pyobj :=
| PyNone
| PyStr (s : string)
| PyInt (n : Z)
| PySearchSpace (space : gmap string string)
| PyDecodeCtx (ctx : gmap string decode_fn)
| PyObject (description : string).

(** The names the class [RayTuneExecutor] itself defines (methods and
    properties), which attribute lookup falls back to. *)
Definition class_attributes : list string :=
  ["__init__"; "_get_search_space"; "encode_values"; "decode_values";
   "_has_metric"; "_has_eval_metric"; "get_metric_score";
   "get_metric_score_from_eval_stats"; "get_metric_score_from_train_stats";
   "sort_hyperopt_results"; "_cpu_resources_per_trial_non_none";
   "_gpu_resources_per_trial_non_none"; "_get_remote_checkpoint_dir";
   "_get_kubernetes_node_address_by_ip"; "_remove_partial_checkpoints";
   "_get_best_model_path"; "_evaluate_best_model"; "_run_experiment";
   "execute"].

(** [self.name]: the instance dictionary, then the class. *)
Definition py_getattr (self : gmap string pyobj) (name : string) : result pyobj :=
  match self !! name with
  | Some v => Ok v
  | None =>
    if bool_decide (name ∈ class_attributes) then Ok (PyObject name)
    else Raise (AttributeError name)
  end.

(** The arguments of [RayTuneExecutor.__init__]; [parameters] keeps the
    order of the dictionary. *)
Record init_args := {
  arg_parameters : list (string * gmap string json);
  arg_output_feature : string;
  arg_metric : string;
  arg_goal : string;
  arg_split : string;
  arg_search_alg : pyobj;
  arg_cpu_resources_per_trial : pyobj;
  arg_gpu_resources_per_trial : pyobj;
  arg_kubernetes_namespace : pyobj;
  arg_time_budget_s : pyobj;
  arg_max_concurrent_trials : pyobj;
  arg_num_samples : Z;
  arg_scheduler : pyobj;
}.

(** [sorted(l, key=..., reverse=...)] is stable in both directions. *)
Definition py_sorted (reverse : bool) (l : list trial) : list trial :=
  stable_sort (negb reverse) l.

Section Executor.

Variable json_dumps : json -> string.

(** Whether the module [ray] could be imported. *)
Variable ray_is_none : bool.

(** The search-space constructor of [ray.tune] named by
    [values["space"].lower()], applied to the arguments its signature
    asks for; [ValueError] for an unknown name or a missing argument. *)
Variable tune_search_space : string -> gmap string json -> result string.

(** [get_search_algorithm], [tune.create_scheduler] and
    [ray.util.get_node_ip_address]. *)
Variable get_search_algorithm : pyobj -> pyobj.
Variable create_scheduler : pyobj -> result pyobj.
Variable get_node_ip_address : string.

(** An attribute of an object that is not an executor. *)
Variable foreign_getattr : pyobj -> string -> result pyobj.

(** [_get_search_space(parameters)]. *)
Fixpoint search_space_loop (parameters : list (string * gmap string json))
    (config : gmap string string) (ctx : gmap string decode_fn)
  : result (gmap string string * gmap string decode_fn) :=
  match parameters with
  | [] => Ok (config, ctx)
  | (param, values) :: rest =>
    let* st := encode_values json_dumps param values ctx in
    let* space := getitem (fst st) "space" in
    match space with
    | JStr param_search_type =>
      let* param_search_space := tune_search_space param_search_type (fst st) in
      search_space_loop rest (<[param := param_search_space]> config) (snd st)
    | _ => Raise (AttributeError "lower")
    end
  end.

Definition _get_search_space (parameters : list (string * gmap string json))
  : result (gmap string string * gmap string decode_fn) :=
  search_space_loop parameters ∅ ∅.

(** [RayTuneExecutor.__init__]: the instance dictionary it leaves. *)
Definition __init__ (a : init_args) : result (gmap string pyobj) :=
  if ray_is_none then Raise ImportError
  else
    let self : gmap string pyobj := ∅ in
    let self := <["output_feature" := PyStr (arg_output_feature a)]> self in
    let self := <["metric" := PyStr (arg_metric a)]> self in
    let self := <["split" := PyStr (arg_split a)]> self in
    let* space := _get_search_space (arg_parameters a) in
    let self := <["search_space" := PySearchSpace (fst space)]> self in
    let self := <["decode_ctx" := PyDecodeCtx (snd space)]> self in
    let self := <["num_samples" := PyInt (arg_num_samples a)]> self in
    let self := <["goal" := PyStr (arg_goal a)]> self in
    let self :=
      <["search_algorithm" := get_search_algorithm (arg_search_alg a)]> self in
    let* scheduler :=
      match arg_scheduler a with
      | PyNone => Ok PyNone
      | s => create_scheduler s
      end in
    let self := <["scheduler" := scheduler]> self in
    let self := <["output_feature" := PyStr (arg_output_feature a)]> self in
    let self := <["metric" := PyStr (arg_metric a)]> self in
    let self := <["split" := PyStr (arg_split a)]> self in
    let self := <["trial_id" := PyInt 0]> self in
    let self :=
      <["cpu_resources_per_trial" := arg_cpu_resources_per_trial a]> self in
    let self :=
      <["gpu_resources_per_trial" := arg_gpu_resources_per_trial a]> self in
    let self := <["kubernetes_namespace" := arg_kubernetes_namespace a]> self in
    let self := <["time_budget_s" := arg_time_budget_s a]> self in
    let self :=
      <["max_concurrent_trials" := arg_max_concurrent_trials a]> self in
    let self := <["sync_config" := PyNone]> self in
    let self := <["sync_client" := PyNone]> self in
    let self := <["head_node_ip" := PyStr get_node_ip_address]> self in
    Ok self.

(** The only assignments to attributes of [self] outside [__init__]:
    [execute] sets [sync_client] and [sync_config]. *)
Definition execute_set_sync (self : gmap string pyobj)
    (sync_client sync_config : pyobj) : gmap string pyobj :=
  <["sync_config" := sync_config]> (<["sync_client" := sync_client]> self).

(** The instances the code can build. *)
Inductive executor_instance : gmap string pyobj -> Prop :=
| instance_init a self :
    __init__ a = Ok self -> executor_instance self
| instance_execute self sync_client sync_config :
    executor_instance self ->
    executor_instance (execute_set_sync self sync_client sync_config).

(** [sort_hyperopt_results(hyperopt_results)]: the arguments of [sorted]
    are evaluated before the call. *)
Definition sort_hyperopt_results (self : gmap string pyobj)
    (hyperopt_results : list trial) : result (list trial) :=
  let* hyperopt_sampler := py_getattr self "hyperopt_sampler" in
  let* goal := foreign_getattr hyperopt_sampler "goal" in
  let reverse :=
    match goal with
    | PyStr g => String.eqb g MAXIMIZE
    | _ => false
    end in
  Ok (py_sorted reverse hyperopt_results).

End Executor.

(** ** Loops with early exit *)

(** [for x in l: body] over a state: an exception leaves the loop with the
    state as the failing turn left it. *)
Fixpoint for_each {S A : Type} (body : A -> S -> S * result unit) (l : list A)
    (s : S) : S * result unit :=
  match l with
  | [] => (s, Ok tt)
  | x :: rest =>
    match body x s with
    | (s', Ok _) => for_each body rest s'
    | (s', Raise e) => (s', Raise e)
    end
  end.

(** ** [set_values] *)

(** One turn of the inner loop of [set_values], for [sub_key, sub_value];
    item assignment on anything but a dictionary is a [TypeError]. *)
Definition set_sub_value (key : string) (item : string * json)
    (model_dict : gmap string json) : gmap string json * result unit :=
  let model_dict :=
    if contains model_dict key then model_dict
    else <[key := JDict ∅]> model_dict in
  match model_dict !! key with
  | Some (JDict d) =>
    (<[key := JDict (<[item.1 := item.2]> d)]> model_dict, Ok tt)
  | _ => (model_dict, Raise TypeError)
  end.

(** One turn of the outer loop, for [key, value]. *)
Definition set_value (param : string * json) (model_dict : gmap string json)
  : gmap string json * result unit :=
  match param.2 with
  | JDict value => for_each (set_sub_value param.1) (map_to_list value) model_dict
  | value => (<[param.1 := value]> model_dict, Ok tt)
  end.

(** [set_values(params, model_dict)]; [params] in the order of the
    dictionary. *)
Definition set_values (params : list (string * json))
    (model_dict : gmap string json) : gmap string json * result unit :=
  for_each set_value params model_dict.

(** ** [CallbackStopper] *)

Section Stopper.

(** A callback, and what its [should_stop_hyperopt()] answers. *)
Variable callback : Type.
Variable should_stop_hyperopt : callback -> bool.

(** [CallbackStopper.__init__]: [callbacks or []]. *)
Definition stopper_callbacks (callbacks : option (list callback)) : list callback :=
  match callbacks with
  | None | Some [] => []
  | Some l => l
  end.

(** [CallbackStopper.__call__(trial_id, result)]. *)
Definition stopper_call (trial_id : string) (result : gmap string json) : bool :=
  false.

(** [CallbackStopper.stop_all()]: the answer, and the callbacks it asked,
    in order. *)
Fixpoint stop_all (callbacks : list callback) : bool * list callback :=
  match callbacks with
  | [] => (false, [])
  | c :: rest =>
    if should_stop_hyperopt c then (true, [c])
    else let '(b, asked) := stop_all rest in (b, c :: asked)
  end.

End Stopper.

(** ** Partial checkpoints *)

Definition ends_with (suffix s : string) : bool :=
  String.prefix (String.rev suffix) (String.rev s).

(** The names the two [glob] patterns for the metadata file match:
    [*.tune_metadata], which skips the names that start with a dot, and
    [.tune_metadata] itself. *)
Definition is_metadata_name (name : string) : bool :=
  (ends_with ".tune_metadata" name && negb (startswith_dot name)) ||
  String.eqb name ".tune_metadata".

Definition lookup_entry (name : string) (es : list (string * node)) : option node :=
  snd <$> List.find (fun e => String.eqb e.1 name) es.

Definition remove_entry (name : string) (es : list (string * node))
  : list (string * node) :=
  List.filter (fun e => negb (String.eqb e.1 name)) es.

Definition has_marker (es : list (string * node)) : bool :=
  bool_decide (is_Some (lookup_entry ".is_checkpoint" es)).

Definition has_metadata (es : list (string * node)) : bool :=
  existsb (fun e => is_metadata_name e.1) es.

(** The body of the loop of [_remove_partial_checkpoints] for one entry of
    the trial directory: an entry [checkpoint_*] that holds a marker
    [.is_checkpoint] and no metadata file loses the marker; [os.remove]
    raises on a directory. *)
Definition prune_entry (e : string * node) : (string * node) * result unit :=
  match e with
  | (name, Dir es) =>
    if String.prefix "checkpoint_" name && has_marker es && negb (has_metadata es)
    then
      match lookup_entry ".is_checkpoint" es with
      | Some (Dir _) => (e, Raise (OSError "IsADirectoryError"))
      | _ => ((name, Dir (remove_entry ".is_checkpoint" es)), Ok tt)
      end
    else (e, Ok tt)
  | _ => (e, Ok tt)
  end.

Fixpoint prune_entries (es : list (string * node))
  : list (string * node) * result unit :=
  match es with
  | [] => ([], Ok tt)
  | e :: rest =>
    match prune_entry e with
    | (e', Ok _) => let '(rest', r) := prune_entries rest in (e' :: rest', r)
    | (e', Raise err) => (e' :: rest, Raise err)
    end
  end.

(** [_remove_partial_checkpoints(trial_path)]. *)
Definition _remove_partial_checkpoints (trial_path : string) (fs : filesystem)
  : filesystem * result unit :=
  match fs !! trial_path with
  | Some (Dir es) =>
    let '(es', r) := prune_entries es in (<[trial_path := Dir es']> fs, r)
  | _ => (fs, Ok tt)
  end.

(** ** Search algorithm and concurrency limit of [execute] *)

Inductive searcher :=
| BasicVariantGenerator (max_concurrent : Z)
| ConcurrencyLimiter (inner : searcher) (max_concurrent : Z)
| Searcher (type : string).

Definition TYPE := "type".

Section SearchAlgorithm.

(** [tune.create_searcher(search_alg_type, metric=..., mode=..., **dict)]. *)
Variable create_searcher : string -> string -> gmap string json -> result searcher.

(** [mode = "min" if self.goal != MAXIMIZE else "max"]. *)
Definition tune_mode (goal : string) : string :=
  if negb (String.eqb goal MAXIMIZE) then "min" else "max".

(** The choice of [search_alg] from [self.search_algorithm.search_alg_dict]. *)
Definition choose_search_alg (goal : string)
    (search_alg_dict : option (gmap string json))
  : result (option searcher * list event) :=
  match search_alg_dict with
  | Some d =>
    match d !! TYPE with
    | None =>
      Ok (None, [Warning
        "WARNING: search_alg type parameter missing, using 'variant_generator' as default."])
    | Some (JStr search_alg_type) =>
      let* s := create_searcher search_alg_type (tune_mode goal) d in
      Ok (Some s, [])
    | Some _ => Raise TypeError
    end
  | None => Ok (None, [])
  end.

End SearchAlgorithm.


(** ** The report callback of a trial *)

(** [progress_tracker]: the fields the callback reads and writes. *)
Record progress_tracker := {
  steps : Z;
  tune_checkpoint_num : Z;
}.

(** What the callback does to the outside: a pair put on the queue for the
    trial driver, a call of [checkpoint], a call of [report]. *)
Inductive trial_event :=
| QueuePut (tracker : progress_tracker) (save_path : string)
| CheckpointCall (tracker : progress_tracker) (save_path : string)
| ReportCall (tracker : progress_tracker).

Section ReportCallback.

Variable is_using_ray_backend : bool.

(** [_checkpoint_progress(trainer, progress_tracker, save_path)]. *)
Definition _checkpoint_progress (tracker : progress_tracker) (save_path : string)
  : list trial_event :=
  if is_using_ray_backend then [QueuePut tracker save_path]
  else [CheckpointCall tracker save_path].

(** [on_eval_end(trainer, progress_tracker, save_path)]: the tracker and
    [self.last_steps] as the call leaves them, and what it did. *)
Definition on_eval_end (tracker : progress_tracker) (last_steps : Z)
    (save_path : string) : progress_tracker * Z * list trial_event :=
  let tracker := {| steps := steps tracker;
                    tune_checkpoint_num := tune_checkpoint_num tracker + 1 |} in
  (tracker, steps tracker,
   _checkpoint_progress tracker save_path ++
   (if negb is_using_ray_backend then [ReportCall tracker] else [])).

(** [on_trainer_train_teardown(trainer, progress_tracker, save_path,
    is_coordinator)]. *)
Definition on_trainer_train_teardown (tracker : progress_tracker) (last_steps : Z)
    (save_path : string) (is_coordinator : bool)
  : progress_tracker * Z * list trial_event :=
  if is_coordinator && (last_steps <? steps tracker)%Z then
    (tracker, last_steps,
     _checkpoint_progress tracker save_path ++
     (if negb is_using_ray_backend then [ReportCall tracker] else []))
  else (tracker, last_steps, []).

End ReportCallback.

(** [check_queue()] of the trial driver on the pairs taken from the queue;
    [as_directory] is the directory a queued checkpoint is unpacked to. *)
Definition check_queue (as_directory : string -> string)
    (results : list (progress_tracker * string)) : list trial_event :=
  flat_map (fun item =>
              [CheckpointCall item.1 (as_directory item.2); ReportCall item.1])
           results.

(** ** Remote checkpoint directory *)

(** [_get_relative_checkpoints_dir_parts(path)]: [path.parts[-2:]]. *)
Definition _get_relative_checkpoints_dir_parts (parts : list string) : list string :=
  drop (length parts - 2) parts.

(** [path.endswith("/")]. *)
Fixpoint ends_with_slash (path : string) : bool :=
  match path with
  | EmptyString => false
  | String c EmptyString => Ascii.eqb c "/"%char
  | String _ rest => ends_with_slash rest
  end.

(** [os.path.join(a, *p)] on POSIX. *)
Definition path_join2 (path b : string) : string :=
  if String.prefix "/" b then b
  else if String.eqb path "" || ends_with_slash path then (path ++ b)%string
  else (path ++ "/" ++ b)%string.

Definition os_path_join_all (a : string) (p : list string) : string :=
  fold_left path_join2 p a.

(** Where checkpoints are synced to. *)
Inductive remote_dir :=
| CloudPath (path : string)
| KubernetesNode (node_name : string) (trial_dir : list string).

(** [_get_remote_checkpoint_dir(trial_dir)]: [sync_config] is [None] or holds
    its [upload_dir]; [node_by_ip] is
    [_get_kubernetes_node_address_by_ip()]. *)
Definition _get_remote_checkpoint_dir (sync_config : option (option string))
    (kubernetes_namespace : option string) (node_by_ip : string -> string)
    (head_node_ip : string) (trial_dir : list string)
  : option remote_dir * list event :=
  match sync_config with
  | None => (None, [])
  | Some (Some upload_dir) =>
    (Some (CloudPath (os_path_join_all upload_dir
                        (_get_relative_checkpoints_dir_parts trial_dir))), [])
  | Some None =>
    match kubernetes_namespace with
    | Some _ => (Some (KubernetesNode (node_by_ip head_node_ip) trial_dir), [])
    | None =>
      (None, [Warning
        "Checkpoint syncing disabled as syncing is only supported to remote cloud storage or on Kubernetes clusters is supported."])
    end
  end.

(** ** A JSON printer and parser

    [json.dumps] and [json.loads] are parameters of the codec; this pair
    instantiates them on documents without floats (whose text is fixed by
    Python's [repr]) and without quotes or backslashes inside strings.  The
    text follows Python's default separators. *)

Module MiniJson.

Local Open Scope string_scope.

Definition dquote : ascii := "034"%char.
Definition quoted (s : string) : string :=
  String dquote (s ++ String dquote EmptyString).

Definition join (sep : string) (l : list string) : string :=
  match l with
  | [] => EmptyString
  | x :: r => fold_left (fun acc y => acc ++ sep ++ y) r x
  end.

Fixpoint digits (fuel : nat) (n : N) (acc : string) : string :=
  match fuel with
  | O => acc
  | S fuel =>
    let acc := String (ascii_of_N (48 + n mod 10)) acc in
    if (n / 10 =? 0)%N then acc else digits fuel (n / 10)%N acc
  end.

Definition show_Z (z : Z) : string :=
  let n := Z.abs_N z in
  let d := digits (S (N.to_nat (N.log2 n))) n EmptyString in
  if (z <? 0)%Z then String "-"%char d else d.

Fixpoint dumps (v : json) : string :=
  match v with
  | JNull => "null"
  | JBool true => "true"
  | JBool false => "false"
  | JInt n => show_Z n
  | JFloat _ => "NaN"
  | JStr s => quoted s
  | JList l => "[" ++ join ", " (dumps <$> l) ++ "]"
  | JDict d =>
    "{" ++ join ", " ((fun kv : string * string => quoted kv.1 ++ ": " ++ kv.2)
                        <$> map_to_list (dumps <$> d)) ++ "}"
  end.

Fixpoint skip_ws (s : string) : string :=
  match s with
  | String c r => if Ascii.eqb c " "%char then skip_ws r else s
  | EmptyString => s
  end.

Definition is_digit (c : ascii) : bool :=
  (48 <=? N_of_ascii c)%N && (N_of_ascii c <=? 57)%N.

Fixpoint read_digits (s : string) (acc : N) : N * string :=
  match s with
  | String c r =>
    if is_digit c then read_digits r (10 * acc + (N_of_ascii c - 48))%N
    else (acc, s)
  | EmptyString => (acc, s)
  end.

(** The characters up to the closing quote. *)
Fixpoint read_string (s : string) : option (string * string) :=
  match s with
  | String c r =>
    if Ascii.eqb c dquote then Some (EmptyString, r)
    else match read_string r with
         | Some (body, rest) => Some (String c body, rest)
         | None => None
         end
  | EmptyString => None
  end.

Definition expect (word : string) (v : json) (s : string) : option (json * string) :=
  if String.prefix word s
  then Some (v, String.substring (String.length word)
                  (String.length s - String.length word) s)
  else None.

(** The elements of an array after its first bracket, and the members of
    an object after its first brace; [value] parses one document. *)
Fixpoint read_elements (value : string -> option (json * string))
    (fuel : nat) (s : string) : option (list json * string) :=
  match fuel with
  | O => None
  | S fuel =>
    match value s with
    | None => None
    | Some (v, r) =>
      match skip_ws r with
      | String c r' =>
        if Ascii.eqb c ","%char then
          match read_elements value fuel r' with
          | Some (vs, rest) => Some (v :: vs, rest)
          | None => None
          end
        else if Ascii.eqb c "]"%char then Some ([v], r')
        else None
      | EmptyString => None
      end
    end
  end.

Fixpoint read_members (value : string -> option (json * string))
    (fuel : nat) (s : string) : option (gmap string json * string) :=
  match fuel with
  | O => None
  | S fuel =>
    match skip_ws s with
    | String q r =>
      if Ascii.eqb q dquote then
        match read_string r with
        | None => None
        | Some (key, r) =>
          match skip_ws r with
          | String c r =>
            if Ascii.eqb c ":"%char then
              match value r with
              | None => None
              | Some (v, r) =>
                match skip_ws r with
                | String c r' =>
                  if Ascii.eqb c ","%char then
                    match read_members value fuel r' with
                    | Some (d, rest) => Some (<[key := v]> d, rest)
                    | None => None
                    end
                  else if Ascii.eqb c "}"%char then Some ({[key := v]}, r')
                  else None
                | EmptyString => None
                end
              end
            else None
          | EmptyString => None
          end
        end
      else None
    | EmptyString => None
    end
  end.

Fixpoint read_value (fuel : nat) (s : string) : option (json * string) :=
  match fuel with
  | O => None
  | S fuel =>
    match skip_ws s with
    | EmptyString => None
    | String c r as s =>
      if Ascii.eqb c "n"%char then expect "null" JNull s
      else if Ascii.eqb c "t"%char then expect "true" (JBool true) s
      else if Ascii.eqb c "f"%char then expect "false" (JBool false) s
      else if Ascii.eqb c dquote then
        match read_string r with
        | Some (body, rest) => Some (JStr body, rest)
        | None => None
        end
      else if Ascii.eqb c "-"%char then
        match r with
        | String d _ =>
          if is_digit d then
            let '(n, rest) := read_digits r 0%N in Some (JInt (- Z.of_N n), rest)
          else None
        | EmptyString => None
        end
      else if is_digit c then
        let '(n, rest) := read_digits s 0%N in Some (JInt (Z.of_N n), rest)
      else if Ascii.eqb c "["%char then
        match skip_ws r with
        | String c' r' =>
          if Ascii.eqb c' "]"%char then Some (JList [], r')
          else
            match read_elements (read_value fuel) (String.length r) r with
            | Some (vs, rest) => Some (JList vs, rest)
            | None => None
            end
        | EmptyString => None
        end
      else if Ascii.eqb c "{"%char then
        match skip_ws r with
        | String c' r' =>
          if Ascii.eqb c' "}"%char then Some (JDict ∅, r')
          else
            match read_members (read_value fuel) (String.length r) r with
            | Some (d, rest) => Some (JDict d, rest)
            | None => None
            end
        | EmptyString => None
        end
      else None
    end
  end.

Definition loads (s : string) : result json :=
  match read_value (S (String.length s)) s with
  | Some (v, rest) =>
    match skip_ws rest with
    | EmptyString => Ok v
    | _ => Raise (ValueError "JSONDecodeError")
    end
  | None => Raise (ValueError "JSONDecodeError")
  end.

End MiniJson.

(** * Properties *)

(** ** Dictionaries and the order on scores *)

Lemma contains_true {V} (d : gmap string V) k :
  contains d k = true <-> exists v, d !! k = Some v.
Proof.
  unfold contains. rewrite bool_decide_eq_true. reflexivity.
Qed.

Lemma contains_false {V} (d : gmap string V) k :
  contains d k = false <-> d !! k = None.
Proof.
  unfold contains. rewrite bool_decide_eq_false, eq_None_not_Some. reflexivity.
Qed.

Lemma Qltb_lt x y : Qltb x y = true <-> (x < y)%Q.
Proof.
  unfold Qltb. rewrite negb_true_iff. split.
  - intros H. apply Qnot_le_lt. intros Hle.
    apply Qle_bool_iff in Hle. congruence.
  - intros H. destruct (Qle_bool y x) eqn:E; [|reflexivity].
    apply Qle_bool_iff in E. exfalso. exact (Qlt_not_le _ _ H E).
Qed.

Lemma Qltb_ge x y : Qltb x y = false <-> (y <= x)%Q.
Proof.
  unfold Qltb. rewrite negb_false_iff. apply Qle_bool_iff.
Qed.

(** ** The order of floats *)

Ltac float_cases :=
  repeat match goal with
         | a : pyfloat |- _ => destruct a as [?|[|]|]
         end;
  cbn [float_ltb float_leb isnan negb andb orb];
  try congruence; try tauto.

Lemma float_ltb_not_nan a b :
  float_ltb a b = true -> isnan a = false /\ isnan b = false.
Proof. float_cases. Qed.

Lemma float_leb_refl a : isnan a = false -> float_leb a a = true.
Proof. float_cases. intros _. apply Qle_bool_iff, Qle_refl. Qed.

Lemma float_ltb_leb a b : float_ltb a b = true -> float_leb a b = true.
Proof.
  float_cases. rewrite Qltb_lt, Qle_bool_iff. apply Qlt_le_weak.
Qed.

(** Two floats that are not NaN compare one way or the other. *)
Lemma float_not_ltb a b :
  isnan a = false -> isnan b = false ->
  float_ltb a b = false -> float_leb b a = true.
Proof.
  float_cases. intros _ _. rewrite Qltb_ge, Qle_bool_iff. tauto.
Qed.

Lemma float_ltb_trans a b c :
  float_ltb a b = true -> float_ltb b c = true -> float_ltb a c = true.
Proof. float_cases. rewrite !Qltb_lt. apply Qlt_trans. Qed.

Lemma float_leb_ltb_trans a b c :
  float_leb a b = true -> float_ltb b c = true -> float_ltb a c = true.
Proof.
  float_cases. rewrite !Qltb_lt, Qle_bool_iff. apply Qle_lt_trans.
Qed.

Lemma float_ltb_leb_trans a b c :
  float_ltb a b = true -> float_leb b c = true -> float_ltb a c = true.
Proof.
  float_cases. rewrite !Qltb_lt, Qle_bool_iff. apply Qlt_le_trans.
Qed.

(** ** Python's [max] and [min] pick the first best item *)

Section FirstBest.

Context {A : Type} (key : A -> pyfloat).

(** [y] splits [l] as the first item with the largest key, among the items
    whose key is not NaN. *)
Definition first_max (l : list A) (y : A) : Prop :=
  exists pre post, l = pre ++ y :: post /\
    (forall x, x ∈ pre ->
       isnan (key x) = true \/ float_ltb (key x) (key y) = true) /\
    (forall x, x ∈ post ->
       isnan (key x) = true \/ float_leb (key x) (key y) = true).

Definition first_min (l : list A) (y : A) : Prop :=
  exists pre post, l = pre ++ y :: post /\
    (forall x, x ∈ pre ->
       isnan (key x) = true \/ float_ltb (key y) (key x) = true) /\
    (forall x, x ∈ post ->
       isnan (key x) = true \/ float_leb (key y) (key x) = true).

(** A first item whose key is NaN is never replaced. *)
Lemma max_from_nan best rest :
  isnan (key best) = true -> max_from key best rest = best.
Proof.
  intros Hnan. induction rest as [|x rest IH]; [reflexivity|].
  cbn [max_from]. destruct (key best); try discriminate. exact IH.
Qed.

Lemma min_from_nan best rest :
  isnan (key best) = true -> min_from key best rest = best.
Proof.
  intros Hnan. induction rest as [|x rest IH]; [reflexivity|].
  cbn [min_from].
  assert (E : float_ltb (key x) (key best) = false)
    by (destruct (key best); try discriminate; destruct (key x); reflexivity).
  rewrite E. exact IH.
Qed.

Lemma max_from_inv rest : forall best pre mid,
  isnan (key best) = false ->
  (forall x, x ∈ pre ->
     isnan (key x) = true \/ float_ltb (key x) (key best) = true) ->
  (forall x, x ∈ mid ->
     isnan (key x) = true \/ float_leb (key x) (key best) = true) ->
  isnan (key (max_from key best rest)) = false /\
  first_max (pre ++ best :: mid ++ rest) (max_from key best rest).
Proof.
  induction rest as [|x rest IH]; intros best pre mid Hbest Hpre Hmid; simpl.
  - split; [exact Hbest|]. exists pre, mid. rewrite app_nil_r. auto.
  - destruct (float_ltb (key best) (key x)) eqn:E.
    + replace (pre ++ best :: mid ++ x :: rest)
        with ((pre ++ best :: mid) ++ x :: [] ++ rest)
        by (rewrite <- app_assoc; reflexivity).
      apply IH.
      * apply (float_ltb_not_nan _ _ E).
      * intros z Hz. apply elem_of_app in Hz as [Hz|Hz].
        { destruct (Hpre _ Hz) as [Hn|Hlt]; [left; exact Hn|].
          right. eapply float_ltb_trans; eassumption. }
        apply elem_of_cons in Hz as [->|Hz]; [right; exact E|].
        destruct (Hmid _ Hz) as [Hn|Hle]; [left; exact Hn|].
        right. eapply float_leb_ltb_trans; eassumption.
      * intros z Hz. inversion Hz.
    + replace (pre ++ best :: mid ++ x :: rest)
        with (pre ++ best :: (mid ++ [x]) ++ rest)
        by (rewrite <- app_assoc; reflexivity).
      apply IH; [exact Hbest | exact Hpre|].
      intros z Hz. apply elem_of_app in Hz as [Hz|Hz]; [apply Hmid, Hz|].
      apply list_elem_of_singleton in Hz as ->.
      destruct (isnan (key x)) eqn:Hx; [left; reflexivity|].
      right. apply float_not_ltb; assumption.
Qed.

Lemma min_from_inv rest : forall best pre mid,
  isnan (key best) = false ->
  (forall x, x ∈ pre ->
     isnan (key x) = true \/ float_ltb (key best) (key x) = true) ->
  (forall x, x ∈ mid ->
     isnan (key x) = true \/ float_leb (key best) (key x) = true) ->
  isnan (key (min_from key best rest)) = false /\
  first_min (pre ++ best :: mid ++ rest) (min_from key best rest).
Proof.
  induction rest as [|x rest IH]; intros best pre mid Hbest Hpre Hmid; simpl.
  - split; [exact Hbest|]. exists pre, mid. rewrite app_nil_r. auto.
  - destruct (float_ltb (key x) (key best)) eqn:E.
    + replace (pre ++ best :: mid ++ x :: rest)
        with ((pre ++ best :: mid) ++ x :: [] ++ rest)
        by (rewrite <- app_assoc; reflexivity).
      apply IH.
      * apply (float_ltb_not_nan _ _ E).
      * intros z Hz. apply elem_of_app in Hz as [Hz|Hz].
        { destruct (Hpre _ Hz) as [Hn|Hlt]; [left; exact Hn|].
          right. eapply float_ltb_trans; eassumption. }
        apply elem_of_cons in Hz as [->|Hz]; [right; exact E|].
        destruct (Hmid _ Hz) as [Hn|Hle]; [left; exact Hn|].
        right. eapply float_ltb_leb_trans; eassumption.
      * intros z Hz. inversion Hz.
    + replace (pre ++ best :: mid ++ x :: rest)
        with (pre ++ best :: (mid ++ [x]) ++ rest)
        by (rewrite <- app_assoc; reflexivity).
      apply IH; [exact Hbest | exact Hpre|].
      intros z Hz. apply elem_of_app in Hz as [Hz|Hz]; [apply Hmid, Hz|].
      apply list_elem_of_singleton in Hz as ->.
      destruct (isnan (key x)) eqn:Hx; [left; reflexivity|].
      right. apply float_not_ltb; assumption.
Qed.

Lemma py_max_first b r :
  isnan (key b) = false ->
  isnan (key (max_from key b r)) = false /\
  first_max (b :: r) (max_from key b r).
Proof.
  intros Hb. apply (max_from_inv r b [] [] Hb); intros x Hx; inversion Hx.
Qed.

Lemma py_min_first b r :
  isnan (key b) = false ->
  isnan (key (min_from key b r)) = false /\
  first_min (b :: r) (min_from key b r).
Proof.
  intros Hb. apply (min_from_inv r b [] [] Hb); intros x Hx; inversion Hx.
Qed.

End FirstBest.

Lemma enumerate_from_lookup {A} (l : list A) : forall k j,
  enumerate_from k l !! j = (fun x => (k + j, x)%nat) <$> l !! j.
Proof.
  induction l as [|x l IH]; intros k j; simpl; [reflexivity|].
  destruct j as [|j]; simpl.
  - rewrite Nat.add_0_r. reflexivity.
  - rewrite IH. replace (S k + j)%nat with (k + S j)%nat by lia. reflexivity.
Qed.

Lemma enumerate_lookup {A} (l : list A) j :
  enumerate l !! j = (fun x => (j, x)) <$> l !! j.
Proof. unfold enumerate. rewrite enumerate_from_lookup. reflexivity. Qed.

Lemma enumerate_nil {A} (l : list A) : enumerate l = [] -> l = [].
Proof. destruct l; [reflexivity | discriminate]. Qed.

(** An item of [enumerate l] that splits it sits at its own index. *)
Lemma enumerate_split {A} (l : list A) pre i v post :
  enumerate l = pre ++ (i, v) :: post ->
  l !! i = Some v /\ length pre = i /\
  (forall j w, l !! j = Some w -> (j < i)%nat -> (j, w) ∈ pre) /\
  (forall j w, l !! j = Some w -> (i < j)%nat -> (j, w) ∈ post).
Proof.
  intros H.
  assert (Hat : enumerate l !! length pre = Some (i, v)).
  { rewrite H. rewrite lookup_app_r by lia. rewrite Nat.sub_diag. reflexivity. }
  rewrite enumerate_lookup in Hat.
  destruct (l !! length pre) as [x|] eqn:El; simpl in Hat; [|discriminate].
  injection Hat as Hi Hv. subst x.
  split; [rewrite <- Hi; exact El|]. split; [exact Hi|].
  split; intros j w Hj Hlt.
  - assert (Hj' : enumerate l !! j = Some (j, w))
      by (rewrite enumerate_lookup, Hj; reflexivity).
    rewrite H, lookup_app_l in Hj' by lia.
    apply list_elem_of_lookup. eauto.
  - assert (Hj' : enumerate l !! j = Some (j, w))
      by (rewrite enumerate_lookup, Hj; reflexivity).
    rewrite H, lookup_app_r in Hj' by lia.
    destruct (j - length pre)%nat as [|n] eqn:En; [lia|]. simpl in Hj'.
    apply list_elem_of_lookup. eauto.
Qed.

(** ** Metric extractor *)

Section MetricExtractorProofs.

Variable output_feature : string.
Variable metric : string.
Variable get_metric_objective : string -> objective.

(** The list of per-checkpoint values under a split, for the configured
    feature and metric, when every key on the way exists. *)
Definition split_values (stats : option train_stats_t) (split : string)
  : option (list pyfloat) :=
  ts ← stats; sp ← ts !! split; ft ← sp !! output_feature; ft !! metric.

(** A split is present: the three keys exist and the list is not empty. *)
Definition metric_present (stats : option train_stats_t) (split : string) : Prop :=
  exists l, split_values stats split = Some l /\ l <> [].

(** [v] is the value at index [i] that [max] (or [min]) picks from [l].
    When the first value is not NaN, it is the first index whose value is
    best in the direction of the objective among the values that are not
    NaN: none of them is larger (maximize) or smaller (minimize), and every
    earlier one is strictly worse.  When the first value is NaN, it is that
    first value. *)
Definition best_at (obj : objective) (l : list pyfloat) (i : nat) (v : pyfloat)
  : Prop :=
  l !! i = Some v /\
  match head l with
  | Some first =>
    if isnan first then i = 0%nat
    else
      isnan v = false /\
      forall j w, l !! j = Some w -> isnan w = false ->
        match obj with
        | Maximize =>
          float_leb w v = true /\ ((j < i)%nat -> float_ltb w v = true)
        | Minimize =>
          float_leb v w = true /\ ((j < i)%nat -> float_ltb v w = true)
        end
  | None => False
  end.

Lemma has_metric_present stats split :
  _has_metric output_feature metric stats split = true <->
  metric_present stats split.
Proof.
  unfold _has_metric, metric_present, split_values.
  destruct stats as [ts|]; simpl; [|split; [discriminate | intros (l & H & _); discriminate]].
  case_bool_decide as Hemp.
  - subst ts. rewrite lookup_empty. simpl.
    split; [discriminate | intros (l & H & _); discriminate].
  - destruct (ts !! split) as [sp|]; simpl;
      [|split; [discriminate | intros (l & H & _); discriminate]].
    destruct (sp !! output_feature) as [ft|]; simpl;
      [|split; [discriminate | intros (l & H & _); discriminate]].
    destruct (ft !! metric) as [l|]; simpl;
      [|split; [discriminate | intros (l & H & _); discriminate]].
    rewrite bool_decide_eq_true. split.
    + intros Hlen. exists l. split; [reflexivity|].
      intros ->. simpl in Hlen. lia.
    + intros (l' & [= <-] & Hne). destruct l; [congruence | simpl; lia].
Qed.

Lemma best_function_best_at (l : list pyfloat) :
  l <> [] ->
  exists i v,
    get_best_function get_metric_objective metric
      (fun pair : nat * pyfloat => snd pair) (enumerate l) = Ok (i, v) /\
    best_at (get_metric_objective metric) l i v.
Proof.
  intros Hne. destruct l as [|h r]; [congruence|]. clear Hne.
  unfold get_best_function, best_at. cbn [head].
  set (key := fun pair : nat * pyfloat => snd pair).
  change (enumerate (h :: r)) with ((0%nat, h) :: enumerate_from 1 r).
  destruct (isnan h) eqn:Hh.
  - exists 0%nat, h.
    destruct (get_metric_objective metric); cbn [py_max py_min].
    + rewrite max_from_nan by exact Hh. auto.
    + rewrite min_from_nan by exact Hh. auto.
  - destruct (get_metric_objective metric); cbn [py_max py_min].
    + destruct (py_max_first key (0%nat, h) (enumerate_from 1 r) Hh)
        as (Hv & pre & post & Hsplit & Hpre & Hpost).
      destruct (max_from key (0%nat, h) (enumerate_from 1 r)) as [i v].
      exists i, v. split; [reflexivity|].
      destruct (enumerate_split (h :: r) _ _ _ _ Hsplit) as (Hi & _ & Hlt & Hgt).
      split; [exact Hi|]. split; [exact Hv|]. intros j w Hj Hw.
      destruct (lt_eq_lt_dec j i) as [[Hji|Hji]|Hji].
      * destruct (Hpre _ (Hlt _ _ Hj Hji)) as [Hn|Hl];
          [cbn in Hn; congruence|]. cbn in Hl.
        split; [apply float_ltb_leb, Hl | intros _; exact Hl].
      * subst j. rewrite Hi in Hj. injection Hj as ->.
        split; [apply float_leb_refl, Hv | lia].
      * destruct (Hpost _ (Hgt _ _ Hj Hji)) as [Hn|Hl];
          [cbn in Hn; congruence|]. cbn in Hl.
        split; [exact Hl | lia].
    + destruct (py_min_first key (0%nat, h) (enumerate_from 1 r) Hh)
        as (Hv & pre & post & Hsplit & Hpre & Hpost).
      destruct (min_from key (0%nat, h) (enumerate_from 1 r)) as [i v].
      exists i, v. split; [reflexivity|].
      destruct (enumerate_split (h :: r) _ _ _ _ Hsplit) as (Hi & _ & Hlt & Hgt).
      split; [exact Hi|]. split; [exact Hv|]. intros j w Hj Hw.
      destruct (lt_eq_lt_dec j i) as [[Hji|Hji]|Hji].
      * destruct (Hpre _ (Hlt _ _ Hj Hji)) as [Hn|Hl];
          [cbn in Hn; congruence|]. cbn in Hl.
        split; [apply float_ltb_leb, Hl | intros _; exact Hl].
      * subst j. rewrite Hi in Hj. injection Hj as ->.
        split; [apply float_leb_refl, Hv | lia].
      * destruct (Hpost _ (Hgt _ _ Hj Hji)) as [Hn|Hl];
          [cbn in Hn; congruence|]. cbn in Hl.
        split; [exact Hl | lia].
Qed.

Lemma train_stats_score_best stats select_split l :
  split_values stats (or_default select_split VALIDATION) = Some l ->
  l <> [] ->
  exists i v,
    best_at (get_metric_objective metric) l i v /\
    get_metric_score_from_train_stats output_feature metric
      get_metric_objective stats select_split = Ok v.
Proof.
  unfold split_values, get_metric_score_from_train_stats, getitem.
  cbv zeta. intros Hl Hne.
  destruct stats as [ts|]; simpl in Hl; [|discriminate].
  destruct (ts !! or_default select_split VALIDATION) as [sp|] eqn:E1;
    simpl in Hl; [|discriminate].
  destruct (sp !! output_feature) as [ft|] eqn:E2; simpl in Hl; [|discriminate].
  simpl. rewrite E2. simpl. rewrite Hl. simpl.
  destruct (best_function_best_at l Hne) as (i & v & Hbest & Hat).
  exists i, v. split; [exact Hat|]. rewrite Hbest. reflexivity.
Qed.

(** C2: when the selected split holds a non-empty list of per-checkpoint
    values for the configured feature and metric,
    [get_metric_score_from_train_stats] returns the value at the index that
    the comparator of the metric picks, [max] where higher is better and
    [min] where lower is better: the first index whose value is best among
    the values that are not NaN (none is larger, or smaller, and every
    earlier one is strictly worse), or the first value when that is NaN,
    which [max] and [min] never replace.  The split read is the one
    selected; [None] and the empty string select the validation split. *)
Theorem get_metric_score_from_train_stats_best
    (train_stats : train_stats_t) (split : string) (l : list pyfloat) :
  split <> EmptyString ->
  split_values (Some train_stats) split = Some l ->
  l <> [] ->
  let from_split := get_metric_score_from_train_stats output_feature metric
                      get_metric_objective (Some train_stats) in
  exists i v,
    best_at (get_metric_objective metric) l i v /\
    from_split (Some split) = Ok v /\
    (split = VALIDATION ->
       from_split None = Ok v /\ from_split (Some EmptyString) = Ok v).
Proof.
  intros Hsplit Hl Hne from_split.
  assert (Hor : or_default (Some split) VALIDATION = split)
    by (destruct split; [congruence | reflexivity]).
  destruct (train_stats_score_best (Some train_stats) (Some split) l)
    as (i & v & Hat & Hs); [rewrite Hor; exact Hl | exact Hne|].
  exists i, v. split; [exact Hat|]. split; [exact Hs|].
  intros ->. split; exact Hs.
Qed.

(** C1: [get_metric_score] returns the score of the validation split when
    that split is present (the split, feature and metric keys exist and
    the list is not empty), otherwise the score of the training split
    under the same test, and raises a [RuntimeError] when neither is
    present. *)
Theorem get_metric_score_prefers_validation (train_stats : option train_stats_t) :
  let score := get_metric_score output_feature metric get_metric_objective in
  let from_split := get_metric_score_from_train_stats output_feature metric
                      get_metric_objective train_stats in
  (metric_present train_stats VALIDATION ->
     exists l i v, split_values train_stats VALIDATION = Some l /\
       best_at (get_metric_objective metric) l i v /\
       from_split (Some VALIDATION) = Ok v /\ score train_stats = Ok v) /\
  (~ metric_present train_stats VALIDATION ->
   metric_present train_stats TRAINING ->
     exists l i v, split_values train_stats TRAINING = Some l /\
       best_at (get_metric_objective metric) l i v /\
       from_split (Some TRAINING) = Ok v /\ score train_stats = Ok v) /\
  (~ metric_present train_stats VALIDATION ->
   ~ metric_present train_stats TRAINING ->
     score train_stats = Raise (RuntimeError
       "Unable to obtain metric score from missing training (validation) statistics")).
Proof.
  intros score from_split. unfold score, from_split, get_metric_score.
  split; [|split].
  - intros Hv. pose proof Hv as (l & Hl & Hne).
    apply has_metric_present in Hv. rewrite Hv.
    destruct (train_stats_score_best train_stats (Some VALIDATION) l Hl Hne)
      as (i & v & Hat & Hs).
    exists l, i, v. auto.
  - intros Hnv Ht. pose proof Ht as (l & Hl & Hne).
    apply has_metric_present in Ht. rewrite Ht.
    destruct (_has_metric output_feature metric train_stats VALIDATION) eqn:E;
      [apply has_metric_present in E; contradiction|].
    destruct (train_stats_score_best train_stats (Some TRAINING) l Hl Hne)
      as (i & v & Hat & Hs).
    exists l, i, v. auto.
  - intros Hnv Hnt.
    destruct (_has_metric output_feature metric train_stats VALIDATION) eqn:E;
      [apply has_metric_present in E; contradiction|].
    destruct (_has_metric output_feature metric train_stats TRAINING) eqn:E';
      [apply has_metric_present in E'; contradiction|].
    reflexivity.
Qed.

End MetricExtractorProofs.

(** ** Evaluation statistics *)

(** [path_resolves v parts t]: walking [parts] through nested mappings from
    [v] ends at [t]; every part is a key of the mapping reached so far. *)
Inductive path_resolves : json -> list string -> json -> Prop :=
| resolves_here v : path_resolves v [] v
| resolves_step d part v parts t :
    d !! part = Some v ->
    path_resolves v parts t ->
    path_resolves (JDict d) (part :: parts) t.

Section EvalStatsProofs.

Variable output_feature : string.
Variable metric : string.

Lemma walk_resolves parts : forall v t,
  path_resolves v parts t -> walk_metric_parts metric v parts = Ok t.
Proof.
  induction parts as [|part parts IH]; intros v t H; inversion H; subst; simpl.
  - reflexivity.
  - match goal with Hk : _ !! part = Some _ |- _ => rewrite Hk end.
    apply IH. assumption.
Qed.

Lemma walk_stuck parts : forall v,
  (forall t, ~ path_resolves v parts t) ->
  walk_metric_parts metric v parts = Raise (missing_metric metric).
Proof.
  induction parts as [|part parts IH]; intros v H; simpl.
  - exfalso. apply (H v). constructor.
  - destruct v as [| | | | | |d]; try reflexivity.
    destruct (d !! part) as [w|] eqn:E; [|reflexivity].
    apply IH. intros t Ht. apply (H t). econstructor; eassumption.
Qed.

Lemma has_parts_resolves parts : forall v t,
  has_metric_parts v parts = Some t <-> path_resolves v parts t.
Proof.
  induction parts as [|part parts IH]; intros v t; simpl.
  - split; [intros [= ->]; constructor | intros H; inversion H; reflexivity].
  - destruct v as [| | | | | |d];
      try (split; [discriminate | intros H; inversion H]).
    destruct (d !! part) as [w|] eqn:E.
    + rewrite IH. split; [intros H; econstructor; eassumption|].
      intros H. inversion H; subst. congruence.
    + split; [discriminate | intros H; inversion H; congruence].
Qed.

(** C9, amended: [get_metric_score_from_eval_stats] walks the metric name,
    split at dots, through nested mappings under the output feature and
    returns the value it ends at when that is a float; it raises when the
    output feature or a part of the path is absent or an intermediate
    value is not a mapping, and when the value it ends at is not a float,
    an int or a bool included. *)
Theorem get_metric_score_from_eval_stats_walks (eval_stats : gmap string json) :
  let score := get_metric_score_from_eval_stats output_feature metric eval_stats in
  let parts := split_on dot metric in
  (eval_stats !! output_feature = None ->
     score = Raise (KeyError output_feature)) /\
  (forall root, eval_stats !! output_feature = Some root ->
     (forall x, path_resolves root parts (JFloat x) -> score = Ok x) /\
     ((forall t, ~ path_resolves root parts t) ->
        score = Raise (missing_metric metric)) /\
     (forall t, path_resolves root parts t ->
        isinstance_float t = false ->
        score = Raise (not_numerical metric))).
Proof.
  intros score parts. unfold score, get_metric_score_from_eval_stats, getitem.
  split.
  - intros ->. reflexivity.
  - intros root ->. simpl. fold parts. split; [|split].
    + intros x H. rewrite (walk_resolves _ _ _ H). reflexivity.
    + intros H. rewrite (walk_stuck _ _ H). reflexivity.
    + intros t H Hnum. rewrite (walk_resolves _ _ _ H). simpl.
      destruct t; try reflexivity; discriminate.
Qed.

(** X1: [_has_eval_metric] answers true for evaluation statistics exactly
    when [get_metric_score_from_eval_stats] returns a score for them instead
    of raising. *)
Lemma has_eval_metric_iff_score (eval_stats : gmap string json) :
  _has_eval_metric output_feature metric (Some eval_stats) = true <->
  exists x, get_metric_score_from_eval_stats output_feature metric eval_stats = Ok x.
Proof.
  unfold _has_eval_metric, get_metric_score_from_eval_stats, getitem.
  destruct (eval_stats !! output_feature) as [root|]; simpl;
    [|split; [discriminate | intros [x Hx]; discriminate]].
  destruct (has_metric_parts root (split_on dot metric)) as [t|] eqn:E.
  - apply has_parts_resolves in E. rewrite (walk_resolves _ _ _ E). simpl.
    destruct t; simpl; split; try discriminate; eauto;
      intros [y Hy]; discriminate.
  - rewrite walk_stuck.
    + simpl. split; [discriminate | intros [x Hx]; discriminate].
    + intros t Ht. apply has_parts_resolves in Ht. congruence.
Qed.

End EvalStatsProofs.

(** ** Search-space codec *)

(** Whether [encode_values] serializes a list: its first entry is not an
    [int] or a [float]. *)
Definition head_non_numeric (L : list json) : bool :=
  match L with
  | first :: _ => negb (isinstance_int_or_float first)
  | [] => false
  end.

(** [x[0]] exists: a non-empty list or a non-empty string. *)
Definition subscriptable (x : json) : bool :=
  match x with
  | JList (_ :: _) | JStr (String _ _) => true
  | _ => false
  end.

Section CodecProofs.

Variable json_dumps : json -> string.
Variable json_loads : string -> result json.

Definition encoded_list (L : list json) : list json :=
  if head_non_numeric L then (fun v => JStr (json_dumps v)) <$> L else L.

Lemma decode_values_singleton ctx key value :
  decode_values json_loads {[key := value]} ctx =
    let* v := decode_value json_loads ctx key value in Ok {[key := v]}.
Proof.
  unfold decode_values. rewrite map_to_list_singleton. simpl.
  destruct (decode_value json_loads ctx key value); reflexivity.
Qed.

Lemma decode_items_identity ctx (l : list (string * json)) :
  (forall k v, (k, v) ∈ l -> ctx !! k = None) ->
  foldr (decode_item json_loads ctx) (Ok ∅) l = Ok (list_to_map l).
Proof.
  induction l as [|[k v] l IH]; intros H; simpl; [reflexivity|].
  rewrite IH by (intros k' v' Hin; apply (H k' v'); right; exact Hin).
  unfold decode_item, decode_value. simpl.
  rewrite (H k v) by left. reflexivity.
Qed.

(** Keys without a registered decode function pass through the
    identity. *)
Lemma decode_values_identity config ctx :
  (forall k, is_Some (config !! k) -> ctx !! k = None) ->
  decode_values json_loads config ctx = Ok config.
Proof.
  intros H. unfold decode_values. rewrite decode_items_identity.
  - rewrite list_to_map_to_list. reflexivity.
  - intros k v Hin. apply H. apply elem_of_map_to_list in Hin. eauto.
Qed.

(** What one turn of the loop leaves, when it returns: the other keys as
    they were, a registered decode function still registered, and a list
    under the key encoded when it starts with a non-numeric entry, which
    registers the decode function. *)
Lemma encode_key_ok param key values ctx values' ctx' :
  encode_key json_dumps param key (values, ctx) = Ok (values', ctx') ->
  (forall k, k <> key -> values' !! k = values !! k) /\
  (ctx !! param = Some json_loads_fn -> ctx' !! param = Some json_loads_fn) /\
  (forall L, values !! key = Some (JList L) ->
     values' !! key = Some (JList (encoded_list L)) /\
     (head_non_numeric L = true -> ctx' !! param = Some json_loads_fn)).
Proof.
  unfold encode_key. destruct (values !! key) as [x|] eqn:E.
  - destruct (getitem0 x) as [first|] eqn:E0; cbn [bind]; [|discriminate].
    destruct (isinstance_int_or_float first) eqn:En; cbn [negb].
    + intros H. injection H as <- <-.
      split; [reflexivity|]. split; [tauto|].
      intros L HL. injection HL as ->.
      destruct L as [|f L]; [discriminate|]. injection E0 as ->.
      unfold encoded_list, head_non_numeric. rewrite En. cbn [negb].
      split; [exact E | discriminate].
    + destruct (iter_items x) as [items|] eqn:Ei; cbn [bind]; [|discriminate].
      intros H. injection H as <- <-.
      split; [intros k Hk; apply lookup_insert_ne; congruence|].
      split; [intros _; apply lookup_insert_eq|].
      intros L HL. injection HL as ->.
      destruct L as [|f L]; [discriminate|]. injection E0 as ->.
      injection Ei as <-.
      unfold encoded_list, head_non_numeric. rewrite En. cbn [negb].
      split; [apply lookup_insert_eq | intros _; apply lookup_insert_eq].
  - intros H. injection H as <- <-.
    split; [reflexivity|]. split; [tauto|]. intros L HL. discriminate.
Qed.

(** A turn of the loop returns exactly when the key is absent or holds
    something whose first item exists. *)
Lemma encode_key_returns param key values ctx :
  (exists st, encode_key json_dumps param key (values, ctx) = Ok st) <->
  (forall x, values !! key = Some x -> subscriptable x = true).
Proof.
  unfold encode_key. destruct (values !! key) as [x|] eqn:E.
  - split.
    + intros [st H] y Hy. injection Hy as <-.
      destruct x as [| | | |[|c s]|[|v l]|d]; cbn in H; try discriminate;
        reflexivity.
    + intros H. specialize (H x eq_refl).
      destruct x as [| | | |[|c s]|[|v l]|d]; try discriminate; cbn.
      * eauto.
      * destruct (isinstance_int_or_float v); cbn; eauto.
  - split; [intros _ x Hx; discriminate | eauto].
Qed.

Lemma encode_values_returns param values ctx :
  (exists st, encode_values json_dumps param values ctx = Ok st) <->
  (forall key x, key ∈ ["values"; "categories"] -> values !! key = Some x ->
     subscriptable x = true).
Proof.
  unfold encode_values. split.
  - intros [st H].
    destruct (encode_key json_dumps param "values" (values, ctx))
      as [[values1 ctx1]|] eqn:E1; cbn [bind] in H; [|discriminate].
    destruct (encode_key_ok _ _ _ _ _ _ E1) as (Hframe & _).
    intros key x Hkey Hx.
    apply elem_of_cons in Hkey as [->|Hkey].
    + eapply (proj1 (encode_key_returns param "values" values ctx)); eauto.
    + apply list_elem_of_singleton in Hkey as ->.
      eapply (proj1 (encode_key_returns param "categories" values1 ctx1)); eauto.
      rewrite Hframe by discriminate. exact Hx.
  - intros Hall.
    destruct (proj2 (encode_key_returns param "values" values ctx))
      as [[values1 ctx1] E1].
    { intros x Hx. apply (Hall "values"); [left | exact Hx]. }
    rewrite E1. cbn [bind].
    destruct (encode_key_ok _ _ _ _ _ _ E1) as (Hframe & _).
    apply encode_key_returns. intros x Hx.
    rewrite Hframe in Hx by discriminate.
    apply (Hall "categories"); [right; left | exact Hx].
Qed.

(** C3, amended: [encode_values] returns exactly when each of "values"
    and "categories" that is present holds something with a first item (a
    non-empty list, or a non-empty string).  Whenever it returns, a value
    [v] of a "values" or "categories" list that [json.loads(json.dumps(v))]
    gives back is returned by [decode_values] from the entry at its
    position in the encoded list, under the context [encode_values]
    leaves, provided the list starts with an entry that is not an int or a
    float (the lists [encode_values] serializes) or no decode function is
    registered for the parameter; keys without a decode function pass
    through the identity. *)
Theorem decode_encode_round_trip param values ctx key L i v :
  key ∈ ["values"; "categories"] ->
  values !! key = Some (JList L) ->
  L !! i = Some v ->
  json_loads (json_dumps v) = Ok v ->
  ((exists st, encode_values json_dumps param values ctx = Ok st) <->
   (forall k x, k ∈ ["values"; "categories"] -> values !! k = Some x ->
      subscriptable x = true)) /\
  forall values' ctx',
    encode_values json_dumps param values ctx = Ok (values', ctx') ->
    exists L' e,
      values' !! key = Some (JList L') /\ L' !! i = Some e /\
      (head_non_numeric L = true \/ ctx' !! param = None ->
         decode_values json_loads {[param := e]} ctx' = Ok {[param := v]}) /\
      (forall config, (forall k, is_Some (config !! k) -> ctx' !! k = None) ->
         decode_values json_loads config ctx' = Ok config).
Proof.
  intros Hkey HL Hi Hrt. split; [apply encode_values_returns|].
  intros values' ctx' Henc.
  assert (Hlist : values' !! key = Some (JList (encoded_list L)) /\
                  (head_non_numeric L = true ->
                   ctx' !! param = Some json_loads_fn)).
  { unfold encode_values in Henc.
    destruct (encode_key json_dumps param "values" (values, ctx))
      as [[values1 ctx1]|] eqn:E1; cbn [bind] in Henc; [|discriminate].
    destruct (encode_key_ok _ _ _ _ _ _ E1) as (Hframe1 & _ & Hlist1).
    destruct (encode_key_ok _ _ _ _ _ _ Henc) as (Hframe2 & Hkeep2 & Hlist2).
    apply elem_of_cons in Hkey as [->|Hkey].
    - destruct (Hlist1 L HL) as (Hv1 & Hc1).
      split; [rewrite Hframe2 by discriminate; exact Hv1|].
      intros Hh. apply Hkeep2, Hc1, Hh.
    - apply list_elem_of_singleton in Hkey as ->.
      apply Hlist2. rewrite Hframe1 by discriminate. exact HL. }
  destruct Hlist as (HL' & Hctx).
  exists (encoded_list L).
  unfold encoded_list in *.
  destruct (head_non_numeric L) eqn:Hh.
  - exists (JStr (json_dumps v)).
    split; [exact HL'|].
    split; [rewrite list_lookup_fmap, Hi; reflexivity|].
    split; [|intros config; apply decode_values_identity].
    intros _. rewrite decode_values_singleton. unfold decode_value.
    rewrite (Hctx eq_refl). simpl. rewrite Hrt. reflexivity.
  - exists v.
    split; [exact HL'|]. split; [exact Hi|].
    split; [|intros config; apply decode_values_identity].
    intros [Hf|Hnone]; [discriminate|].
    rewrite decode_values_singleton. unfold decode_value.
    rewrite Hnone. reflexivity.
Qed.

End CodecProofs.

(** A parameter that carries both lists: "values" starts with a list and is
    serialized, which registers [json.loads] for the parameter; "categories"
    starts with an int and is left as it is.  The list [[2]] of "categories"
    then reaches [json.loads] unencoded, and decoding raises. *)
Definition both_lists : gmap string json :=
  {[ "space" := JStr "choice";
     "values" := JList [JList [JInt 3]];
     "categories" := JList [JInt 1; JList [JInt 2]] ]}.

Lemma decode_encode_both_lists_raises :
  exists values' ctx',
    both_lists !! "categories" = Some (JList [JInt 1; JList [JInt 2]]) /\
    MiniJson.loads (MiniJson.dumps (JList [JInt 2])) = Ok (JList [JInt 2]) /\
    encode_values MiniJson.dumps "x" both_lists ∅ = Ok (values', ctx') /\
    values' !! "categories" = Some (JList [JInt 1; JList [JInt 2]]) /\
    decode_values MiniJson.loads {[ "x" := JList [JInt 2] ]} ctx' = Raise TypeError.
Proof.
  eexists _, _.
  split; [vm_compute; reflexivity|].
  split; [vm_compute; reflexivity|].
  split; [vm_compute; reflexivity|].
  split; vm_compute; reflexivity.
Qed.

(** ** Result aggregator *)

Lemma score_leb_le asc a b : score_leb asc a b = true <-> score_le asc a b.
Proof.
  destruct a as [x|], b as [y|], asc; simpl;
    try (split; [intros _; exact I | reflexivity]);
    try (split; [discriminate | intros []]);
    apply Qle_bool_iff.
Qed.

Lemma score_le_total asc a b : score_leb asc a b = false -> score_le asc b a.
Proof.
  destruct a as [x|], b as [y|], asc; simpl; try discriminate; try (intros _; exact I);
    intros H; apply Qlt_le_weak, Qnot_le_lt; intros Hle;
    apply Qle_bool_iff in Hle; congruence.
Qed.

Lemma score_le_trans asc a b c :
  score_le asc a b -> score_le asc b c -> score_le asc a c.
Proof.
  destruct a as [x|], b as [y|], c as [z|], asc; simpl; try tauto;
    intros H1 H2; eapply Qle_trans; eassumption.
Qed.

Section SortBy.

Variable ascending : bool.
Variable goes_first : trial -> trial -> bool.
Hypothesis first_le : forall t h, goes_first t h = true -> by_score ascending t h.
Hypothesis later_le : forall t h, goes_first t h = false -> by_score ascending h t.

Lemma insert_by_perm t l : Permutation (t :: l) (insert_by goes_first t l).
Proof.
  induction l as [|h r IH]; simpl; [reflexivity|].
  destruct (goes_first t h); [reflexivity|].
  rewrite perm_swap. apply perm_skip, IH.
Qed.

Lemma insert_by_sorted t l :
  StronglySorted (by_score ascending) l ->
  StronglySorted (by_score ascending) (insert_by goes_first t l).
Proof.
  induction 1 as [|h r Hs IH Hall]; simpl.
  - constructor; constructor.
  - destruct (goes_first t h) eqn:E.
    + constructor; [constructor; assumption|].
      constructor; [apply first_le, E|].
      eapply Forall_impl; [exact Hall|].
      intros x Hx. eapply score_le_trans; [apply first_le, E | exact Hx].
    + constructor; [exact IH|].
      eapply Permutation_Forall; [apply insert_by_perm|].
      constructor; [apply later_le, E | exact Hall].
Qed.

Lemma sort_by_contract l :
  Permutation l (sort_by goes_first l) /\
  StronglySorted (by_score ascending) (sort_by goes_first l).
Proof.
  unfold sort_by. rewrite (Permutation_rev l) at 1.
  induction (rev l) as [|t r [IHp IHs]]; simpl.
  - split; constructor.
  - split; [rewrite IHp at 1; apply insert_by_perm | apply insert_by_sorted, IHs].
Qed.

End SortBy.

Lemma stable_sort_contract : sort_values_contract stable_sort.
Proof.
  intros ascending df. apply sort_by_contract.
  - intros t h H. apply negb_true_iff in H. apply score_le_total, H.
  - intros t h H. apply negb_false_iff in H. apply score_leb_le, H.
Qed.

(** A row as the trials of this module fill it: every report carries both
    statistics as JSON strings, and a trial that never reported leaves NaN
    under both columns. *)
Definition reported (row : trial) : Prop :=
  (exists ts es, training_stats row = CStr ts /\ eval_stats row = CStr es) \/
  (training_stats row = CFloat /\ eval_stats row = CFloat).

(** A statistics field is empty: the serialized empty mapping, or the empty
    dictionary of the NaN guard. *)
Definition stats_empty (c : cell) : Prop := c = CStr "{}" \/ c = CEmptyDict.

Lemma sorted_scores asc (l : list trial) :
  StronglySorted (by_score asc) l ->
  StronglySorted (score_le asc) (metric_score <$> l).
Proof.
  induction 1 as [|h r Hs IH Hall]; simpl; constructor; [exact IH|].
  apply Forall_fmap. exact Hall.
Qed.

Lemma nan_guard_scores (l : list trial) : metric_score <$> (nan_guard <$> l) = metric_score <$> l.
Proof. rewrite <- list_fmap_compose. reflexivity. Qed.


Section AggregatorProofs.

Variable goal : string.
Variable sort_values : bool -> list trial -> list trial.
Variable validation_set : option nat.
Variable _get_best_model_path : string -> option string.
Variable load_and_evaluate : string -> string -> eval_outcome.

Local Abbreviation backfill_trial' :=
  (backfill_trial validation_set _get_best_model_path load_and_evaluate).
Local Abbreviation backfill' :=
  (backfill validation_set _get_best_model_path load_and_evaluate).
Local Abbreviation aggregate' :=
  (aggregate goal sort_values validation_set _get_best_model_path
     load_and_evaluate).

Lemma backfill_trial_keeps t t' ev :
  backfill_trial' t = Ok (t', ev) ->
  metric_score t' = metric_score t /\ trial_id t' = trial_id t /\
  training_stats t' = training_stats t.
Proof.
  unfold backfill_trial, _evaluate_best_model.
  destruct (selected_for_backfill t); [|intros [= <- <-]; auto].
  destruct validation_set as [[|n]|]; try (intros [= <- <-]; auto).
  destruct (_get_best_model_path (trial_dir t)) as [p|];
    [|intros [= <- <-]; auto].
  destruct (load_and_evaluate (trial_dir t) p); simpl;
    try discriminate; intros [= <- <-]; auto.
Qed.

Lemma backfill_keeps ts : forall out ev,
  backfill' ts = Ok (out, ev) ->
  metric_score <$> out = metric_score <$> ts /\
  trial_id <$> out = trial_id <$> ts.
Proof.
  induction ts as [|t ts IH]; intros out ev; simpl.
  - intros [= <- <-]. auto.
  - destruct (backfill_trial' t) as [[t' e1]|] eqn:E1;
      simpl; [|discriminate].
    destruct (backfill' ts) as [[out' e2]|] eqn:E2;
      simpl; [|discriminate].
    intros [= <- <-]. cbn [fst snd]. rewrite !fmap_cons.
    destruct (backfill_trial_keeps _ _ _ E1) as (-> & -> & _).
    destruct (IH _ _ eq_refl) as (-> & ->). auto.
Qed.



End AggregatorProofs.

Section BackfillProofs.

Variable validation_set : option nat.
Variable _get_best_model_path : string -> option string.
Variable load_and_evaluate : string -> string -> eval_outcome.

Local Abbreviation backfill_trial' :=
  (backfill_trial validation_set _get_best_model_path load_and_evaluate).

(** A validation set was supplied and is not empty. *)
Definition validation_usable : Prop :=
  exists n, validation_set = Some (S n).

Lemma selected_iff t :
  selected_for_backfill t = true <->
  eval_stats t = CStr "{}" /\ training_stats t <> CStr "{}".
Proof.
  unfold selected_for_backfill.
  rewrite andb_true_iff, negb_true_iff, bool_decide_eq_true,
    bool_decide_eq_false. reflexivity.
Qed.

(** C5: a record of the table is selected for the evaluation backfill if
    and only if its eval_stats are empty and its training_stats are not;
    for a selected record the evaluation is attempted only when a
    validation set was supplied, is not empty and a best checkpoint path
    resolves, and otherwise one warning is logged and the record stays as
    it is; a record with both fields empty or both non-empty is never
    backfilled. *)
Theorem backfill_selection (row : trial) :
  reported row ->
  let t := nan_guard row in
  (selected_for_backfill t = true <->
     stats_empty (eval_stats t) /\ ~ stats_empty (training_stats t)) /\
  (selected_for_backfill t = true ->
     (forall best_model_path,
        validation_usable ->
        _get_best_model_path (trial_dir t) = Some best_model_path ->
        backfill_trial' t =
          (let* r := _evaluate_best_model load_and_evaluate t (trial_dir t)
                       best_model_path in
           Ok (fst r, EvaluateBestModel (trial_dir t) best_model_path :: snd r))) /\
     (~ (validation_usable /\ is_Some (_get_best_model_path (trial_dir t))) ->
        exists msg, backfill_trial' t = Ok (t, [Warning msg]) /\
                    eval_stats t = CStr "{}")) /\
  (forall t' ev trial_path best_model_path,
     backfill_trial' t = Ok (t', ev) ->
     EvaluateBestModel trial_path best_model_path ∈ ev ->
     selected_for_backfill t = true /\ validation_usable /\
     _get_best_model_path (trial_dir t) = Some best_model_path) /\
  (stats_empty (eval_stats t) /\ stats_empty (training_stats t) \/
   ~ stats_empty (eval_stats t) /\ ~ stats_empty (training_stats t) ->
     selected_for_backfill t = false /\ backfill_trial' t = Ok (t, [])).
Proof.
  intros Hrep t.
  assert (Hiff : selected_for_backfill t = true <->
            stats_empty (eval_stats t) /\ ~ stats_empty (training_stats t)).
  { rewrite selected_iff. unfold stats_empty, t.
    destruct Hrep as [(ts & es & Hts & Hes)|(Hts & Hes)]; simpl;
      rewrite Hts, Hes; simpl.
    - split.
      + intros (He & Ht). split; [left; exact He|].
        intros [H|H]; [contradiction | discriminate].
      + intros ([He|He] & Ht); [|discriminate].
        split; [exact He | intros H; apply Ht; left; exact H].
    - split.
      + intros (He & _). discriminate.
      + intros (_ & Ht). exfalso. apply Ht. right. reflexivity. }
  split; [exact Hiff|].
  split; [|split].
  - intros Hsel. split.
    + intros p (n & Hv) Hp. unfold backfill_trial.
      rewrite Hsel, Hv, Hp. reflexivity.
    + intros Hnot. unfold backfill_trial. rewrite Hsel.
      assert (He : eval_stats t = CStr "{}") by (apply selected_iff, Hsel).
      destruct validation_set as [[|n]|] eqn:Ev; [eauto| |eauto].
      destruct (_get_best_model_path (trial_dir t)) as [p|] eqn:Ep; [|eauto].
      exfalso. apply Hnot. split; [exists n; exact Ev | eauto].
  - intros t' ev tp p Hb Hin. unfold backfill_trial in Hb.
    destruct (selected_for_backfill t) eqn:Hsel;
      [|injection Hb as <- <-; inversion Hin].
    destruct validation_set as [[|n]|] eqn:Ev;
      try (injection Hb as <- <-; apply elem_of_cons in Hin as [Hin|Hin];
           [discriminate | inversion Hin]).
    destruct (_get_best_model_path (trial_dir t)) as [q|] eqn:Ep;
      [|injection Hb as <- <-; apply elem_of_cons in Hin as [Hin|Hin];
        [discriminate | inversion Hin]].
    unfold _evaluate_best_model in Hb.
    destruct (load_and_evaluate (trial_dir t) q); simpl in Hb;
      [| |discriminate]; injection Hb as <- <-;
      apply elem_of_cons in Hin as [Hin|Hin].
    + injection Hin as -> ->. split; [reflexivity|].
      split; [exists n; exact Ev | reflexivity].
    + inversion Hin.
    + injection Hin as -> ->. split; [reflexivity|].
      split; [exists n; exact Ev | reflexivity].
    + apply elem_of_cons in Hin as [Hin|Hin]; [discriminate | inversion Hin].
  - intros Hboth.
    assert (Hsel : selected_for_backfill t = false).
    { apply not_true_is_false. intros E.
      apply Hiff in E. destruct E as (He & Ht).
      destruct Hboth as [(_ & Ht')|(He' & _)]; contradiction. }
    split; [exact Hsel|]. unfold backfill_trial. rewrite Hsel. reflexivity.
Qed.

End BackfillProofs.

(** ** File system *)


Lemma ignored_dot (names : list string) name :
  name ∈ names ->
  bool_decide (name ∈ ignore_dot_files names) = startswith_dot name.
Proof.
  intros Hin. unfold ignore_dot_files.
  destruct (startswith_dot name) eqn:E.
  - apply bool_decide_eq_true. apply list_elem_of_filter. auto.
  - apply bool_decide_eq_false. intros H. apply list_elem_of_filter in H as [H _].
    congruence.
Qed.

Lemma copy_entries_dot (copy : node -> node) names es :
  (forall e, e ∈ es -> e.1 ∈ names) ->
  copy_entries copy (ignore_dot_files names) es =
    (fun e => (e.1, copy e.2)) <$>
      List.filter (fun e => negb (startswith_dot e.1)) es.
Proof.
  induction es as [|[name child] es IH]; intros Hin; simpl; [reflexivity|].
  rewrite (ignored_dot names name) by (apply (Hin (name, child)); left).
  rewrite IH by (intros e He; apply Hin; right; exact He).
  destruct (startswith_dot name); reflexivity.
Qed.

Lemma copytree_dir es :
  copytree_node ignore_dot_files (Dir es) =
    Dir ((fun e => (e.1, copytree_node ignore_dot_files e.2)) <$>
           List.filter (fun e => negb (startswith_dot e.1)) es).
Proof.
  simpl. f_equal. apply copy_entries_dot.
  intros e He. apply list_elem_of_fmap. exists e. auto.
Qed.



Lemma append_longer (s t : string) : t <> EmptyString -> (s ++ t)%string <> s.
Proof.
  intros Ht. induction s as [|c s IH]; simpl; [exact Ht|].
  intros [= H]. exact (IH H).
Qed.

Ltac map_lookups :=
  repeat (rewrite ?lookup_insert, ?lookup_delete;
          repeat case_decide; subst; try congruence; try reflexivity).

Ltac map_equal :=
  let k := fresh "k" in
  apply map_eq; intros k; map_lookups.

(** ** Checkpoint staging *)




(** ** Resuming a trial *)

Lemma rollback_restores e partial src save_path tmp_path old (fs : filesystem) :
  save_path <> tmp_path ->
  rollback e save_path tmp_path
    (safe_move_file (MoveFailed e partial) src save_path
       (<[tmp_path := old]> (delete save_path fs))).1
  = (<[save_path := old]> (delete tmp_path (delete save_path fs)), Raise e).
Proof.
  intros Hne.
  unfold safe_move_file, rollback, os_path_exists, shutil_rmtree, os_rename.
  destruct partial as [part|]; cbn [fst].
  - rewrite bool_decide_eq_true_2 by (rewrite lookup_insert_eq; eauto).
    rewrite lookup_insert_eq.
    rewrite bool_decide_eq_true_2
      by (rewrite lookup_delete_ne, lookup_insert_ne, lookup_insert_eq
            by congruence; eauto).
    rewrite lookup_delete_ne, lookup_insert_ne, lookup_insert_eq by congruence.
    rewrite lookup_delete_eq.
    assert (Hfs : <[save_path := old]>
              (delete tmp_path
                 (delete save_path
                    (<[save_path := Dir part]>
                       (<[tmp_path := old]> (delete save_path fs)))))
              = <[save_path := old]> (delete tmp_path (delete save_path fs)))
      by (map_equal).
    rewrite Hfs. destruct old; reflexivity.
  - rewrite bool_decide_eq_false_2
      by (rewrite lookup_insert_ne, lookup_delete_eq by congruence;
          intros [? ?]; discriminate).
    rewrite bool_decide_eq_true_2 by (rewrite lookup_insert_eq; eauto).
    rewrite lookup_insert_eq.
    rewrite lookup_insert_ne, lookup_delete_eq by congruence.
    assert (Hfs : <[save_path := old]>
              (delete tmp_path (<[tmp_path := old]> (delete save_path fs)))
              = <[save_path := old]> (delete tmp_path (delete save_path fs)))
      by (map_equal).
    rewrite Hfs. destruct old; reflexivity.
Qed.

(** C7: when a trial resumes, a failed move of the checkpoint into the save
    path is rolled back: what the move left at the save path is removed,
    the previous content, set aside under the temporary name, is back
    where it was, and an error is raised, the one of the move (with no stale
    backup around, the file system then equals the one before the call);
    after a successful move the save path holds the checkpoint and the
    backup is gone. *)
Theorem resume_move_rolls_back ckpt_path how save_path (fs : filesystem) :
  let tmp_path := (save_path ++ ".tmp")%string in
  let src := os_path_join ckpt_path "model" in
  let r := on_trainer_train_setup true 0 ckpt_path how save_path fs in
  (forall e partial old,
     how = MoveFailed e partial -> fs !! save_path = Some old ->
     r.1 !! save_path = Some old /\ exists e', r.2 = Raise e') /\
  (fs !! tmp_path = None ->
     (forall e partial, how = MoveFailed e partial -> r = (fs, Raise e)) /\
     (forall model,
        how = Moved -> fs !! src = Some model ->
        src <> save_path -> src <> tmp_path ->
        (fs !! save_path = None \/ exists es, fs !! save_path = Some (Dir es)) ->
        r = (<[save_path := model]> (delete src fs), Ok tt) /\
        r.1 !! save_path = Some model /\ r.1 !! tmp_path = None)).
Proof.
  intros tmp_path src r.
  assert (Hne : save_path <> tmp_path).
  { intros H. symmetry in H. revert H. apply append_longer. discriminate. }
  assert (Hr : r =
    let '(fs1, r1) :=
      if os_path_exists fs save_path then os_rename None save_path tmp_path fs
      else (fs, Ok tt) in
    match r1 with
    | Raise e => (fs1, Raise e)
    | Ok _ =>
      match safe_move_file how src save_path fs1 with
      | (fs2, Raise e) => rollback e save_path tmp_path fs2
      | (fs2, Ok _) =>
        if os_path_exists fs2 tmp_path then shutil_rmtree tmp_path fs2
        else (fs2, Ok tt)
      end
    end) by reflexivity.
  clearbody r tmp_path src.
  assert (Hbacked : forall e partial old,
    (let '(fs2, r2) := safe_move_file (MoveFailed e partial) src save_path
                         (<[tmp_path := old]> (delete save_path fs)) in
     match r2 with
     | Raise e => rollback e save_path tmp_path fs2
     | Ok _ => if os_path_exists fs2 tmp_path then shutil_rmtree tmp_path fs2
               else (fs2, Ok tt)
     end)
    = (<[save_path := old]> (delete tmp_path (delete save_path fs)), Raise e)).
  { intros e partial old.
    pose proof (rollback_restores e partial src save_path tmp_path old fs Hne)
      as Hroll.
    unfold safe_move_file in *. destruct partial; exact Hroll. }
  split.
  - intros e partial old -> Hsave.
    assert (Hcases :
      r = (<[save_path := old]> (delete tmp_path (delete save_path fs)), Raise e)
      \/ exists e', r = (fs, Raise e')).
    { unfold os_path_exists in Hr at 1.
      rewrite bool_decide_eq_true_2 in Hr by eauto.
      unfold os_rename in Hr. rewrite Hsave in Hr.
      specialize (Hbacked e partial old).
      destruct old as [c|es], (fs !! tmp_path) as [[c'|[|entry es']]|];
        cbv beta iota zeta in Hr;
        first [ left; rewrite Hr; exact Hbacked | right; eexists; exact Hr ]. }
    destruct Hcases as [->|[e' ->]]; cbn [fst snd].
    + split; [apply lookup_insert_eq | eauto].
    + split; [exact Hsave | eauto].
  - intros Htmp. split.
    + intros e partial ->. subst r.
      unfold os_path_exists at 1. unfold os_rename. rewrite Htmp.
      destruct (fs !! save_path) as [old|] eqn:Esave.
      * rewrite bool_decide_eq_true_2 by eauto.
        assert (Hfs : <[save_path := old]> (delete tmp_path (delete save_path fs))
                      = fs) by (map_equal).
        specialize (Hbacked e partial old). rewrite Hfs in Hbacked.
        destruct old;
          destruct (safe_move_file (MoveFailed e partial) src save_path
                      (<[tmp_path := _]> (delete save_path fs)))
            as [fs2 [[]|e0]]; exact Hbacked.
      * rewrite bool_decide_eq_false_2 by (intros [? ?]; discriminate).
        unfold safe_move_file, rollback, os_path_exists, shutil_rmtree, os_rename.
        destruct partial as [part|].
        -- rewrite bool_decide_eq_true_2 by (rewrite lookup_insert_eq; eauto).
           rewrite lookup_insert_eq.
           rewrite bool_decide_eq_false_2
             by (rewrite lookup_delete_ne, lookup_insert_ne, Htmp by congruence;
                 intros [? ?]; discriminate).
           assert (Hfs : delete save_path (<[save_path := Dir part]> fs) = fs)
             by (map_equal).
           rewrite Hfs. reflexivity.
        -- rewrite bool_decide_eq_false_2
             by (rewrite Esave; intros [? ?]; discriminate).
           rewrite bool_decide_eq_false_2
             by (rewrite Htmp; intros [? ?]; discriminate).
           reflexivity.
    + intros model -> Hsrc Hss Hst Hprev.
      assert (Hfinal : r = (<[save_path := model]> (delete src fs), Ok tt)).
      { subst r. unfold os_rename. rewrite Htmp.
        unfold safe_move_file, os_path_exists, shutil_rmtree.
        destruct Hprev as [Esave|[es Esave]]; rewrite Esave.
        - rewrite bool_decide_eq_false_2 by (intros [? ?]; discriminate).
          rewrite Hsrc.
          rewrite bool_decide_eq_false_2
            by (rewrite lookup_insert_ne, lookup_delete_ne, Htmp by congruence;
                intros [? ?]; discriminate).
          reflexivity.
        - rewrite bool_decide_eq_true_2 by eauto.
          rewrite lookup_insert_ne, lookup_delete_ne, Hsrc by congruence.
          rewrite bool_decide_eq_true_2
            by (rewrite lookup_insert_ne, lookup_delete_ne, lookup_insert_eq
                  by congruence; eauto).
          rewrite lookup_insert_ne, lookup_delete_ne, lookup_insert_eq
            by congruence.
          f_equal. map_equal. }
      split; [exact Hfinal|]. rewrite Hfinal. simpl.
      split; [apply lookup_insert_eq|].
      rewrite lookup_insert_ne, lookup_delete_ne by congruence. exact Htmp.
Qed.

(** ** Trial runner *)

Section TrialRunnerProofs.

Variable json_loads : string -> result json.
Variable substitute_parameters : json -> gmap string json -> json.
Variable model_config_to_dict : json -> result json.

(** Whatever the trial sampled, the document written to
    [trial_hyperparameters.json] is [hyperopt_dict["config"]] as the call
    received it. *)
Lemma trial_hyperparameters_is_base_config
    config sampled hyperopt_dict decode_ctx trial_dir files base_config :
  decode_values json_loads config decode_ctx = Ok sampled ->
  hyperopt_dict !! "config" = Some base_config ->
  (_run_experiment_setup json_loads substitute_parameters model_config_to_dict
     config hyperopt_dict decode_ctx trial_dir files).1
    !! os_path_join trial_dir "trial_hyperparameters.json" = Some base_config.
Proof.
  intros Hdec Hbase. unfold _run_experiment_setup, getitem.
  rewrite Hdec, Hbase.
  destruct (model_config_to_dict _); simpl; apply lookup_insert_eq.
Qed.

End TrialRunnerProofs.

(** A base configuration and a sample of one hyperparameter. *)
Definition example_base_config : json :=
  JDict {[ "trainer" := JDict {[ "learning_rate" := JFloat (Finite 0.001) ]} ]}.

Definition example_sample : gmap string json :=
  {[ "trainer.learning_rate" := JFloat (Finite 0.1) ]}.

Definition example_hyperopt_dict : gmap string json :=
  {[ "config" := example_base_config; "experiment_name" := JStr "hyperopt" ]}.

(** C8, on the code: for the sample [trainer.learning_rate = 0.1] the file
    [trial_hyperparameters.json] holds the base configuration, with the
    learning rate 0.001 of the base, and not the sampled values. *)
Theorem trial_hyperparameters_misses_sample
    (substitute_parameters : json -> gmap string json -> json)
    (model_config_to_dict : json -> result json) :
  let files :=
    (_run_experiment_setup MiniJson.loads substitute_parameters
       model_config_to_dict example_sample example_hyperopt_dict ∅
       "/results/trial_0" ∅).1 in
  files !! "/results/trial_0/trial_hyperparameters.json"
    = Some example_base_config /\
  example_base_config <> JDict example_sample.
Proof.
  split.
  - apply (trial_hyperparameters_is_base_config MiniJson.loads
             substitute_parameters model_config_to_dict
             example_sample example_sample example_hyperopt_dict ∅
             "/results/trial_0" ∅ example_base_config).
    + apply decode_values_identity. intros k _. apply lookup_empty.
    + reflexivity.
  - intros H.
    apply (f_equal (fun v => match v with
                             | JDict d => d !! "trainer"
                             | _ => None
                             end)) in H.
    vm_compute in H. discriminate.
Qed.

(** ** The executor instance *)

Section ExecutorProofs.

Variable json_dumps : json -> string.
Variable ray_is_none : bool.
Variable tune_search_space : string -> gmap string json -> result string.
Variable get_search_algorithm : pyobj -> pyobj.
Variable create_scheduler : pyobj -> result pyobj.
Variable get_node_ip_address : string.
Variable foreign_getattr : pyobj -> string -> result pyobj.

Local Abbreviation instance :=
  (executor_instance json_dumps ray_is_none tune_search_space
     get_search_algorithm create_scheduler get_node_ip_address).

Lemma init_no_hyperopt_sampler a self :
  __init__ json_dumps ray_is_none tune_search_space get_search_algorithm
    create_scheduler get_node_ip_address a = Ok self ->
  self !! "hyperopt_sampler" = None.
Proof.
  unfold __init__. destruct ray_is_none; [discriminate|].
  destruct (_get_search_space _ _ _) as [space|]; simpl; [|discriminate].
  destruct (match arg_scheduler a with PyNone => _ | _ => _ end)
    as [scheduler|]; simpl; [|discriminate].
  intros [= <-].
  repeat (rewrite lookup_insert_ne by discriminate).
  apply lookup_empty.
Qed.

Lemma instance_no_hyperopt_sampler self :
  instance self -> self !! "hyperopt_sampler" = None.
Proof.
  induction 1 as [a self Hinit|self client config _ IH].
  - eapply init_no_hyperopt_sampler, Hinit.
  - unfold execute_set_sync.
    repeat (rewrite lookup_insert_ne by discriminate). exact IH.
Qed.

(** C10: on every instance that [__init__] builds, also after [execute]
    has set its sync attributes, [sort_hyperopt_results] raises
    [AttributeError] for [hyperopt_sampler], whatever the list of results:
    no assignment ever creates the attribute and the class does not
    define it, so no sorted list is returned. *)
Theorem sort_hyperopt_results_raises self (hyperopt_results : list trial) :
  instance self ->
  sort_hyperopt_results foreign_getattr self hyperopt_results =
    Raise (AttributeError "hyperopt_sampler").
Proof.
  intros Hself. unfold sort_hyperopt_results, py_getattr.
  rewrite (instance_no_hyperopt_sampler self Hself). reflexivity.
Qed.

End ExecutorProofs.

(** * The theorems at concrete inputs *)

(** Three checkpoints: the best validation accuracy is the second one. *)
Definition example_train_stats : train_stats_t :=
  {[ "validation" :=
       {[ "out" := {[ "accuracy" := [Finite 0.5; Finite 0.9; Finite 0.7] ]} ]};
     "training" :=
       {[ "out" := {[ "accuracy" := [Finite 0.6; Finite 0.8; Finite 0.99] ]} ]} ]}.

Definition higher_is_better (m : string) : objective := Maximize.

Example best_is_not_last :
  get_metric_score "out" "accuracy" higher_is_better (Some example_train_stats)
    = Ok (Finite 0.9) /\
  last [Finite 0.5; Finite 0.9; Finite 0.7] = Some (Finite 0.7).
Proof. split; vm_compute; reflexivity. Qed.

Example loss_takes_the_minimum :
  get_metric_score_from_train_stats "out" "accuracy" (fun _ => Minimize)
    (Some example_train_stats) (Some TRAINING) = Ok (Finite 0.6).
Proof. vm_compute. reflexivity. Qed.

(** [max] and [min] skip a NaN they meet after the first value, and keep a
    NaN that comes first. *)
Example nan_is_skipped_unless_first :
  (forall objective,
     get_metric_score_from_train_stats "out" "accuracy" (fun _ => objective)
       (Some {[ "validation" :=
                  {[ "out" := {[ "accuracy" := [NaN; Finite 0.5; Finite 0.9] ]} ]} ]})
       None = Ok NaN) /\
  get_metric_score_from_train_stats "out" "accuracy" higher_is_better
    (Some {[ "validation" :=
               {[ "out" := {[ "accuracy" := [Finite 0.5; NaN; Finite 0.9] ]} ]} ]})
    None = Ok (Finite 0.9).
Proof. split; [intros []|]; vm_compute; reflexivity. Qed.

Lemma get_metric_score_prefers_validation_witness :
  metric_present "out" "accuracy" (Some example_train_stats) VALIDATION /\
  exists l i v,
    split_values "out" "accuracy" (Some example_train_stats) VALIDATION = Some l /\
    best_at Maximize l i v /\
    get_metric_score_from_train_stats "out" "accuracy" higher_is_better
      (Some example_train_stats) (Some VALIDATION) = Ok v /\
    get_metric_score "out" "accuracy" higher_is_better (Some example_train_stats)
      = Ok v.
Proof.
  assert (H : metric_present "out" "accuracy" (Some example_train_stats) VALIDATION).
  { exists [Finite 0.5; Finite 0.9; Finite 0.7].
    split; [vm_compute; reflexivity | discriminate]. }
  split; [exact H|].
  exact (proj1 (get_metric_score_prefers_validation "out" "accuracy"
                  higher_is_better (Some example_train_stats)) H).
Defined.

Lemma get_metric_score_from_train_stats_best_witness :
  TRAINING <> EmptyString /\
  split_values "out" "accuracy" (Some example_train_stats) TRAINING
    = Some [Finite 0.6; Finite 0.8; Finite 0.99] /\
  [Finite 0.6; Finite 0.8; Finite 0.99] <> [] /\
  exists i v,
    best_at Maximize [Finite 0.6; Finite 0.8; Finite 0.99] i v /\
    get_metric_score_from_train_stats "out" "accuracy" higher_is_better
      (Some example_train_stats) (Some TRAINING) = Ok v.
Proof.
  assert (H0 : TRAINING <> EmptyString) by (unfold TRAINING; discriminate).
  assert (H : split_values "out" "accuracy" (Some example_train_stats) TRAINING
              = Some [Finite 0.6; Finite 0.8; Finite 0.99])
    by (vm_compute; reflexivity).
  assert (Hne : [Finite 0.6; Finite 0.8; Finite 0.99] <> []) by discriminate.
  split; [exact H0|]. split; [exact H|]. split; [exact Hne|].
  destruct (get_metric_score_from_train_stats_best "out" "accuracy"
              higher_is_better example_train_stats TRAINING _ H0 H Hne)
    as (i & v & Hat & Hs & _).
  exists i, v. split; [exact Hat | exact Hs].
Defined.

(** Evaluation statistics with a nested metric. *)
Definition example_eval_stats : gmap string json :=
  {[ "out" := JDict {[ "overall_stats" :=
                         JDict {[ "token_accuracy" := JFloat (Finite 0.75);
                                  "support" := JInt 12 ]} ]} ]}.

Example eval_stats_nested_metric :
  get_metric_score_from_eval_stats "out" "overall_stats.token_accuracy"
    example_eval_stats = Ok (Finite 0.75) /\
  get_metric_score_from_eval_stats "out" "overall_stats.support"
    example_eval_stats = Raise (not_numerical "overall_stats.support") /\
  get_metric_score_from_eval_stats "out" "overall_stats.loss"
    example_eval_stats = Raise (missing_metric "overall_stats.loss").
Proof. repeat split; vm_compute; reflexivity. Qed.

Lemma get_metric_score_from_eval_stats_walks_witness :
  path_resolves
    (JDict {[ "overall_stats" :=
                JDict {[ "token_accuracy" := JFloat (Finite 0.75);
                         "support" := JInt 12 ]} ]})
    ["overall_stats"; "token_accuracy"] (JFloat (Finite 0.75)) /\
  get_metric_score_from_eval_stats "out" "overall_stats.token_accuracy"
    example_eval_stats = Ok (Finite 0.75).
Proof.
  assert (H : path_resolves
    (JDict {[ "overall_stats" :=
                JDict {[ "token_accuracy" := JFloat (Finite 0.75);
                         "support" := JInt 12 ]} ]})
    ["overall_stats"; "token_accuracy"] (JFloat (Finite 0.75))).
  { eapply resolves_step; [vm_compute; reflexivity|].
    eapply resolves_step; [vm_compute; reflexivity|]. apply resolves_here. }
  split; [exact H|].
  refine (proj1 (proj2 (get_metric_score_from_eval_stats_walks "out"
            "overall_stats.token_accuracy" example_eval_stats) _ _) _ H).
  vm_compute. reflexivity.
Defined.

(** The metric "overall_stats.support" ends at the integer 12, a numeric
    value, and no score is returned for it. *)
Lemma get_metric_score_from_eval_stats_refuses_int :
  example_eval_stats !! "out"
    = Some (JDict {[ "overall_stats" :=
                       JDict {[ "token_accuracy" := JFloat (Finite 0.75);
                                "support" := JInt 12 ]} ]}) /\
  path_resolves
    (JDict {[ "overall_stats" :=
                JDict {[ "token_accuracy" := JFloat (Finite 0.75);
                         "support" := JInt 12 ]} ]})
    (split_on dot "overall_stats.support") (JInt 12) /\
  isinstance_int_or_float (JInt 12) = true /\
  get_metric_score_from_eval_stats "out" "overall_stats.support"
    example_eval_stats = Raise (not_numerical "overall_stats.support") /\
  ~ exists x,
      get_metric_score_from_eval_stats "out" "overall_stats.support"
        example_eval_stats = Ok x.
Proof.
  split; [vm_compute; reflexivity|]. split.
  { change (split_on dot "overall_stats.support")
      with ["overall_stats"; "support"].
    eapply resolves_step; [vm_compute; reflexivity|].
    eapply resolves_step; [vm_compute; reflexivity|]. apply resolves_here. }
  split; [reflexivity|].
  assert (H : get_metric_score_from_eval_stats "out" "overall_stats.support"
                example_eval_stats = Raise (not_numerical "overall_stats.support"))
    by (vm_compute; reflexivity).
  split; [exact H|]. intros [x Hx]. rewrite H in Hx. discriminate.
Qed.

(** A choice over two lists. *)
Definition example_choice : gmap string json :=
  {[ "space" := JStr "choice";
     "categories" := JList [JList [JInt 1; JInt 2]; JList [JInt 3]] ]}.

Lemma decode_encode_round_trip_witness :
  MiniJson.loads (MiniJson.dumps (JList [JInt 1; JInt 2]))
    = Ok (JList [JInt 1; JInt 2]) /\
  exists values' ctx' L' e,
    encode_values MiniJson.dumps "x" example_choice ∅ = Ok (values', ctx') /\
    values' !! "categories" = Some (JList L') /\ L' !! 0%nat = Some e /\
    decode_values MiniJson.loads {[ "x" := e ]} ctx'
      = Ok {[ "x" := JList [JInt 1; JInt 2] ]}.
Proof.
  assert (H : MiniJson.loads (MiniJson.dumps (JList [JInt 1; JInt 2]))
              = Ok (JList [JInt 1; JInt 2])) by (vm_compute; reflexivity).
  split; [exact H|].
  assert (Hkey : "categories" ∈ ["values"; "categories"])
    by (apply list_elem_of_further, list_elem_of_here).
  assert (HL : example_choice !! "categories"
               = Some (JList [JList [JInt 1; JInt 2]; JList [JInt 3]]))
    by (vm_compute; reflexivity).
  destruct (decode_encode_round_trip MiniJson.dumps MiniJson.loads "x"
              example_choice ∅ "categories"
              [JList [JInt 1; JInt 2]; JList [JInt 3]] 0%nat
              (JList [JInt 1; JInt 2]) Hkey HL eq_refl H) as (Hreturns & Hround).
  destruct (proj2 Hreturns) as [[values' ctx'] Henc].
  { intros k x Hk Hx. apply elem_of_cons in Hk as [->|Hk].
    - vm_compute in Hx. discriminate.
    - apply list_elem_of_singleton in Hk as ->. vm_compute in Hx.
      injection Hx as <-. reflexivity. }
  destruct (Hround values' ctx' Henc) as (L' & e & HL' & He & Hdec & _).
  exists values', ctx', L', e.
  split; [exact Henc|]. split; [exact HL'|]. split; [exact He|].
  apply Hdec. left. reflexivity.
Defined.

Example round_trip_computed :
  (let* st := encode_values MiniJson.dumps "x" example_choice ∅ in
   let* cats := getitem st.1 "categories" in
   let* first := getitem0 cats in
   let* decoded := decode_values MiniJson.loads {[ "x" := first ]} st.2 in
   Ok (first, decoded !! "x"))
  = Ok (JStr "[1, 2]", Some (JList [JInt 1; JInt 2])).
Proof. vm_compute. reflexivity. Qed.

(** The table of the spec's example: three completed trials. *)
Definition example_row (id : string) (score : Q) : trial :=
  {| trial_id := id; trial_dir := "/results/trial_" ++ id;
     metric_score := Some score; parameters := CStr "{}";
     training_stats := CStr "training"; eval_stats := CStr "evaluation" |}.

Definition example_df : results_df :=
  {| has_metric_score_column := true;
     rows := [example_row "0" 0.8%Q; example_row "1" 0.6%Q;
              example_row "2" 0.95%Q] |}.

Example aggregate_example_order :
  (let* r := aggregate MAXIMIZE stable_sort None (fun _ => None)
               (fun _ _ => Unsupported) example_df in
   Ok (trial_id <$> r.1)) = Ok ["2"; "0"; "1"] /\
  (let* r := aggregate MINIMIZE stable_sort None (fun _ => None)
               (fun _ _ => Unsupported) example_df in
   Ok (trial_id <$> r.1)) = Ok ["1"; "0"; "2"].
Proof. split; vm_compute; reflexivity. Qed.


(** A trial stopped after an intermediate report: training statistics
    without evaluation statistics. *)
Definition stopped_row : trial :=
  {| trial_id := "3"; trial_dir := "/results/trial_3";
     metric_score := Some 0.7%Q; parameters := CStr "{}";
     training_stats := CStr "training"; eval_stats := CStr "{}" |}.

Lemma stopped_row_reported : reported stopped_row.
Proof. left. exists "training", "{}". split; reflexivity. Defined.

Lemma backfill_selection_witness :
  reported stopped_row /\
  selected_for_backfill (nan_guard stopped_row) = true /\
  backfill_trial (Some 10%nat) (fun _ => Some "/results/trial_3/checkpoint_2")
    (fun _ _ => Evaluated "evaluation") (nan_guard stopped_row)
  = Ok (set_eval_stats stopped_row (CStr "evaluation"),
        [EvaluateBestModel "/results/trial_3" "/results/trial_3/checkpoint_2"]) /\
  exists msg,
    backfill_trial None (fun _ => Some "/results/trial_3/checkpoint_2")
      (fun _ _ => Evaluated "evaluation") (nan_guard stopped_row)
    = Ok (nan_guard stopped_row, [Warning msg]) /\
    eval_stats (nan_guard stopped_row) = CStr "{}".
Proof.
  split; [exact stopped_row_reported|]. split; [reflexivity|]. split.
  - destruct (backfill_selection (Some 10%nat)
                (fun _ => Some "/results/trial_3/checkpoint_2")
                (fun _ _ => Evaluated "evaluation") stopped_row
                stopped_row_reported) as (_ & Hsel & _).
    destruct (Hsel eq_refl) as (Hattempt & _).
    rewrite (Hattempt "/results/trial_3/checkpoint_2");
      [reflexivity | exists 9%nat; reflexivity | reflexivity].
  - destruct (backfill_selection None
                (fun _ => Some "/results/trial_3/checkpoint_2")
                (fun _ _ => Evaluated "evaluation") stopped_row
                stopped_row_reported) as (_ & Hsel & _).
    destruct (Hsel eq_refl) as (_ & Hwarn).
    apply Hwarn. intros [[n Hn] _]. discriminate.
Defined.

(** A model directory with a hidden lock file, and a trial directory that
    holds no checkpoint yet. *)
Definition example_model : list (string * node) :=
  [ ("model_weights", File "weights");
    (".lock", File "");
    ("training_progress.json", File "{}");
    ("logs", Dir [ (".cache", Dir []); ("events", File "log") ]) ].

Definition example_fs : filesystem :=
  {[ "/tmp/save/model" := Dir example_model ]}.

Example checkpoint_copies_visible_files :
  final (checkpoint "/results/trial_0/checkpoint_1" "1f0e" None
           "/tmp/save/model" example_fs)
    !! "/results/trial_0/checkpoint_1/model"
  = Some (Dir [ ("model_weights", File "weights");
                ("training_progress.json", File "{}");
                ("logs", Dir [ ("events", File "log") ]) ]).
Proof. vm_compute. reflexivity. Qed.


(** A save path that holds the model of an earlier run, and the checkpoint
    to resume from. *)
Definition resume_fs : filesystem :=
  {[ "/tmp/save/model" := Dir [ ("model_weights", File "old") ];
     "/tmp/ckpt/model" := Dir [ ("model_weights", File "resumed") ] ]}.

Lemma resume_move_rolls_back_witness :
  resume_fs !! "/tmp/save/model.tmp" = None /\
  on_trainer_train_setup true 0 "/tmp/ckpt"
    (MoveFailed (OSError "EXDEV") (Some [ ("model_weights", File "res") ]))
    "/tmp/save/model" resume_fs
  = (resume_fs, Raise (OSError "EXDEV")).
Proof.
  assert (H : resume_fs !! "/tmp/save/model.tmp" = None)
    by (vm_compute; reflexivity).
  split; [exact H|].
  exact (proj1 (proj2 (resume_move_rolls_back "/tmp/ckpt"
                  (MoveFailed (OSError "EXDEV")
                     (Some [ ("model_weights", File "res") ]))
                  "/tmp/save/model" resume_fs) H) _ _ eq_refl).
Defined.

Example resume_move_succeeds :
  (on_trainer_train_setup true 0 "/tmp/ckpt" Moved "/tmp/save/model" resume_fs).1
  = {[ "/tmp/save/model" := Dir [ ("model_weights", File "resumed") ] ]}.
Proof. vm_compute. reflexivity. Qed.

(** An executor built with an empty search space. *)
Definition example_args : init_args :=
  {| arg_parameters := []; arg_output_feature := "out";
     arg_metric := "accuracy"; arg_goal := MAXIMIZE; arg_split := VALIDATION;
     arg_search_alg := PyNone; arg_cpu_resources_per_trial := PyNone;
     arg_gpu_resources_per_trial := PyNone; arg_kubernetes_namespace := PyNone;
     arg_time_budget_s := PyNone; arg_max_concurrent_trials := PyNone;
     arg_num_samples := 1; arg_scheduler := PyNone |}.

Definition no_tune_space (space : string) (values : gmap string json)
  : result string := Raise (ValueError space).

Definition example_instance : gmap string pyobj :=
  match __init__ MiniJson.dumps false no_tune_space
          (fun _ => PyObject "BasicVariantGenerator")
          (fun _ => Raise TypeError) "10.0.0.1" example_args with
  | Ok self => self
  | Raise _ => ∅
  end.

Lemma example_instance_built :
  executor_instance MiniJson.dumps false no_tune_space
    (fun _ => PyObject "BasicVariantGenerator") (fun _ => Raise TypeError)
    "10.0.0.1" example_instance.
Proof. apply (instance_init _ _ _ _ _ _ example_args). reflexivity. Defined.

Lemma sort_hyperopt_results_raises_witness :
  executor_instance MiniJson.dumps false no_tune_space
    (fun _ => PyObject "BasicVariantGenerator") (fun _ => Raise TypeError)
    "10.0.0.1" example_instance /\
  sort_hyperopt_results (fun _ name => Raise (AttributeError name))
    example_instance (rows example_df)
  = Raise (AttributeError "hyperopt_sampler").
Proof.
  split; [exact example_instance_built|].
  exact (sort_hyperopt_results_raises MiniJson.dumps false no_tune_space
           (fun _ => PyObject "BasicVariantGenerator") (fun _ => Raise TypeError)
           "10.0.0.1" (fun _ name => Raise (AttributeError name))
           example_instance (rows example_df) example_instance_built).
Defined.

(** * Further properties of the executor *)

(** ** Metric extractor: the guard and the lookup agree *)

Section MetricGuard.

Variable output_feature : string.
Variable metric : string.
Variable get_metric_objective : string -> objective.

Lemma best_function_empty :
  exists msg,
    get_best_function get_metric_objective metric
      (fun pair : nat * pyfloat => snd pair) (enumerate []) = Raise (ValueError msg).
Proof.
  unfold get_best_function. destruct (get_metric_objective metric); eexists;
    reflexivity.
Qed.

(** X3: [_has_metric(stats, split)] is the exact guard of
    [get_metric_score_from_train_stats(stats, split)]: the lookup returns a
    score if and only if the guard holds; where it does not, the lookup
    raises ([TypeError] on [None], [KeyError] on a missing split, feature or
    metric, [ValueError] on an empty list). *)
Theorem has_metric_guards_lookup (stats : option train_stats_t) (split : string) :
  split <> EmptyString ->
  ((exists v, get_metric_score_from_train_stats output_feature metric
                get_metric_objective stats (Some split) = Ok v) <->
   _has_metric output_feature metric stats split = true) /\
  (_has_metric output_feature metric stats split = false ->
   exists e, get_metric_score_from_train_stats output_feature metric
               get_metric_objective stats (Some split) = Raise e /\
             match e with
             | TypeError => stats = None
             | KeyError k => k = split \/ k = output_feature \/ k = metric
             | ValueError _ => split_values output_feature metric stats split = Some []
             | _ => False
             end).
Proof.
  intros Hsplit.
  assert (Hor : or_default (Some split) VALIDATION = split)
    by (destruct split; [congruence | reflexivity]).
  assert (Hfail : _has_metric output_feature metric stats split = false ->
    exists e, get_metric_score_from_train_stats output_feature metric
                get_metric_objective stats (Some split) = Raise e /\
              match e with
              | TypeError => stats = None
              | KeyError k => k = split \/ k = output_feature \/ k = metric
              | ValueError _ =>
                  split_values output_feature metric stats split = Some []
              | _ => False
              end).
  { unfold _has_metric, get_metric_score_from_train_stats, split_values, getitem.
    rewrite Hor. destruct stats as [ts|];
      [|intros _; eexists; split; [reflexivity | reflexivity]].
    simpl. case_bool_decide as Hemp.
    - subst ts. rewrite lookup_empty. intros _. eexists. split; [reflexivity|].
      simpl. auto.
    - destruct (ts !! split) as [sp|]; simpl;
        [|intros _; eexists; split; [reflexivity | simpl; auto]].
      destruct (sp !! output_feature) as [ft|]; simpl;
        [|intros _; eexists; split; [reflexivity | simpl; auto]].
      destruct (ft !! metric) as [l|]; simpl;
        [|intros _; eexists; split; [reflexivity | simpl; auto]].
      destruct l as [|x l].
      + intros _. destruct best_function_empty as [msg Hmsg].
        change (enumerate []) with (@nil (nat * pyfloat)) in Hmsg.
        change (enumerate []) with (@nil (nat * pyfloat)).
        rewrite Hmsg. simpl. eexists. split; [reflexivity | reflexivity].
      + intros H. apply bool_decide_eq_false in H. simpl in H. lia. }
  split; [|exact Hfail]. split.
  - intros [v Hv].
    destruct (_has_metric output_feature metric stats split) eqn:E;
      [reflexivity|].
    destruct (Hfail eq_refl) as (e & He & _). congruence.
  - intros Hhas. apply has_metric_present in Hhas as (l & Hl & Hne).
    rewrite <- Hor in Hl.
    destruct (train_stats_score_best output_feature metric get_metric_objective
                stats (Some split) l Hl Hne) as (i & v & _ & Hs).
    eauto.
Qed.

(** X2: [get_metric_score] either returns a value of the validation list
    or, when validation is not present, of the training list, or raises its
    [RuntimeError]; no [KeyError], [ValueError] or [TypeError] of the lookup
    ever escapes it. *)
Theorem get_metric_score_outcomes (train_stats : option train_stats_t) :
  (exists split l v,
     (split = VALIDATION \/
      split = TRAINING /\
      _has_metric output_feature metric train_stats VALIDATION = false) /\
     split_values output_feature metric train_stats split = Some l /\
     v ∈ l /\
     get_metric_score output_feature metric get_metric_objective train_stats
       = Ok v) \/
  (_has_metric output_feature metric train_stats VALIDATION = false /\
   _has_metric output_feature metric train_stats TRAINING = false /\
   get_metric_score output_feature metric get_metric_objective train_stats
     = Raise (RuntimeError
         "Unable to obtain metric score from missing training (validation) statistics")).
Proof.
  unfold get_metric_score.
  destruct (_has_metric output_feature metric train_stats VALIDATION) eqn:Ev.
  - left. apply has_metric_present in Ev as (l & Hl & Hne).
    destruct (train_stats_score_best output_feature metric get_metric_objective
                train_stats (Some VALIDATION) l Hl Hne) as (i & v & [Hi _] & Hs).
    exists VALIDATION, l, v. split; [auto|]. split; [exact Hl|].
    split; [eapply list_elem_of_lookup_2, Hi | exact Hs].
  - destruct (_has_metric output_feature metric train_stats TRAINING) eqn:Et.
    + left. apply has_metric_present in Et as (l & Hl & Hne).
      destruct (train_stats_score_best output_feature metric get_metric_objective
                  train_stats (Some TRAINING) l Hl Hne) as (i & v & [Hi _] & Hs).
      exists TRAINING, l, v. split; [auto|]. split; [exact Hl|].
      split; [eapply list_elem_of_lookup_2, Hi | exact Hs].
    + right. auto.
Qed.

End MetricGuard.

(** ** Search-space codec: what encoding leaves alone *)

Section CodecFrame.

Variable json_dumps : json -> string.
Variable json_loads : string -> result json.

Lemma encode_key_frame param key values ctx values' ctx' :
  encode_key json_dumps param key (values, ctx) = Ok (values', ctx') ->
  (forall k, k <> key -> values' !! k = values !! k) /\
  (is_Some (values' !! key) <-> is_Some (values !! key)) /\
  (forall q, q <> param -> ctx' !! q = ctx !! q) /\
  (forall q, is_Some (ctx !! q) -> is_Some (ctx' !! q)).
Proof.
  unfold encode_key. destruct (values !! key) as [x|] eqn:Ex.
  - destruct (getitem0 x) as [first|]; simpl; [|discriminate].
    destruct (isinstance_int_or_float first); simpl.
    + intros [= <- <-]. rewrite Ex. repeat split; auto.
    + destruct (iter_items x) as [items|]; simpl; [|discriminate].
      intros [= <- <-]. split; [|split; [|split]].
      * intros k Hk. apply lookup_insert_ne. congruence.
      * rewrite lookup_insert_eq. split; eauto.
      * intros q Hq. apply lookup_insert_ne. congruence.
      * intros q Hq. destruct (decide (param = q)) as [->|Hne].
        -- rewrite lookup_insert_eq. eauto.
        -- rewrite lookup_insert_ne by exact Hne. exact Hq.
  - intros [= <- <-]. rewrite Ex. repeat split; auto.
Qed.

Lemma encode_values_frame param values ctx values' ctx' :
  encode_values json_dumps param values ctx = Ok (values', ctx') ->
  (forall k, k <> "values" -> k <> "categories" -> values' !! k = values !! k) /\
  (forall k, is_Some (values' !! k) <-> is_Some (values !! k)) /\
  (forall q, q <> param -> ctx' !! q = ctx !! q) /\
  (forall q, is_Some (ctx !! q) -> is_Some (ctx' !! q)).
Proof.
  unfold encode_values.
  destruct (encode_key json_dumps param "values" (values, ctx))
    as [[values1 ctx1]|] eqn:E1; cbn [bind]; [|discriminate].
  intros E2.
  destruct (encode_key_frame _ _ _ _ _ _ E1) as (Hv1 & Hs1 & Hc1 & Hg1).
  destruct (encode_key_frame _ _ _ _ _ _ E2) as (Hv2 & Hs2 & Hc2 & Hg2).
  split; [|split; [|split]].
  - intros k Hk1 Hk2. rewrite Hv2, Hv1 by congruence. reflexivity.
  - intros k. destruct (decide (k = "categories")) as [->|Hk2].
    + rewrite Hs2, Hv1 by discriminate. reflexivity.
    + rewrite Hv2 by exact Hk2. destruct (decide (k = "values")) as [->|Hk1].
      * exact Hs1.
      * rewrite Hv1 by exact Hk1. reflexivity.
  - intros q Hq. rewrite Hc2, Hc1 by exact Hq. reflexivity.
  - intros q Hq. apply Hg2, Hg1, Hq.
Qed.

Lemma encode_key_numeric param key values ctx :
  (forall x, values !! key = Some x ->
     exists first rest, x = JList (first :: rest) /\
                        isinstance_int_or_float first = true) ->
  encode_key json_dumps param key (values, ctx) = Ok (values, ctx).
Proof.
  intros H. unfold encode_key. destruct (values !! key) as [x|]; [|reflexivity].
  destruct (H x eq_refl) as (first & rest & -> & Hnum). simpl.
  rewrite Hnum. reflexivity.
Qed.

(** X4: [encode_values] changes nothing but the two lists and the context
    entry of its parameter: every other key of the values and every other
    entry of the context is as before, no key appears or disappears, and no
    decode function is ever unregistered; when each list present starts
    with an int or a float the call is the identity; an empty list raises
    [IndexError]. *)
Theorem encode_values_touches_only_lists param values ctx :
  (forall values' ctx',
     encode_values json_dumps param values ctx = Ok (values', ctx') ->
     (forall k, k <> "values" -> k <> "categories" ->
        values' !! k = values !! k) /\
     (forall k, is_Some (values' !! k) <-> is_Some (values !! k)) /\
     (forall q, q <> param -> ctx' !! q = ctx !! q) /\
     (forall q, is_Some (ctx !! q) -> is_Some (ctx' !! q))) /\
  ((forall key x, key ∈ ["values"; "categories"] -> values !! key = Some x ->
      exists first rest, x = JList (first :: rest) /\
                         isinstance_int_or_float first = true) ->
   encode_values json_dumps param values ctx = Ok (values, ctx)) /\
  (values !! "values" = Some (JList []) ->
   encode_values json_dumps param values ctx = Raise IndexError).
Proof.
  split; [|split].
  - intros values' ctx' H. exact (encode_values_frame _ _ _ _ _ H).
  - intros H. unfold encode_values.
    rewrite encode_key_numeric by (intros x; apply H; left).
    cbn [bind].
    apply encode_key_numeric. intros x. apply H. right. left.
  - intros H. unfold encode_values, encode_key. rewrite H. reflexivity.
Qed.

Lemma decode_items_lookup ctx (l : list (string * json)) :
  forall out,
    foldr (decode_item json_loads ctx) (Ok ∅) l = Ok out ->
    forall k,
      match (list_to_map l : gmap string json) !! k with
      | None => out !! k = None
      | Some v => exists v', decode_value json_loads ctx k v = Ok v' /\
                             out !! k = Some v'
      end.
Proof.
  induction l as [|[k0 v0] l IH]; intros out; simpl.
  - intros [= <-] k. rewrite !lookup_empty. reflexivity.
  - unfold decode_item at 1.
    destruct (foldr (decode_item json_loads ctx) (Ok ∅) l) as [out'|];
      cbn [bind fst snd]; [|discriminate].
    destruct (decode_value json_loads ctx k0 v0) as [v0'|] eqn:E0;
      cbn [bind]; [|discriminate].
    intros [= <-] k. destruct (decide (k0 = k)) as [->|Hne].
    + rewrite !lookup_insert_eq. eauto.
    + rewrite !lookup_insert_ne by exact Hne. apply (IH out' eq_refl).
Qed.

Lemma decode_items_total ctx (l : list (string * json)) :
  (forall k v, (k, v) ∈ l -> exists v', decode_value json_loads ctx k v = Ok v') ->
  exists out, foldr (decode_item json_loads ctx) (Ok ∅) l = Ok out.
Proof.
  induction l as [|[k0 v0] l IH]; intros H; simpl; [eauto|].
  destruct IH as [out' Hout];
    [intros k v Hin; apply (H k v); right; exact Hin|].
  rewrite Hout. unfold decode_item. cbn [bind fst snd].
  destruct (H k0 v0) as [v0' Hv0]; [left|]. rewrite Hv0. cbn [bind]. eauto.
Qed.

Lemma decode_items_raise ctx (l : list (string * json)) k v e :
  (k, v) ∈ l -> decode_value json_loads ctx k v = Raise e ->
  exists e', foldr (decode_item json_loads ctx) (Ok ∅) l = Raise e'.
Proof.
  induction l as [|[k0 v0] l IH]; intros Hin He; [inversion Hin|]. simpl.
  unfold decode_item at 1.
  destruct (foldr (decode_item json_loads ctx) (Ok ∅) l) as [out'|] eqn:Eout;
    cbn [bind fst snd]; [|eauto].
  apply elem_of_cons in Hin as [[= <- <-]|Hin].
  - rewrite He. cbn [bind]. eauto.
  - destruct (IH Hin He) as [e' He']. discriminate.
Qed.

(** X5: [decode_values] decodes key by key: when it returns, the result has
    exactly the keys of the sampled config, each with the value the decode
    function registered for it (or the identity) gives; it returns whenever
    every value decodes, and raises as soon as one does not, for instance
    when the value under a key with a registered decode function is not a
    string. *)
Theorem decode_values_keywise config ctx :
  (forall out, decode_values json_loads config ctx = Ok out ->
     forall k,
       match config !! k with
       | None => out !! k = None
       | Some v => exists v', decode_value json_loads ctx k v = Ok v' /\
                              out !! k = Some v'
       end) /\
  ((forall k v, config !! k = Some v ->
      exists v', decode_value json_loads ctx k v = Ok v') ->
   exists out, decode_values json_loads config ctx = Ok out) /\
  (forall k v e, config !! k = Some v ->
     decode_value json_loads ctx k v = Raise e ->
     exists e', decode_values json_loads config ctx = Raise e') /\
  (forall k v, config !! k = Some v -> is_Some (ctx !! k) ->
     (forall s, v <> JStr s) ->
     exists e', decode_values json_loads config ctx = Raise e').
Proof.
  unfold decode_values. split; [|split; [|split]].
  - intros out Hout k.
    pose proof (decode_items_lookup ctx (map_to_list config) out Hout k) as H.
    rewrite list_to_map_to_list in H. exact H.
  - intros H. apply decode_items_total.
    intros k v Hin. apply H. apply elem_of_map_to_list. exact Hin.
  - intros k v e Hk He. eapply decode_items_raise; [|exact He].
    apply elem_of_map_to_list. exact Hk.
  - intros k v Hk [f Hf] Hv.
    eapply (decode_items_raise ctx _ k v TypeError);
      [apply elem_of_map_to_list; exact Hk|].
    unfold decode_value. rewrite Hf. destruct f.
    destruct v; try reflexivity. exfalso. eapply Hv. reflexivity.
Qed.

End CodecFrame.

(** ** The search space *)

Section SearchSpaceProofs.

Variable json_dumps : json -> string.
Variable tune_search_space : string -> gmap string json -> result string.

Lemma encode_key_registers param key values ctx values' ctx' L :
  encode_key json_dumps param key (values, ctx) = Ok (values', ctx') ->
  values !! key = Some (JList L) -> head_non_numeric L = true ->
  ctx' !! param = Some json_loads_fn.
Proof.
  unfold encode_key. intros H HL Hh. rewrite HL in H.
  destruct L as [|first L]; [discriminate|]. simpl in H, Hh.
  rewrite Hh in H. simpl in H. injection H as <- <-. apply lookup_insert_eq.
Qed.

Lemma encode_values_registers param values ctx values' ctx' key L :
  encode_values json_dumps param values ctx = Ok (values', ctx') ->
  key ∈ ["values"; "categories"] ->
  values !! key = Some (JList L) -> head_non_numeric L = true ->
  is_Some (ctx' !! param).
Proof.
  unfold encode_values.
  destruct (encode_key json_dumps param "values" (values, ctx))
    as [[values1 ctx1]|] eqn:E1; cbn [bind]; [|discriminate].
  intros E2 Hkey HL Hh.
  destruct (encode_key_frame _ _ _ _ _ _ _ E1) as (Hv1 & _ & _ & _).
  destruct (encode_key_frame _ _ _ _ _ _ _ E2) as (_ & _ & _ & Hg2).
  apply elem_of_cons in Hkey as [->|Hkey].
  - apply Hg2. rewrite (encode_key_registers _ _ _ _ _ _ _ E1 HL Hh). eauto.
  - apply list_elem_of_singleton in Hkey as ->.
    rewrite <- Hv1 in HL by discriminate.
    rewrite (encode_key_registers _ _ _ _ _ _ _ E2 HL Hh). eauto.
Qed.

Lemma search_space_loop_keys parameters : forall config ctx config' ctx',
  search_space_loop json_dumps tune_search_space parameters config ctx
    = Ok (config', ctx') ->
  (forall p, is_Some (config' !! p) <->
             is_Some (config !! p) \/ p ∈ parameters.*1) /\
  (forall p, is_Some (ctx' !! p) -> is_Some (ctx !! p) \/ p ∈ parameters.*1) /\
  (forall p, is_Some (ctx !! p) -> is_Some (ctx' !! p)) /\
  (forall p values, (p, values) ∈ parameters ->
     (exists s, values !! "space" = Some (JStr s)) /\
     (forall key L, key ∈ ["values"; "categories"] ->
        values !! key = Some (JList L) -> head_non_numeric L = true ->
        ctx' !! p = Some json_loads_fn)).
Proof.
  induction parameters as [|[param values] rest IH];
    intros config ctx config' ctx'; simpl.
  - intros [= <- <-]. split; [|split; [|split]].
    + intros p. split; [auto|]. intros [H|H]; [exact H | inversion H].
    + auto.
    + auto.
    + intros p values H. inversion H.
  - destruct (encode_values json_dumps param values ctx) as [[values1 ctx1]|]
      eqn:Eenc; cbn [bind fst snd]; [|discriminate].
    destruct (encode_values_frame _ _ _ _ _ _ Eenc) as (Hframe & _ & Hctx1 & Hgrow1).
    unfold getitem. rewrite Hframe by discriminate.
    destruct (values !! "space") as [space|] eqn:Espace; cbn [bind];
      [|discriminate].
    destruct space as [| | | |s| |]; try discriminate.
    destruct (tune_search_space s values1) as [dom|]; cbn [bind]; [|discriminate].
    intros Hloop.
    destruct (IH _ _ _ _ Hloop) as (Hconfig & Hctx & Hgrow & Hparams).
    split; [|split; [|split]].
    + intros p. rewrite Hconfig. rewrite ?fmap_cons; simpl; rewrite elem_of_cons.
      destruct (decide (param = p)) as [->|Hne].
      * rewrite lookup_insert_eq. split; [auto|]. intros _. left. eauto.
      * rewrite lookup_insert_ne by exact Hne. split; intros [H|H]; auto.
        -- destruct H as [H|H]; [congruence | auto].
    + intros p Hp. rewrite ?fmap_cons; simpl; rewrite elem_of_cons.
      destruct (Hctx p Hp) as [H|H]; [|auto].
      destruct (decide (p = param)) as [->|Hne]; [auto|].
      rewrite Hctx1 in H by exact Hne. auto.
    + intros p Hp. apply Hgrow, Hgrow1, Hp.
    + intros p vs Hin. apply elem_of_cons in Hin as [[= -> ->]|Hin].
      * split; [eauto|]. intros key L Hkey HL Hh.
        destruct (Hgrow param) as [f Hf];
          [eapply encode_values_registers; eassumption|].
        rewrite Hf. destruct f. reflexivity.
      * apply Hparams, Hin.
Qed.

(** X6: when [_get_search_space] returns, the search space has exactly the
    parameters as keys, the decode context has entries for parameters only,
    every parameter has a string under "space", and every parameter with a
    "values" or "categories" list that starts with a non-numeric entry has
    [json.loads] registered, also when parameters follow it; a parameter
    without "space" makes the call raise. *)
Theorem get_search_space_keys parameters :
  (forall space ctx,
     _get_search_space json_dumps tune_search_space parameters = Ok (space, ctx) ->
     (forall p, is_Some (space !! p) <-> p ∈ parameters.*1) /\
     (forall p, is_Some (ctx !! p) -> p ∈ parameters.*1) /\
     (forall p values, (p, values) ∈ parameters ->
        (exists s, values !! "space" = Some (JStr s)) /\
        (forall key L, key ∈ ["values"; "categories"] ->
           values !! key = Some (JList L) -> head_non_numeric L = true ->
           ctx !! p = Some json_loads_fn))) /\
  (forall p values, (p, values) ∈ parameters -> values !! "space" = None ->
     exists e, _get_search_space json_dumps tune_search_space parameters
                 = Raise e).
Proof.
  unfold _get_search_space.
  assert (Hkeys : forall space ctx,
    search_space_loop json_dumps tune_search_space parameters ∅ ∅
      = Ok (space, ctx) ->
    (forall p, is_Some (space !! p) <-> p ∈ parameters.*1) /\
    (forall p, is_Some (ctx !! p) -> p ∈ parameters.*1) /\
    (forall p values, (p, values) ∈ parameters ->
       (exists s, values !! "space" = Some (JStr s)) /\
       (forall key L, key ∈ ["values"; "categories"] ->
          values !! key = Some (JList L) -> head_non_numeric L = true ->
          ctx !! p = Some json_loads_fn))).
  { intros space ctx H.
    destruct (search_space_loop_keys _ _ _ _ _ H) as (Hconfig & Hctx & _ & Hparams).
    split; [|split].
    - intros p. rewrite Hconfig, lookup_empty. split; [|auto].
      intros [[x Hx]|Hp]; [discriminate | exact Hp].
    - intros p Hp. destruct (Hctx p Hp) as [[x Hx]|Hp']; [|exact Hp'].
      rewrite lookup_empty in Hx. discriminate.
    - exact Hparams. }
  split; [exact Hkeys|].
  intros p values Hin Hspace.
  destruct (search_space_loop json_dumps tune_search_space parameters ∅ ∅)
    as [[space ctx]|e] eqn:E; [|eauto].
  destruct (Hkeys space ctx eq_refl) as (_ & _ & Hparams).
  destruct (Hparams p values Hin) as ([s Hs] & _). congruence.
Qed.

End SearchSpaceProofs.

(** ** [set_values] *)

Definition insert_item (acc : gmap string json) (item : string * json)
  : gmap string json := <[item.1 := item.2]> acc.

Lemma fold_inserts_lookup (l : list (string * json)) :
  NoDup l.*1 -> forall old k,
  fold_left insert_item l old !! k =
    match (list_to_map l : gmap string json) !! k with
    | Some v => Some v
    | None => old !! k
    end.
Proof.
  induction l as [|[k0 v0] l IH]; intros Hnd old k; simpl.
  - rewrite lookup_empty. reflexivity.
  - apply NoDup_cons in Hnd as [Hnotin Hnd]. rewrite IH by exact Hnd.
    unfold insert_item at 1. simpl.
    destruct (decide (k0 = k)) as [->|Hne].
    + rewrite !lookup_insert_eq.
      rewrite (not_elem_of_list_to_map_1 _ _ Hnotin). reflexivity.
    + rewrite !lookup_insert_ne by exact Hne. reflexivity.
Qed.

Lemma fold_inserts_union (d old : gmap string json) :
  fold_left insert_item (map_to_list d) old = d ∪ old.
Proof.
  apply map_eq. intros k.
  rewrite fold_inserts_lookup by apply NoDup_fst_map_to_list.
  rewrite list_to_map_to_list, lookup_union.
  destruct (d !! k), (old !! k); reflexivity.
Qed.

Lemma set_sub_values_dict key (l : list (string * json)) : forall m old,
  m !! key = Some (JDict old) ->
  for_each (set_sub_value key) l m =
    (<[key := JDict (fold_left insert_item l old)]> m, Ok tt).
Proof.
  induction l as [|x l IH]; intros m old Hm; simpl.
  - rewrite insert_id by exact Hm. reflexivity.
  - unfold set_sub_value at 1, contains.
    rewrite bool_decide_eq_true_2 by (rewrite Hm; eauto). rewrite Hm.
    rewrite (IH _ (<[x.1 := x.2]> old)) by apply lookup_insert_eq.
    rewrite insert_insert_eq. reflexivity.
Qed.

Lemma set_sub_values_fresh key (l : list (string * json)) m :
  l <> [] -> m !! key = None ->
  for_each (set_sub_value key) l m =
    (<[key := JDict (fold_left insert_item l ∅)]> m, Ok tt).
Proof.
  destruct l as [|x l]; [congruence|]. intros _ Hm. simpl.
  unfold set_sub_value at 1, contains.
  rewrite bool_decide_eq_false_2 by (rewrite Hm; intros [? ?]; discriminate).
  rewrite lookup_insert_eq.
  rewrite (set_sub_values_dict key l _ (<[x.1 := x.2]> ∅))
    by apply lookup_insert_eq.
  rewrite !insert_insert_eq. reflexivity.
Qed.

Lemma set_sub_values_refused key (l : list (string * json)) m v :
  l <> [] -> m !! key = Some v -> (forall d, v <> JDict d) ->
  for_each (set_sub_value key) l m = (m, Raise TypeError).
Proof.
  destruct l as [|x l]; [congruence|]. intros _ Hm Hv. simpl.
  unfold set_sub_value, contains.
  rewrite bool_decide_eq_true_2 by (rewrite Hm; eauto). rewrite Hm.
  destruct v; try reflexivity. exfalso. eapply Hv. reflexivity.
Qed.

(** What one parameter does to the model dictionary. *)
Definition merged_into (m : gmap string json) (key : string) (value : json)
    (m1 : gmap string json) : Prop :=
  match value with
  | JDict d =>
    (d = ∅ -> m1 !! key = m !! key) /\
    (d <> ∅ ->
       exists old, (m !! key = None /\ old = ∅ \/ m !! key = Some (JDict old)) /\
                   m1 !! key = Some (JDict (d ∪ old)))
  | v => m1 !! key = Some v
  end.

Lemma set_value_ok key value m m1 :
  set_value (key, value) m = (m1, Ok tt) ->
  (forall k, k <> key -> m1 !! k = m !! k) /\ merged_into m key value m1.
Proof.
  unfold set_value, merged_into. simpl.
  destruct value as [| | | | | |d];
    try (intros [= <-]; split;
         [intros k Hk; apply lookup_insert_ne; congruence
         | apply lookup_insert_eq]).
  destruct (map_to_list d) as [|x l] eqn:El.
  - simpl. intros [= <-]. apply map_to_list_empty_iff in El.
    split; [reflexivity|]. split; [reflexivity | congruence].
  - assert (Hne : d <> ∅)
      by (intros ->; rewrite map_to_list_empty in El; discriminate).
    assert (Hl : x :: l <> []) by discriminate.
    rewrite <- El in *. clear El.
    destruct (m !! key) as [v|] eqn:Em.
    + destruct v as [| | | | | |old];
        try (rewrite (set_sub_values_refused key _ m _ Hl Em) by discriminate;
             discriminate).
      rewrite (set_sub_values_dict key _ m old Em), fold_inserts_union.
      intros [= <-]. split.
      * intros k Hk. apply lookup_insert_ne. congruence.
      * split; [congruence|]. intros _. exists old.
        split; [auto | apply lookup_insert_eq].
    + rewrite (set_sub_values_fresh key _ m Hl Em), fold_inserts_union.
      intros [= <-]. split.
      * intros k Hk. apply lookup_insert_ne. congruence.
      * split; [congruence|]. intros _. exists ∅.
        split; [auto | apply lookup_insert_eq].
Qed.

Lemma set_value_raise param m m1 e :
  set_value param m = (m1, Raise e) -> e = TypeError /\ m1 = m.
Proof.
  unfold set_value. destruct param as [key value]. simpl.
  destruct value as [| | | | | |d]; try discriminate.
  destruct (map_to_list d) as [|x l] eqn:El; [discriminate|].
  assert (Hl : x :: l <> []) by discriminate.
  destruct (m !! key) as [v|] eqn:Em.
  - destruct v as [| | | | | |old];
      try (rewrite (set_sub_values_refused key _ m _ Hl Em) by discriminate;
           intros [= <- <-]; auto).
    rewrite (set_sub_values_dict key _ m old Em). discriminate.
  - rewrite (set_sub_values_fresh key _ m Hl Em). discriminate.
Qed.

Lemma merged_into_same m m' key value m1 :
  m' !! key = m !! key -> merged_into m key value m1 -> merged_into m' key value m1.
Proof.
  unfold merged_into. intros Heq. destruct value; auto. rewrite Heq. auto.
Qed.

(** X7: [set_values] overlays the parameters on the model dictionary: keys
    the parameters do not name are untouched, a value that is not a
    dictionary replaces what was there, a non-empty dictionary is merged
    field by field into the dictionary under its key (created when the key
    is absent), keeping the fields it does not name, and an empty dictionary
    changes nothing, not even creating its key.  Merging into something that
    is not a dictionary raises [TypeError]. *)
Theorem set_values_overlays (params : list (string * json))
    (model_dict : gmap string json) :
  NoDup params.*1 ->
  (forall model_dict',
     set_values params model_dict = (model_dict', Ok tt) ->
     (forall key, key ∉ params.*1 -> model_dict' !! key = model_dict !! key) /\
     (forall key value, (key, value) ∈ params ->
        merged_into model_dict key value model_dict')) /\
  (forall key d v,
     (key, JDict d) ∈ params -> d <> ∅ ->
     model_dict !! key = Some v -> (forall old, v <> JDict old) ->
     exists model_dict',
       set_values params model_dict = (model_dict', Raise TypeError)).
Proof.
  unfold set_values. revert model_dict.
  induction params as [|[k0 v0] params IH]; intros m Hnd.
  - split.
    + simpl. intros m' [= <-]. split; [reflexivity|]. intros key value H.
      inversion H.
    + intros key d v H. inversion H.
  - rewrite fmap_cons in Hnd. simpl in Hnd.
    apply NoDup_cons in Hnd as [Hnotin Hnd]. simpl.
    destruct (set_value (k0, v0) m) as [m1 [[]|e]] eqn:Estep.
    + destruct (set_value_ok _ _ _ _ Estep) as (Hother & Hmerged).
      destruct (IH m1 Hnd) as (IHok & IHraise). split.
      * intros m' Hrest. destruct (IHok m' Hrest) as (Hkeep & Hin).
        split.
        -- intros key Hkey. rewrite ?fmap_cons in Hkey. simpl in Hkey.
           apply not_elem_of_cons in Hkey as [Hk0 Hkey].
           rewrite Hkeep by exact Hkey. apply Hother, Hk0.
        -- intros key value Hkv. apply elem_of_cons in Hkv as [[= -> ->]|Hkv].
           ++ unfold merged_into in *. rewrite (Hkeep k0 Hnotin).
              exact Hmerged.
           ++ apply (merged_into_same m1); [|apply Hin, Hkv].
              symmetry. apply Hother. intros ->. apply Hnotin.
              apply list_elem_of_fmap. exists (k0, value). auto.
      * intros key d v Hin Hd Hv Hnot.
        apply elem_of_cons in Hin as [[= -> <-]|Hin].
        -- exfalso. destruct Hmerged as (_ & Hm).
           destruct (Hm Hd) as (old & [[Hnone _]|Hsome] & _); [congruence|].
           rewrite Hv in Hsome. injection Hsome as ->. eapply Hnot. reflexivity.
        -- apply (IHraise key d v Hin Hd); [|exact Hnot].
           rewrite Hother; [exact Hv|]. intros ->. apply Hnotin.
           apply list_elem_of_fmap. exists (k0, JDict d). auto.
    + destruct (set_value_raise _ _ _ _ Estep) as (-> & ->). split.
      * intros m'. discriminate.
      * intros. eauto.
Qed.

(** ** [CallbackStopper] *)

Section StopperProofs.

Context {callback : Type} (should_stop_hyperopt : callback -> bool).

(** X8: [stop_all] answers true exactly when some callback asks to stop;
    it asks the callbacks in order and stops asking at the first one that
    says yes, so the callbacks after it are never consulted; with
    [callbacks=None] or an empty list it answers false. *)
Theorem stop_all_first_yes (callbacks : list callback) :
  let '(answer, asked) := stop_all callback should_stop_hyperopt callbacks in
  (answer = true <-> exists c, c ∈ callbacks /\ should_stop_hyperopt c = true) /\
  (exists rest, callbacks = asked ++ rest /\
     (answer = false ->
        rest = [] /\ Forall (fun c => should_stop_hyperopt c = false) asked) /\
     (answer = true ->
        exists before c, asked = before ++ [c] /\
          should_stop_hyperopt c = true /\
          Forall (fun c => should_stop_hyperopt c = false) before)) /\
  stop_all callback should_stop_hyperopt
    (stopper_callbacks callback None) = (false, []).
Proof.
  induction callbacks as [|c rest IH]; simpl.
  - split; [|split; [|reflexivity]].
    + split; [discriminate|]. intros (c & Hc & _). inversion Hc.
    + exists []. split; [reflexivity|]. split; [auto | discriminate].
  - destruct (should_stop_hyperopt c) eqn:Ec.
    + split; [|split; [|reflexivity]].
      * split; [|reflexivity]. intros _. exists c. split; [left | exact Ec].
      * exists rest. split; [reflexivity|]. split; [discriminate|].
        intros _. exists [], c. auto.
    + destruct (stop_all callback should_stop_hyperopt rest) as [answer asked].
      destruct IH as (Hiff & (rest' & Hsplit & Hno & Hyes) & _).
      split; [|split; [|reflexivity]].
      * rewrite Hiff. split.
        -- intros (c' & Hc' & Hstop). exists c'. split; [right; exact Hc' | exact Hstop].
        -- intros (c' & Hc' & Hstop). apply elem_of_cons in Hc' as [->|Hc'];
             [congruence|]. eauto.
      * exists rest'. split; [rewrite Hsplit at 1; reflexivity|]. split.
        -- intros Ha. destruct (Hno Ha) as (-> & Hall). split; [reflexivity|].
           constructor; assumption.
        -- intros Ha. destruct (Hyes Ha) as (before & c' & -> & Hstop & Hall).
           exists (c :: before), c'. split; [reflexivity|].
           split; [exact Hstop | constructor; assumption].
Qed.

End StopperProofs.

(** ** Partial checkpoints *)

(** A partial checkpoint: an entry [checkpoint_*] of the trial directory
    with the marker and without a metadata file. *)
Definition partial_checkpoint (e : string * node) : bool :=
  match e with
  | (name, Dir es) =>
    String.prefix "checkpoint_" name && has_marker es && negb (has_metadata es)
  | _ => false
  end.

Lemma remove_entry_no_marker es :
  has_marker (remove_entry ".is_checkpoint" es) = false.
Proof.
  unfold has_marker, lookup_entry, remove_entry.
  apply bool_decide_eq_false. intros [n Hn].
  apply fmap_Some in Hn as (e & Hfind & _).
  apply find_some in Hfind as [Hin Heq].
  apply filter_In in Hin as [_ Hne]. rewrite Heq in Hne. discriminate.
Qed.

Lemma remove_entry_metadata es :
  has_metadata (remove_entry ".is_checkpoint" es) = has_metadata es.
Proof.
  unfold has_metadata, remove_entry.
  induction es as [|[name n] es IH]; simpl; [reflexivity|].
  destruct (String.eqb name ".is_checkpoint") eqn:E; simpl.
  - apply String.eqb_eq in E as ->. rewrite IH. reflexivity.
  - rewrite IH. reflexivity.
Qed.

Lemma prune_entry_ok e e' :
  prune_entry e = (e', Ok tt) ->
  e'.1 = e.1 /\ partial_checkpoint e' = false /\
  (partial_checkpoint e = false -> e' = e) /\
  (partial_checkpoint e = true ->
     exists es, e.2 = Dir es /\
                e'.2 = Dir (remove_entry ".is_checkpoint" es)).
Proof.
  unfold prune_entry, partial_checkpoint. destruct e as [name [c|es]].
  - intros [= <-]. repeat split; auto; discriminate.
  - destruct (String.prefix "checkpoint_" name && has_marker es &&
              negb (has_metadata es)) eqn:Epartial.
    + destruct (lookup_entry ".is_checkpoint" es) as [[c|sub]|];
        try discriminate; intros [= <-]; simpl;
        (split; [reflexivity|]);
        (split; [rewrite remove_entry_no_marker, andb_false_r; reflexivity|]);
        (split; [discriminate | eauto]).
    + intros [= <-]. simpl. rewrite Epartial. split; [reflexivity|].
      split; [reflexivity|]. split; [reflexivity | discriminate].
Qed.

Lemma prune_entries_ok es : forall es',
  prune_entries es = (es', Ok tt) ->
  Forall2 (fun e e' => prune_entry e = (e', Ok tt)) es es'.
Proof.
  induction es as [|e es IH]; intros es'; simpl.
  - intros [= <-]. constructor.
  - destruct (prune_entry e) as [e1 [[]|err]] eqn:E1; [|discriminate].
    destruct (prune_entries es) as [rest' r] eqn:Erest.
    intros [= <- ->]. constructor; [exact E1 | apply IH; reflexivity].
Qed.

Lemma prune_entries_stable es :
  Forall (fun e => partial_checkpoint e = false) es ->
  prune_entries es = (es, Ok tt).
Proof.
  induction 1 as [|e es He Hes IH]; simpl; [reflexivity|].
  assert (Hsame : prune_entry e = (e, Ok tt)).
  { unfold prune_entry, partial_checkpoint in *. destruct e as [name [c|sub]];
      [reflexivity|]. rewrite He. reflexivity. }
  rewrite Hsame, IH. reflexivity.
Qed.

(** X9: when [_remove_partial_checkpoints] returns, no partial checkpoint is
    left in the trial directory (none that carries the marker without a
    metadata file); the entries of the directory keep their names and
    order; an entry that was not a partial checkpoint is untouched, and a
    partial checkpoint loses its marker and nothing else; the rest of the
    file system is unchanged, and a second call changes nothing. *)
Theorem remove_partial_checkpoints_prunes trial_path (fs fs' : filesystem) es :
  fs !! trial_path = Some (Dir es) ->
  _remove_partial_checkpoints trial_path fs = (fs', Ok tt) ->
  exists es',
    fs' !! trial_path = Some (Dir es') /\
    (forall p, p <> trial_path -> fs' !! p = fs !! p) /\
    es'.*1 = es.*1 /\
    Forall (fun e => partial_checkpoint e = false) es' /\
    Forall2 (fun e e' =>
               if partial_checkpoint e then
                 exists files, e.2 = Dir files /\
                   e'.2 = Dir (remove_entry ".is_checkpoint" files)
               else e' = e) es es' /\
    _remove_partial_checkpoints trial_path fs' = (fs', Ok tt).
Proof.
  intros Hdir. unfold _remove_partial_checkpoints at 1. rewrite Hdir.
  destruct (prune_entries es) as [es' r] eqn:Eprune.
  intros [= <- ->]. exists es'.
  pose proof (prune_entries_ok _ _ Eprune) as Hall.
  assert (Hclean : Forall (fun e => partial_checkpoint e = false) es').
  { clear Eprune Hdir. induction Hall as [|e e' es es' He _ IH]; [constructor|].
    constructor; [|exact IH]. apply (prune_entry_ok _ _ He). }
  split; [apply lookup_insert_eq|].
  split; [intros p Hp; apply lookup_insert_ne; congruence|].
  split; [|split; [exact Hclean|split]].
  - clear Eprune Hclean Hdir.
    induction Hall as [|e e' es es' He _ IH]; [reflexivity|].
    rewrite !fmap_cons, IH. f_equal. apply (prune_entry_ok _ _ He).
  - clear Eprune Hclean Hdir. induction Hall as [|e e' es es' He _ IH];
      [constructor|]. constructor; [|exact IH].
    destruct (prune_entry_ok _ _ He) as (_ & _ & Hsame & Hpartial).
    destruct (partial_checkpoint e); [apply Hpartial | apply Hsame]; reflexivity.
  - unfold _remove_partial_checkpoints. rewrite lookup_insert_eq.
    rewrite (prune_entries_stable es' Hclean), insert_insert_eq. reflexivity.
Qed.

(** ** Concurrency limit *)




(** ** Result aggregator: what the output keeps *)

(** A record of the output against the row of the table it comes from: the
    same trial, score and directory, cells where the NaN guard turned a
    float into an empty dictionary, and evaluation statistics that were
    either kept or filled in for a record selected for the backfill. *)
Definition aggregated (row t : trial) : Prop :=
  trial_id t = trial_id row /\ trial_dir t = trial_dir row /\
  metric_score t = metric_score row /\
  parameters t = nan_guard_cell (parameters row) /\
  training_stats t = nan_guard_cell (training_stats row) /\
  (eval_stats t = nan_guard_cell (eval_stats row) \/
   selected_for_backfill (nan_guard row) = true /\
   exists s, eval_stats t = CStr s).

Definition no_float_cell (t : trial) : Prop :=
  parameters t <> CFloat /\ training_stats t <> CFloat /\ eval_stats t <> CFloat.

Lemma nan_guard_cell_no_float c : nan_guard_cell c <> CFloat.
Proof. destruct c; discriminate. Qed.

Section AggregatorInvariants.

Variable goal : string.
Variable sort_values : bool -> list trial -> list trial.
Variable validation_set : option nat.
Variable _get_best_model_path : string -> option string.
Variable load_and_evaluate : string -> string -> eval_outcome.

Local Abbreviation backfill_trial' :=
  (backfill_trial validation_set _get_best_model_path load_and_evaluate).
Local Abbreviation backfill' :=
  (backfill validation_set _get_best_model_path load_and_evaluate).
Local Abbreviation aggregate' :=
  (aggregate goal sort_values validation_set _get_best_model_path
     load_and_evaluate).

Lemma backfill_trial_aggregated row t ev :
  backfill_trial' (nan_guard row) = Ok (t, ev) -> aggregated row t.
Proof.
  unfold backfill_trial, _evaluate_best_model, aggregated.
  destruct (selected_for_backfill (nan_guard row)) eqn:Hsel;
    [|intros H; injection H as Ht He; subst t ev; simpl; tauto].
  destruct validation_set as [[|n]|];
    try (intros H; injection H as Ht He; subst t ev; simpl; tauto).
  destruct (_get_best_model_path (trial_dir (nan_guard row))) as [p|];
    [|intros H; injection H as Ht He; subst t ev; simpl; tauto].
  destruct (load_and_evaluate (trial_dir (nan_guard row)) p); simpl;
    try discriminate; intros H; injection H as Ht He; subst t ev; simpl;
    [|tauto].
  repeat split; auto. right. split; [reflexivity | eauto].
Qed.

Lemma backfill_each ts : forall out ev,
  backfill' ts = Ok (out, ev) ->
  Forall2 (fun g t => exists e, backfill_trial' g = Ok (t, e)) ts out.
Proof.
  induction ts as [|g ts IH]; intros out ev; simpl.
  - intros [= <- <-]. constructor.
  - destruct (backfill_trial' g) as [[t e1]|] eqn:E1; cbn [bind]; [|discriminate].
    destruct (backfill' ts) as [[out' e2]|] eqn:E2; cbn [bind]; [|discriminate].
    intros [= <- <-]. cbn [fst snd]. constructor; [eauto|].
    eapply IH. reflexivity.
Qed.

Lemma backfill_aggregated (rows : list trial) out ev :
  backfill' (nan_guard <$> rows) = Ok (out, ev) ->
  Forall2 aggregated rows out.
Proof.
  intros H. apply backfill_each in H. apply Forall2_fmap_l in H.
  eapply Forall2_impl; [exact H|].
  intros row t [e He]. eapply backfill_trial_aggregated, He.
Qed.

(** X12: the aggregator returns every row of the table exactly once: its
    output is, record by record, the sorted table with the same trial,
    score, directory, parameters and training statistics, evaluation
    statistics changed only for records selected for the backfill, and no
    float (NaN) left in a parameters or statistics cell. *)
Theorem aggregate_keeps_rows (df : results_df) out ev :
  sort_values_contract sort_values ->
  has_metric_score_column df = true ->
  aggregate' df = Ok (out, ev) ->
  exists sorted,
    Permutation (rows df) sorted /\
    Forall2 aggregated sorted out /\
    length out = length (rows df) /\
    Permutation (trial_id <$> rows df) (trial_id <$> out) /\
    Forall no_float_cell out.
Proof.
  intros Hc Hcol. unfold aggregate. rewrite Hcol. intros Hb.
  set (asc := negb (String.eqb goal MAXIMIZE)) in *.
  destruct (Hc asc (rows df)) as (Hperm & _).
  pose proof (backfill_aggregated _ _ _ Hb) as Hall.
  exists (sort_values asc (rows df)).
  split; [exact Hperm|]. split; [exact Hall|].
  split; [|split].
  - rewrite <- (Forall2_length _ _ _ Hall). symmetry.
    apply Permutation_length, Hperm.
  - rewrite (Permutation_map trial_id Hperm).
    assert (Hids : trial_id <$> sort_values asc (rows df) = trial_id <$> out).
    { clear Hb Hperm. induction Hall as [|row t rows' out' Hrt _ IH];
        [reflexivity|].
      rewrite !fmap_cons, IH. f_equal. symmetry. apply Hrt. }
    change (map trial_id (sort_values asc (rows df)))
      with (trial_id <$> sort_values asc (rows df)).
    rewrite Hids. reflexivity.
  - clear Hb Hperm. induction Hall as [|row t rows' out' Hrt _ IH];
      [constructor|]. constructor; [|exact IH].
    destruct Hrt as (_ & _ & _ & Hp & Ht & He). unfold no_float_cell.
    rewrite Hp, Ht. split; [apply nan_guard_cell_no_float|].
    split; [apply nan_guard_cell_no_float|].
    destruct He as [->|(_ & s & ->)];
      [apply nan_guard_cell_no_float | discriminate].
Qed.

(** X11: the first record of the output is the best one for the mode
    [execute] gives to [tune.run]: for mode "max" (goal maximize) no record
    has a larger score, for mode "min" none has a smaller one, and a record
    without a score comes first only when no record has one. *)
Theorem aggregate_best_first (df : results_df) first rest ev :
  sort_values_contract sort_values ->
  has_metric_score_column df = true ->
  aggregate' df = Ok (first :: rest, ev) ->
  forall t, t ∈ rest ->
    match metric_score first, metric_score t with
    | Some best, Some x =>
      (tune_mode goal = "max" -> (x <= best)%Q) /\
      (tune_mode goal = "min" -> (best <= x)%Q)
    | None, Some _ => False
    | _, None => True
    end.
Proof.
  intros Hc Hcol. unfold aggregate. rewrite Hcol. intros Hb t Ht.
  set (asc := negb (String.eqb goal MAXIMIZE)) in *.
  destruct (Hc asc (rows df)) as (_ & Hsorted).
  apply sorted_scores in Hsorted.
  destruct (backfill_keeps _ _ _ _ _ _ Hb) as (Hs & _).
  rewrite nan_guard_scores in Hs. rewrite <- Hs in Hsorted.
  rewrite fmap_cons in Hsorted. apply StronglySorted_inv in Hsorted as [_ Hall].
  rewrite Forall_forall in Hall.
  assert (Hle : score_le asc (metric_score first) (metric_score t)).
  { apply Hall. apply list_elem_of_fmap. eauto. }
  unfold tune_mode. fold asc. unfold score_le in Hle.
  destruct (metric_score first) as [best|], (metric_score t) as [x|]; auto.
  destruct asc; split; (discriminate || intros _; exact Hle).
Qed.

End AggregatorInvariants.

(** ** Checkpoint staging: a slot is written once *)

Lemma checkpoint_success checkpoint_dir copy_id save_path (fs : filesystem) entries :
  fs !! save_path = Some (Dir entries) ->
  fs !! os_path_join checkpoint_dir "model" = None ->
  fs !! (os_path_join checkpoint_dir "model" ++ "." ++ copy_id ++ ".tmp")%string
    = None ->
  outcome (checkpoint checkpoint_dir copy_id None save_path fs) = Ok tt /\
  final (checkpoint checkpoint_dir copy_id None save_path fs)
    = <[os_path_join checkpoint_dir "model" :=
          copytree_node ignore_dot_files (Dir entries)]> fs.
Proof.
  intros Hsave Hslot Htmp.
  set (checkpoint_model := os_path_join checkpoint_dir "model") in *.
  set (tmp_dst := (checkpoint_model ++ "." ++ copy_id ++ ".tmp")%string) in *.
  set (copied := copytree_node ignore_dot_files (Dir entries)).
  assert (Hne : checkpoint_model <> tmp_dst).
  { intros H. symmetry in H. revert H. apply append_longer. discriminate. }
  assert (Hcopy : shutil_copytree ignore_dot_files save_path tmp_dst fs =
                  (<[tmp_dst := copied]> fs, Ok tt)).
  { unfold shutil_copytree, os_path_exists. rewrite Hsave, Htmp.
    rewrite bool_decide_eq_false_2 by (intros [? ?]; discriminate). reflexivity. }
  assert (Hrename : os_rename None tmp_dst checkpoint_model
                      (<[tmp_dst := copied]> fs) =
                    (<[checkpoint_model := copied]> fs, Ok tt)).
  { unfold os_rename. rewrite lookup_insert_eq.
    rewrite lookup_insert_ne, Hslot by congruence.
    rewrite delete_insert_id by exact Htmp.
    destruct copied; reflexivity. }
  unfold checkpoint. fold checkpoint_model. fold tmp_dst.
  unfold os_path_isdir, os_path_exists. rewrite Hslot, Hsave.
  rewrite bool_decide_eq_true_2 by eauto. cbn [negb].
  rewrite Hcopy, Hrename. cbn [final outcome]. auto.
Qed.

(** X13: a checkpoint slot is written once.  After a checkpoint that went
    through, a later call for the same checkpoint directory (the teardown
    of a trial calls [checkpoint] again without advancing
    [tune_checkpoint_num]) returns normally and changes nothing, even when
    the model directory has changed in between: the slot keeps the first
    copy. *)
Theorem checkpoint_slot_written_once checkpoint_dir copy_id save_path
    (fs : filesystem) entries entries2 copy_id2 rename_fault2 :
  let checkpoint_model := os_path_join checkpoint_dir "model" in
  fs !! save_path = Some (Dir entries) ->
  fs !! checkpoint_model = None ->
  fs !! (checkpoint_model ++ "." ++ copy_id ++ ".tmp")%string = None ->
  let fs1 := final (checkpoint checkpoint_dir copy_id None save_path fs) in
  let fs2 := <[save_path := Dir entries2]> fs1 in
  let second := checkpoint checkpoint_dir copy_id2 rename_fault2 save_path fs2 in
  outcome second = Ok tt /\ final second = fs2 /\ trace second = [fs2] /\
  final second !! checkpoint_model
    = Some (copytree_node ignore_dot_files (Dir entries)).
Proof.
  intros checkpoint_model Hsave Hslot Htmp fs1 fs2 second.
  destruct (checkpoint_success checkpoint_dir copy_id save_path fs entries
              Hsave Hslot Htmp) as (_ & Hfinal).
  fold checkpoint_model in Hfinal.
  assert (Hne : save_path <> checkpoint_model).
  { intros H. rewrite H in Hsave. congruence. }
  assert (Hcm : fs2 !! checkpoint_model
                = Some (copytree_node ignore_dot_files (Dir entries))).
  { unfold fs2, fs1. rewrite Hfinal.
    rewrite lookup_insert_ne by exact Hne. apply lookup_insert_eq. }
  assert (Hsecond : second = {| trace := [fs2]; final := fs2; outcome := Ok tt |}).
  { unfold second, checkpoint. fold checkpoint_model.
    unfold os_path_isdir. rewrite Hcm. rewrite copytree_dir. reflexivity. }
  rewrite Hsecond. cbn [trace final outcome]. auto.
Qed.

(** ** What [copytree] keeps *)

(** The node a relative path leads to. *)
Fixpoint lookup_path (n : node) (path : list string) : option node :=
  match path with
  | [] => Some n
  | name :: rest =>
    match n with
    | Dir es =>
      match lookup_entry name es with
      | Some child => lookup_path child rest
      | None => None
      end
    | File _ => None
    end
  end.

Lemma lookup_entry_copied (copy : node -> node) name es :
  lookup_entry name
    ((fun e => (e.1, copy e.2)) <$>
       List.filter (fun e => negb (startswith_dot e.1)) es)
  = if startswith_dot name then None else copy <$> lookup_entry name es.
Proof.
  unfold lookup_entry.
  induction es as [|[n child] es IH]; simpl.
  - destruct (startswith_dot name); reflexivity.
  - destruct (String.eqb n name) eqn:E.
    + apply String.eqb_eq in E as ->.
      destruct (startswith_dot name) eqn:Edot; simpl.
      * exact IH.
      * rewrite String.eqb_refl. reflexivity.
    + destruct (startswith_dot n); simpl; [exact IH|].
      rewrite E. exact IH.
Qed.

(** X14: the copy that [checkpoint] stages holds exactly the visible part of
    the model directory: a path none of whose components starts with a dot
    leads, in the copy, to the copy of what it leads to in the source, and a
    path through a name that starts with a dot leads nowhere. *)
Theorem copytree_keeps_visible_paths (n : node) (path : list string) :
  lookup_path (copytree_node ignore_dot_files n) path =
    if forallb (fun name => negb (startswith_dot name)) path
    then copytree_node ignore_dot_files <$> lookup_path n path
    else None.
Proof.
  revert n. induction path as [|name rest IH]; intros n; [reflexivity|].
  destruct n as [c|es].
  - simpl. destruct (negb (startswith_dot name) && _); reflexivity.
  - rewrite copytree_dir. cbn [lookup_path forallb].
    rewrite lookup_entry_copied.
    destruct (startswith_dot name); [reflexivity|]. cbn [negb andb].
    destruct (lookup_entry name es) as [child|]; cbn [fmap option_fmap option_map].
    + apply IH.
    + destruct (forallb _ rest); reflexivity.
Qed.

(** ** The report callback: evaluation, teardown and the queue *)

(** X15: a teardown that follows an evaluation with no step in between
    neither checkpoints nor reports again, on any worker and with either
    backend: [on_eval_end] leaves [last_steps] at the steps of the
    tracker. *)
Theorem teardown_after_eval_is_silent (ray : bool) (tracker : progress_tracker)
    (last_steps : Z) (save_path save_path' : string) (is_coordinator : bool) :
  let after := on_eval_end ray tracker last_steps save_path in
  on_trainer_train_teardown ray after.1.1 after.1.2 save_path' is_coordinator
    = (after.1.1, after.1.2, []).
Proof.
  unfold on_eval_end, on_trainer_train_teardown. cbn [fst snd steps].
  rewrite Z.ltb_irrefl, andb_false_r. reflexivity.
Qed.

(** The hooks the trainer calls on the callback during training;
    [steps_now] is [progress_tracker.steps] at the call. *)
Inductive hook :=
| EvalEnd (steps_now : Z)
| TrainTeardown (steps_now : Z) (is_coordinator : bool).

(** What the callback does over a sequence of hooks. *)
Fixpoint run_hooks (ray : bool) (tracker : progress_tracker) (last_steps : Z)
    (save_path : string) (hs : list hook) : list trial_event :=
  match hs with
  | [] => []
  | EvalEnd s :: rest =>
    let r := on_eval_end ray
               {| steps := s; tune_checkpoint_num := tune_checkpoint_num tracker |}
               last_steps save_path in
    r.2 ++ run_hooks ray r.1.1 r.1.2 save_path rest
  | TrainTeardown s c :: rest =>
    let r := on_trainer_train_teardown ray
               {| steps := s; tune_checkpoint_num := tune_checkpoint_num tracker |}
               last_steps save_path c in
    r.2 ++ run_hooks ray r.1.1 r.1.2 save_path rest
  end.

(** The pairs put on the queue, in order. *)
Definition queued (events : list trial_event) : list (progress_tracker * string) :=
  flat_map (fun ev => match ev with
                      | QueuePut t p => [(t, p)]
                      | _ => []
                      end) events.

(** The same calls, with the checkpoint taken from the unpacked directory. *)
Definition relocate (as_directory : string -> string) (ev : trial_event)
  : trial_event :=
  match ev with
  | CheckpointCall t p => CheckpointCall t (as_directory p)
  | _ => ev
  end.

Definition is_queue_put (ev : trial_event) : Prop :=
  match ev with
  | QueuePut _ _ => True
  | _ => False
  end.

Lemma check_queue_app as_directory a b :
  check_queue as_directory (a ++ b)
  = check_queue as_directory a ++ check_queue as_directory b.
Proof. unfold check_queue. apply flat_map_app. Qed.

Lemma check_queue_batches as_directory (batches : list (list (progress_tracker * string))) :
  flat_map (check_queue as_directory) batches
  = check_queue as_directory (concat batches).
Proof.
  induction batches as [|b batches IH]; [reflexivity|].
  cbn [flat_map concat]. rewrite check_queue_app, IH. reflexivity.
Qed.

Lemma queued_app a b : queued (a ++ b) = queued a ++ queued b.
Proof. unfold queued. apply flat_map_app. Qed.

Lemma run_hooks_ray_puts tracker last_steps save_path hs :
  Forall is_queue_put (run_hooks true tracker last_steps save_path hs).
Proof.
  revert tracker last_steps.
  induction hs as [|[s|s c] hs IH]; intros tracker last_steps; cbn [run_hooks].
  - constructor.
  - apply Forall_app. split; [|apply IH].
    unfold on_eval_end, _checkpoint_progress. cbn. repeat constructor.
  - apply Forall_app. split; [|apply IH].
    unfold on_trainer_train_teardown, _checkpoint_progress.
    destruct (c && _); cbn; repeat constructor.
Qed.

Lemma run_hooks_replayed as_directory tracker last_steps save_path hs :
  check_queue as_directory (queued (run_hooks true tracker last_steps save_path hs))
  = relocate as_directory <$> run_hooks false tracker last_steps save_path hs.
Proof.
  revert tracker last_steps.
  induction hs as [|[s|s c] hs IH]; intros tracker last_steps; cbn [run_hooks].
  - reflexivity.
  - rewrite queued_app, check_queue_app, fmap_app, IH. reflexivity.
  - rewrite queued_app, check_queue_app, fmap_app, IH.
    unfold on_trainer_train_teardown, _checkpoint_progress.
    destruct (c && _); reflexivity.
Qed.

(** X16: with the Ray backend the callback itself never checkpoints or
    reports, it only puts pairs on the queue; and however the polling of the
    trial driver splits the queue into batches, [check_queue] makes, in the
    same order, the calls of [checkpoint] and [report] that the callback
    makes itself with a local backend, the checkpoint being taken from the
    directory the queued reference is unpacked to. *)
Theorem check_queue_replays_direct_calls (as_directory : string -> string)
    (tracker : progress_tracker) (last_steps : Z) (save_path : string)
    (hs : list hook) (batches : list (list (progress_tracker * string))) :
  concat batches = queued (run_hooks true tracker last_steps save_path hs) ->
  Forall is_queue_put (run_hooks true tracker last_steps save_path hs) /\
  flat_map (check_queue as_directory) batches
  = relocate as_directory <$> run_hooks false tracker last_steps save_path hs.
Proof.
  intros Hbatches. split; [apply run_hooks_ray_puts|].
  rewrite check_queue_batches, Hbatches. apply run_hooks_replayed.
Qed.

(** ** Resuming a trial: the move that goes through, and a stale backup *)

(** X17: when the move of the resumed checkpoint goes through, the model
    directory holds the checkpoint's model and nothing else changes but that
    the model has left the unpacked checkpoint: what the model directory
    held before is gone and no backup is left behind. *)
Theorem resume_replaces_model ckpt_path save_path (fs : filesystem) (n : node) :
  (forall c, fs !! save_path <> Some (File c)) ->
  fs !! (save_path ++ ".tmp")%string = None ->
  fs !! os_path_join ckpt_path "model" = Some n ->
  os_path_join ckpt_path "model" <> save_path ->
  on_trainer_train_setup true 0 ckpt_path Moved save_path fs
    = (<[save_path := n]> (delete (os_path_join ckpt_path "model") fs), Ok tt).
Proof.
  intros Hdir Htmp Hsrc Hne.
  set (src := os_path_join ckpt_path "model") in *.
  set (tmp_path := (save_path ++ ".tmp")%string) in *.
  assert (Hts : tmp_path <> save_path) by (apply append_longer; discriminate).
  assert (Hsrct : src <> tmp_path) by congruence.
  unfold on_trainer_train_setup. fold src. fold tmp_path. cbn [andb Z.eqb].
  unfold os_path_exists.
  destruct (fs !! save_path) as [[c|old]|] eqn:Hsave.
  - exfalso. exact (Hdir c eq_refl).
  - rewrite bool_decide_eq_true_2 by eauto.
    unfold os_rename. rewrite Hsave, Htmp.
    unfold safe_move_file.
    rewrite lookup_insert_ne, lookup_delete_ne, Hsrc by congruence.
    rewrite bool_decide_eq_true_2.
    2:{ rewrite lookup_insert_ne, lookup_delete_ne, lookup_insert_eq by congruence.
        eauto. }
    unfold shutil_rmtree.
    rewrite lookup_insert_ne, lookup_delete_ne, lookup_insert_eq by congruence.
    f_equal. apply map_eq. intros k.
    destruct (decide (k = tmp_path)) as [->|Hk1].
    { rewrite lookup_delete_eq, lookup_insert_ne, lookup_delete_ne by congruence.
      symmetry. exact Htmp. }
    rewrite lookup_delete_ne by congruence.
    destruct (decide (k = save_path)) as [->|Hk2].
    { rewrite !lookup_insert_eq. reflexivity. }
    rewrite !(lookup_insert_ne _ save_path) by congruence.
    destruct (decide (k = src)) as [->|Hk3].
    { rewrite !lookup_delete_eq. reflexivity. }
    rewrite !(lookup_delete_ne _ src) by congruence.
    rewrite lookup_insert_ne, lookup_delete_ne by congruence. reflexivity.
  - rewrite bool_decide_eq_false_2 by (intros [? ?]; discriminate).
    unfold safe_move_file. rewrite Hsrc.
    rewrite bool_decide_eq_false_2; [reflexivity|].
    rewrite lookup_insert_ne, lookup_delete_ne, Htmp by congruence.
    intros [? ?]; discriminate.
Qed.

(** X18: a backup left at [save_path + ".tmp"] by an earlier run is taken for
    the backup of this run.  When a trial resumes with no model directory
    and the move fails, the rollback moves the old backup to the model
    directory, whatever the failed move had left there, and the error of the
    move is raised. *)
Theorem resume_failure_promotes_stale_backup ckpt_path save_path
    (fs : filesystem) (stale : node) (e : exn)
    (partial : option (list (string * node))) :
  fs !! save_path = None ->
  fs !! (save_path ++ ".tmp")%string = Some stale ->
  on_trainer_train_setup true 0 ckpt_path (MoveFailed e partial) save_path fs
    = (<[save_path := stale]> (delete (save_path ++ ".tmp")%string fs), Raise e).
Proof.
  intros Hsave Htmp.
  set (tmp_path := (save_path ++ ".tmp")%string) in *.
  assert (Hts : tmp_path <> save_path) by (apply append_longer; discriminate).
  unfold on_trainer_train_setup. fold tmp_path. cbn [andb Z.eqb].
  unfold os_path_exists at 1. rewrite Hsave.
  rewrite bool_decide_eq_false_2 by (intros [? ?]; discriminate).
  destruct partial as [part|]; unfold safe_move_file, rollback, os_path_exists.
  - rewrite lookup_insert_eq. rewrite bool_decide_eq_true_2 by eauto.
    unfold shutil_rmtree. rewrite lookup_insert_eq.
    rewrite delete_insert_id by exact Hsave.
    rewrite Htmp. rewrite bool_decide_eq_true_2 by eauto.
    unfold os_rename. rewrite Htmp, Hsave. destruct stale; reflexivity.
  - rewrite Hsave. rewrite bool_decide_eq_false_2 by (intros [? ?]; discriminate).
    rewrite Htmp. rewrite bool_decide_eq_true_2 by eauto.
    unfold os_rename. rewrite Htmp, Hsave. destruct stale; reflexivity.
Qed.

(** ** Remote checkpoint directory *)

Lemma relative_parts_last_two (prefix : list string) (experiment trial : string) :
  _get_relative_checkpoints_dir_parts (prefix ++ [experiment; trial])
  = [experiment; trial].
Proof.
  unfold _get_relative_checkpoints_dir_parts.
  rewrite length_app. cbn [length].
  replace (length prefix + 2 - 2) with (length prefix) by lia.
  apply drop_app_length.
Qed.

Lemma string_append_assoc (a b c : string) :
  ((a ++ b) ++ c = a ++ b ++ c)%string.
Proof.
  induction a as [|x a IH]; [reflexivity|].
  change (String x ((a ++ b) ++ c) = String x (a ++ b ++ c))%string.
  f_equal. exact IH.
Qed.

(** What [os.path.join] puts before the next part: the path with a
    separator, unless it is empty or ends with one. *)
Definition with_separator (path : string) : string :=
  if String.eqb path "" || ends_with_slash path then path
  else (path ++ "/")%string.

Lemma path_join2_closed (path b : string) :
  path_join2 path b
  = if String.prefix "/" b then b else (with_separator path ++ b)%string.
Proof.
  unfold path_join2, with_separator.
  destruct (String.prefix "/" b); [reflexivity|].
  destruct (String.eqb path "" || ends_with_slash path); [reflexivity|].
  rewrite string_append_assoc. reflexivity.
Qed.

(** X19: with an upload directory, the remote checkpoint directory is made
    of the upload directory and the last two components of the trial
    directory only, joined as [os.path.join] joins them: a separator goes
    after a part that is not empty and does not end with one, and a
    component that starts with a separator discards what comes before it,
    the upload directory included.  The directories above the two
    components, the Kubernetes namespace and the head node play no part,
    and nothing is logged.  A trial directory of one component, or of none,
    gives the upload directory joined with what there is. *)
Theorem remote_checkpoint_dir_keeps_last_two (upload_dir : string)
    (kubernetes_namespace : option string) (node_by_ip : string -> string)
    (head_node_ip : string) (prefix : list string) (experiment trial : string) :
  let remote := _get_remote_checkpoint_dir (Some (Some upload_dir))
                  kubernetes_namespace node_by_ip head_node_ip in
  remote (prefix ++ [experiment; trial])
  = (Some (CloudPath
       (if String.prefix "/" trial then trial
        else if String.prefix "/" experiment
             then with_separator experiment ++ trial
             else with_separator (with_separator upload_dir ++ experiment)
                    ++ trial)%string), []) /\
  remote [trial]
  = (Some (CloudPath
       (if String.prefix "/" trial then trial
        else with_separator upload_dir ++ trial)%string), []) /\
  remote [] = (Some (CloudPath upload_dir), []).
Proof.
  intros remote. unfold remote, _get_remote_checkpoint_dir.
  split; [|split; [|reflexivity]].
  - rewrite relative_parts_last_two.
    unfold os_path_join_all. cbn [fold_left]. rewrite !path_join2_closed.
    destruct (String.prefix "/" trial); [reflexivity|].
    destruct (String.prefix "/" experiment); reflexivity.
  - unfold os_path_join_all, _get_relative_checkpoints_dir_parts.
    cbn [length Nat.sub drop fold_left]. rewrite path_join2_closed.
    reflexivity.
Qed.

(** * The further properties at concrete inputs *)

Lemma has_metric_guards_lookup_witness :
  VALIDATION <> EmptyString /\
  ((exists v,
      get_metric_score_from_train_stats "out" "accuracy" higher_is_better
        (Some example_train_stats) (Some VALIDATION) = Ok v) <->
   _has_metric "out" "accuracy" (Some example_train_stats) VALIDATION = true).
Proof.
  assert (H : VALIDATION <> EmptyString) by (unfold VALIDATION; discriminate).
  split; [exact H|].
  exact (proj1 (has_metric_guards_lookup "out" "accuracy" higher_is_better
                  (Some example_train_stats) VALIDATION H)).
Defined.

(** A sampled learning rate merged into the trainer section, and a combiner
    type that replaces the section. *)
Definition example_params : list (string * json) :=
  [ ("trainer", JDict {[ "learning_rate" := JFloat (Finite 0.01) ]});
    ("combiner", JStr "concat") ].

Definition example_model_dict : gmap string json :=
  {[ "trainer" := JDict {[ "epochs" := JInt 10 ]};
     "combiner" := JDict {[ "type" := JStr "tabnet" ]} ]}.

Definition example_merged : gmap string json :=
  {[ "trainer" := JDict {[ "epochs" := JInt 10;
                           "learning_rate" := JFloat (Finite 0.01) ]};
     "combiner" := JStr "concat" ]}.

Lemma set_values_overlays_witness :
  NoDup (example_params.*1) /\
  set_values example_params example_model_dict = (example_merged, Ok tt) /\
  merged_into example_model_dict "combiner" (JStr "concat") example_merged /\
  merged_into example_model_dict "trainer"
    (JDict {[ "learning_rate" := JFloat (Finite 0.01) ]}) example_merged.
Proof.
  assert (Hnd : NoDup (example_params.*1))
    by (apply (bool_decide_unpack _); vm_compute; exact I).
  assert (Hrun : set_values example_params example_model_dict
                 = (example_merged, Ok tt)) by (vm_compute; reflexivity).
  split; [exact Hnd|]. split; [exact Hrun|].
  destruct (proj1 (set_values_overlays example_params example_model_dict Hnd)
              example_merged Hrun) as (_ & Hin).
  split; apply Hin.
  - apply list_elem_of_further, list_elem_of_here.
  - apply list_elem_of_here.
Defined.

(** A trial directory with a complete checkpoint, a partial one and a file. *)
Definition trial_entries : list (string * node) :=
  [ ("checkpoint_000001",
     Dir [ (".is_checkpoint", File ""); (".tune_metadata", File "meta");
           ("model", Dir []) ]);
    ("checkpoint_000002",
     Dir [ (".is_checkpoint", File ""); ("model", Dir []) ]);
    ("params.json", File "{}") ].

Definition trial_fs : filesystem :=
  {[ "/results/trial_0" := Dir trial_entries ]}.

Definition pruned_fs : filesystem :=
  {[ "/results/trial_0" :=
       Dir [ ("checkpoint_000001",
              Dir [ (".is_checkpoint", File ""); (".tune_metadata", File "meta");
                    ("model", Dir []) ]);
             ("checkpoint_000002", Dir [ ("model", Dir []) ]);
             ("params.json", File "{}") ] ]}.

Lemma remove_partial_checkpoints_prunes_witness :
  trial_fs !! "/results/trial_0" = Some (Dir trial_entries) /\
  _remove_partial_checkpoints "/results/trial_0" trial_fs = (pruned_fs, Ok tt) /\
  _remove_partial_checkpoints "/results/trial_0" pruned_fs = (pruned_fs, Ok tt).
Proof.
  assert (H1 : trial_fs !! "/results/trial_0" = Some (Dir trial_entries))
    by (vm_compute; reflexivity).
  assert (H2 : _remove_partial_checkpoints "/results/trial_0" trial_fs
               = (pruned_fs, Ok tt)) by (vm_compute; reflexivity).
  split; [exact H1|]. split; [exact H2|].
  destruct (remove_partial_checkpoints_prunes "/results/trial_0" trial_fs
              pruned_fs trial_entries H1 H2) as (es' & _ & _ & _ & _ & _ & Hagain).
  exact Hagain.
Defined.


Lemma aggregate_best_first_witness :
  sort_values_contract stable_sort /\
  has_metric_score_column example_df = true /\
  exists first rest ev,
    aggregate MAXIMIZE stable_sort None (fun _ => None)
      (fun _ _ => Unsupported) example_df = Ok (first :: rest, ev) /\
    forall t, t ∈ rest ->
      match metric_score first, metric_score t with
      | Some best, Some x =>
        (tune_mode MAXIMIZE = "max" -> (x <= best)%Q) /\
        (tune_mode MAXIMIZE = "min" -> (best <= x)%Q)
      | None, Some _ => False
      | _, None => True
      end.
Proof.
  split; [exact stable_sort_contract|]. split; [reflexivity|].
  assert (H : exists first rest ev,
            aggregate MAXIMIZE stable_sort None (fun _ => None)
              (fun _ _ => Unsupported) example_df = Ok (first :: rest, ev))
    by (vm_compute; do 3 eexists; reflexivity).
  destruct H as (first & rest & ev & H).
  exists first, rest, ev. split; [exact H|].
  exact (aggregate_best_first MAXIMIZE stable_sort None (fun _ => None)
           (fun _ _ => Unsupported) example_df first rest ev
           stable_sort_contract eq_refl H).
Defined.

Lemma aggregate_keeps_rows_witness :
  sort_values_contract stable_sort /\
  has_metric_score_column example_df = true /\
  exists out ev,
    aggregate MINIMIZE stable_sort None (fun _ => None)
      (fun _ _ => Unsupported) example_df = Ok (out, ev) /\
    length out = length (rows example_df) /\
    trial_id <$> rows example_df ≡ₚ trial_id <$> out.
Proof.
  split; [exact stable_sort_contract|]. split; [reflexivity|].
  assert (H : exists out ev,
            aggregate MINIMIZE stable_sort None (fun _ => None)
              (fun _ _ => Unsupported) example_df = Ok (out, ev))
    by (vm_compute; do 2 eexists; reflexivity).
  destruct H as (out & ev & H).
  exists out, ev. split; [exact H|].
  destruct (aggregate_keeps_rows MINIMIZE stable_sort None (fun _ => None)
              (fun _ _ => Unsupported) example_df out ev
              stable_sort_contract eq_refl H) as (sorted & _ & _ & Hlen & Hids & _).
  split; [exact Hlen | exact Hids].
Defined.

Lemma checkpoint_slot_written_once_witness :
  example_fs !! "/tmp/save/model" = Some (Dir example_model) /\
  example_fs !! os_path_join "/results/trial_0/checkpoint_1" "model" = None /\
  example_fs !! (os_path_join "/results/trial_0/checkpoint_1" "model"
                   ++ "." ++ "1f0e" ++ ".tmp")%string = None /\
  let fs2 :=
    <["/tmp/save/model" := Dir [ ("model_weights", File "newer") ]]>
      (final (checkpoint "/results/trial_0/checkpoint_1" "1f0e" None
                "/tmp/save/model" example_fs)) in
  final (checkpoint "/results/trial_0/checkpoint_1" "2a1b" None
           "/tmp/save/model" fs2)
    !! os_path_join "/results/trial_0/checkpoint_1" "model"
  = Some (copytree_node ignore_dot_files (Dir example_model)).
Proof.
  assert (H1 : example_fs !! "/tmp/save/model" = Some (Dir example_model))
    by (vm_compute; reflexivity).
  assert (H2 : example_fs !! os_path_join "/results/trial_0/checkpoint_1" "model"
               = None) by (vm_compute; reflexivity).
  assert (H3 : example_fs !! (os_path_join "/results/trial_0/checkpoint_1" "model"
                                ++ "." ++ "1f0e" ++ ".tmp")%string = None)
    by (vm_compute; reflexivity).
  split; [exact H1|]. split; [exact H2|]. split; [exact H3|].
  exact (proj2 (proj2 (proj2
    (checkpoint_slot_written_once "/results/trial_0/checkpoint_1" "1f0e"
       "/tmp/save/model" example_fs example_model
       [ ("model_weights", File "newer") ] "2a1b" None H1 H2 H3)))).
Defined.

(** Two evaluations and a teardown after further steps; the driver finds the
    first pair alone, then nothing, then the other two. *)
Definition example_hooks : list hook :=
  [EvalEnd 10; EvalEnd 20; TrainTeardown 25 true].

Definition example_tracker : progress_tracker :=
  {| steps := 0; tune_checkpoint_num := 0 |}.

Definition example_batches : list (list (progress_tracker * string)) :=
  [ [ ({| steps := 10; tune_checkpoint_num := 1 |}, "/tmp/save/model") ];
    [];
    [ ({| steps := 20; tune_checkpoint_num := 2 |}, "/tmp/save/model");
      ({| steps := 25; tune_checkpoint_num := 2 |}, "/tmp/save/model") ] ].

Definition unpacked (ckpt_ref : string) : string := "/tmp/unpacked" ++ ckpt_ref.

Lemma check_queue_replays_direct_calls_witness :
  concat example_batches
    = queued (run_hooks true example_tracker 0 "/tmp/save/model" example_hooks) /\
  flat_map (check_queue unpacked) example_batches
    = relocate unpacked
        <$> run_hooks false example_tracker 0 "/tmp/save/model" example_hooks.
Proof.
  assert (H : concat example_batches
              = queued (run_hooks true example_tracker 0 "/tmp/save/model"
                          example_hooks)) by (vm_compute; reflexivity).
  split; [exact H|].
  exact (proj2 (check_queue_replays_direct_calls unpacked example_tracker 0
                  "/tmp/save/model" example_hooks example_batches H)).
Defined.

Lemma resume_replaces_model_witness :
  (forall c, resume_fs !! "/tmp/save/model" <> Some (File c)) /\
  resume_fs !! "/tmp/save/model.tmp" = None /\
  resume_fs !! os_path_join "/tmp/ckpt" "model"
    = Some (Dir [ ("model_weights", File "resumed") ]) /\
  os_path_join "/tmp/ckpt" "model" <> "/tmp/save/model" /\
  on_trainer_train_setup true 0 "/tmp/ckpt" Moved "/tmp/save/model" resume_fs
    = ({[ "/tmp/save/model" := Dir [ ("model_weights", File "resumed") ] ]},
       Ok tt).
Proof.
  assert (H1 : forall c, resume_fs !! "/tmp/save/model" <> Some (File c))
    by (intros c; vm_compute; discriminate).
  assert (H2 : resume_fs !! ("/tmp/save/model" ++ ".tmp")%string = None)
    by (vm_compute; reflexivity).
  assert (H3 : resume_fs !! os_path_join "/tmp/ckpt" "model"
               = Some (Dir [ ("model_weights", File "resumed") ]))
    by (vm_compute; reflexivity).
  assert (H4 : os_path_join "/tmp/ckpt" "model" <> "/tmp/save/model")
    by (vm_compute; discriminate).
  split; [exact H1|]. split; [exact H2|]. split; [exact H3|]. split; [exact H4|].
  rewrite (resume_replaces_model "/tmp/ckpt" "/tmp/save/model" resume_fs
             (Dir [ ("model_weights", File "resumed") ]) H1 H2 H3 H4).
  vm_compute. reflexivity.
Defined.

(** No model directory, and the backup of an earlier run. *)
Definition stale_fs : filesystem :=
  {[ "/tmp/save/model.tmp" := Dir [ ("model_weights", File "stale") ];
     "/tmp/ckpt/model" := Dir [ ("model_weights", File "resumed") ] ]}.

Lemma resume_failure_promotes_stale_backup_witness :
  stale_fs !! "/tmp/save/model" = None /\
  stale_fs !! "/tmp/save/model.tmp"
    = Some (Dir [ ("model_weights", File "stale") ]) /\
  on_trainer_train_setup true 0 "/tmp/ckpt"
    (MoveFailed (OSError "EXDEV") (Some [ ("model_weights", File "res") ]))
    "/tmp/save/model" stale_fs
  = ({[ "/tmp/save/model" := Dir [ ("model_weights", File "stale") ];
        "/tmp/ckpt/model" := Dir [ ("model_weights", File "resumed") ] ]},
     Raise (OSError "EXDEV")).
Proof.
  assert (H1 : stale_fs !! "/tmp/save/model" = None) by (vm_compute; reflexivity).
  assert (H2 : stale_fs !! ("/tmp/save/model" ++ ".tmp")%string
               = Some (Dir [ ("model_weights", File "stale") ]))
    by (vm_compute; reflexivity).
  split; [exact H1|]. split; [exact H2|].
  rewrite (resume_failure_promotes_stale_backup "/tmp/ckpt" "/tmp/save/model"
             stale_fs (Dir [ ("model_weights", File "stale") ]) (OSError "EXDEV")
             (Some [ ("model_weights", File "res") ]) H1 H2).
  vm_compute. reflexivity.
Defined.

Example remote_checkpoint_dir_examples :
  _get_remote_checkpoint_dir (Some (Some "s3://bucket/results")) None
    (fun ip => ip) "10.0.0.1" ["/"; "home"; "ray_results"; "hyperopt"; "trial_0"]
  = (Some (CloudPath "s3://bucket/results/hyperopt/trial_0"), []) /\
  _get_remote_checkpoint_dir (Some (Some "s3://bucket/results/")) None
    (fun ip => ip) "10.0.0.1" ["/"; "home"; "ray_results"; "hyperopt"; "trial_0"]
  = (Some (CloudPath "s3://bucket/results/hyperopt/trial_0"), []) /\
  _get_remote_checkpoint_dir (Some (Some "s3://bucket/results")) None
    (fun ip => ip) "10.0.0.1" ["/"; "trial_0"]
  = (Some (CloudPath "/trial_0"), []).
Proof. repeat split; vm_compute; reflexivity. Qed.
